(** * Smart-Notes: note versioning, drafts, restore and reminder buckets

    A shallow embedding of the Django application under [api/]:
    [models.py] (the tables), [serializers.py] (the [NoteSerializer]
    validation pipeline and the OpenRouter summary helper) and
    [views.py] (the request handlers).

    Conventions of the embedding.
    - A table is the list of its rows in primary-key (insertion) order.
    - Primary keys, user ids, calendar dates (a day number) and
      timestamps are integers ([Z]); [version_number] is a [nat], as it is
      computed from a row count.
    - A handler is a function from the store (and the request context:
      the authenticated user, the server clock, the process environment)
      to a response and the new store.  Every [save], [create] and
      [delete] is committed at once: no handler runs in a transaction.
    - The only column constraint that is modelled is the one the models
      declare on top of the column types, [unique_together] on
      [NoteVersion]; payload values are typed, so NOT NULL and type errors
      do not arise.
    - The HTTP call to OpenRouter is an oracle of the environment: what it
      raises or returns for a given note content. *)

From Stdlib Require Import List ZArith String Ascii Bool Lia Permutation Sorted PeanoNat.
Import ListNotations.

Local Open Scope string_scope.
Local Open Scope list_scope.
Local Open Scope Z_scope.

(** ** Python string helpers *)

Module Py.

(** [str.isspace] on the ASCII range: TAB..CR, FS..US and the space. *)
Definition isspace (c : ascii) : bool :=
  let n := nat_of_ascii c in
  ((9 <=? n)%nat && (n <=? 13)%nat) || ((28 <=? n)%nat && (n <=? 32)%nat).

Fixpoint lstrip (s : string) : string :=
  match s with
  | EmptyString => EmptyString
  | String c s' => if isspace c then lstrip s' else s
  end.

Fixpoint rstrip (s : string) : string :=
  match s with
  | EmptyString => EmptyString
  | String c s' =>
      match rstrip s' with
      | EmptyString => if isspace c then EmptyString else String c EmptyString
      | r => String c r
      end
  end.

(** [s.strip()] *)
Definition strip (s : string) : string := rstrip (lstrip s).

Definition lower_char (c : ascii) : ascii :=
  let n := nat_of_ascii c in
  if ((65 <=? n)%nat && (n <=? 90)%nat) then ascii_of_nat (n + 32) else c.

(** [s.lower()] on ASCII letters *)
Fixpoint lower (s : string) : string :=
  match s with
  | EmptyString => EmptyString
  | String c s' => String (lower_char c) (lower s')
  end.

(** [needle in hay] *)
Fixpoint contains (needle hay : string) : bool :=
  String.prefix needle hay ||
  match hay with
  | EmptyString => false
  | String _ hay' => contains needle hay'
  end.

(** truthiness of a [str] *)
Definition truthy (s : string) : bool :=
  match s with EmptyString => false | _ => true end.

(** [len(s)]; strings are taken as ASCII text, one byte per character. *)
Definition len (s : string) : Z := Z.of_nat (String.length s).

(** [d.get(key, default)] for a key that is absent ([None]) or present *)
Definition get {A : Type} (field : option A) (default : A) : A :=
  match field with Some x => x | None => default end.

End Py.

(** ** models.py *)

Module Category.
Record t := mk {
  id : Z;
  name : string;
  owner : Z
}.
End Category.

Module Note.
Record t := mk {
  id : Z;
  title : string;
  category : option Z;          (* category_id, NULL allowed *)
  tags : list string;
  content : string;
  summary : string;
  reminder_date : option Z;     (* DateField, NULL allowed *)
  created_at : Z;               (* auto_now_add *)
  updated_at : Z;               (* auto_now *)
  owner : Z;
  is_favorite : bool
}.
End Note.

Module NoteVersion.
Record t := mk {
  id : Z;
  note : Z;                     (* note_id, ON DELETE CASCADE *)
  title : string;
  content : string;
  tags : list string;
  summary : string;
  category : option Z;
  reminder_date : option Z;
  is_favorite : bool;
  version_number : nat;
  created_at : Z;               (* auto_now_add *)
  is_draft : bool
}.

(** The [unique_together = ['note', 'version_number']] key. *)
Definition unique_key (v : t) : Z * nat := (note v, version_number v).
End NoteVersion.

(** ** The store

    The three tables, the next primary key of each, and the log of the
    contents handed to [_get_openrouter_summary] (the one external effect
    the claims speak about). *)

Record World := mkWorld {
  notes : list Note.t;
  versions : list NoteVersion.t;
  categories : list Category.t;
  next_note_id : Z;
  next_version_id : Z;
  next_category_id : Z;
  summary_calls : list string
}.

Definition empty_world : World :=
  mkWorld [] [] [] 1 1 1 [].

Definition set_notes (w : World) (l : list Note.t) : World :=
  mkWorld l (versions w) (categories w)
          (next_note_id w) (next_version_id w) (next_category_id w) (summary_calls w).

(** ** ORM primitives *)

Module ORM.

(** [Note.objects.get(pk=pk, owner=user)]; [None] is [Note.DoesNotExist].
    Primary keys are unique, so at most one row matches. *)
Definition Note_get (w : World) (pk user : Z) : option Note.t :=
  find (fun n => (Note.id n =? pk) && (Note.owner n =? user)) (notes w).

(** [note.versions.all()] for the note of primary key [note_id]. *)
Definition versions_of (w : World) (note_id : Z) : list NoteVersion.t :=
  filter (fun v => NoteVersion.note v =? note_id) (versions w).

(** [note.versions.count()] *)
Definition versions_count (w : World) (note_id : Z) : nat :=
  List.length (versions_of w note_id).

Definition key_eqb (k1 k2 : Z * nat) : bool :=
  (fst k1 =? fst k2) && (snd k1 =? snd k2)%nat.

(** [NoteVersion.objects.create(...)]: the row gets the next primary key
    and [created_at = now]; [None] is the [IntegrityError] of
    [unique_together], in which case nothing is written. *)
Definition NoteVersion_create (w : World) (now : Z)
    (note : Z) (title content : string) (tags : list string) (summary : string)
    (category reminder_date : option Z) (is_favorite : bool)
    (version_number : nat) (is_draft : bool) : option (NoteVersion.t * World) :=
  if existsb (fun v => key_eqb (NoteVersion.unique_key v) (note, version_number)) (versions w)
  then None
  else
    let v := NoteVersion.mk (next_version_id w) note title content tags summary
                            category reminder_date is_favorite version_number now is_draft in
    Some (v, mkWorld (notes w) (versions w ++ [v]) (categories w)
                     (next_note_id w) (next_version_id w + 1) (next_category_id w)
                     (summary_calls w)).

(** [NoteVersion.objects.get(id=version_id, note_id=note_id, note__owner=user)]
    together with [version.note]; [None] is [NoteVersion.DoesNotExist].  A
    missing or null [version_id] matches no row. *)
Definition NoteVersion_get (w : World) (version_id : option Z) (note_id user : Z)
    : option (NoteVersion.t * Note.t) :=
  match version_id with
  | None => None
  | Some vid =>
      match find (fun v => (NoteVersion.id v =? vid) && (NoteVersion.note v =? note_id))
                 (versions w) with
      | None => None
      | Some v =>
          match Note_get w note_id user with      (* the join on note__owner *)
          | None => None
          | Some n => Some (v, n)
          end
      end
  end.

(** [instance.save()] of an existing note: UPDATE ... WHERE id = instance.id,
    with [updated_at = now]. *)
Definition touch (now : Z) (n : Note.t) : Note.t :=
  Note.mk (Note.id n) (Note.title n) (Note.category n) (Note.tags n) (Note.content n)
          (Note.summary n) (Note.reminder_date n) (Note.created_at n) now
          (Note.owner n) (Note.is_favorite n).

Definition Note_save (w : World) (now : Z) (n : Note.t) : World :=
  set_notes w (map (fun m => if Note.id m =? Note.id n then touch now n else m) (notes w)).

(** [Note.objects.create] with the given column values *)
Definition Note_create (w : World) (now : Z)
    (title : string) (category : option Z) (tags : list string) (content summary : string)
    (reminder_date : option Z) (owner : Z) (is_favorite : bool) : Note.t * World :=
  let n := Note.mk (next_note_id w) title category tags content summary reminder_date
                   now now owner is_favorite in
  (n, mkWorld (notes w ++ [n]) (versions w) (categories w)
              (next_note_id w + 1) (next_version_id w) (next_category_id w)
              (summary_calls w)).

(** [queryset.delete()] for the notes selected by [sel]; their versions go
    with them (CASCADE). *)
Definition Note_delete (w : World) (sel : Note.t -> bool) : World :=
  let gone := filter sel (notes w) in
  mkWorld (filter (fun n => negb (sel n)) (notes w))
          (filter (fun v => negb (existsb (fun n => Note.id n =? NoteVersion.note v) gone))
                  (versions w))
          (categories w)
          (next_note_id w) (next_version_id w) (next_category_id w) (summary_calls w).

(** [Category.objects.get_or_create(name=name, owner=owner)]; this is the
    only writer of the table, so at most one row matches the lookup. *)
Definition Category_get_or_create (w : World) (name : string) (owner : Z)
    : Category.t * World :=
  match find (fun c => String.eqb (Category.name c) name && (Category.owner c =? owner))
             (categories w) with
  | Some c => (c, w)
  | None =>
      let c := Category.mk (next_category_id w) name owner in
      (c, mkWorld (notes w) (versions w) (categories w ++ [c])
                  (next_note_id w) (next_version_id w) (next_category_id w + 1)
                  (summary_calls w))
  end.

(** [queryset.order_by(...)]: a stable insertion sort of the rows for the
    order [leb]. *)
Section OrderBy.
Context {A : Type} (leb : A -> A -> bool).

Fixpoint insert_row (x : A) (l : list A) : list A :=
  match l with
  | [] => [x]
  | y :: l' => if leb x y then x :: l else y :: insert_row x l'
  end.

Definition order_by (rows : list A) : list A :=
  fold_right insert_row [] rows.
End OrderBy.

End ORM.

(** ** serializers.py *)

Module Serializers.

(** The process environment of the summary helper: the API key and what
    the POST to OpenRouter does for a given prompt content. *)
Inductive ApiOutcome :=
| RequestException (e : string)   (* connection error, timeout, HTTP error status *)
| KeyOrIndexError (e : string)    (* the JSON lacks choices[0].message.content *)
| OtherException (e : string)     (* anything else raised inside the try block *)
| Completion (text : string).     (* result['choices'][0]['message']['content'] *)

Record Env := mkEnv {
  OPENROUTER_API_KEY : option string;
  openrouter : string -> ApiOutcome
}.

(** The [category] entry of a request body. *)
Inductive CategoryData :=
| CategoryDict (name : option string)   (* a JSON object, with or without "name" *)
| CategoryOther.                        (* null, a string, a list, a number *)

(** [request.data] of a note create or update: each key is absent ([None])
    or present. *)
Record NoteData := mkNoteData {
  d_title : option string;
  d_category : option CategoryData;
  d_tags : option (list string);
  d_content : option string;
  d_summary : option string;
  d_reminder_date : option (option Z);   (* [Some None] is an explicit null *)
  d_is_favorite : option bool
}.

(** [validated_data] *)
Record ValidatedData := mkValidated {
  vd_title : option string;
  vd_category : option Category.t;
  vd_tags : option (list string);
  vd_content : option string;
  vd_summary : option string;
  vd_reminder_date : option (option Z);
  vd_is_favorite : option bool
}.

(** [serializer.errors]: field name and message, in field order. *)
Definition ErrorMap := list (string * string).

(** Outcome of one serializer field: skipped (absent and not required),
    a validated value, or a [ValidationError]. *)
Inductive Field (A : Type) :=
| Skip
| Valid (a : A)
| Invalid (msg : string).
Arguments Skip {A}.
Arguments Valid {A} a.
Arguments Invalid {A} msg.

Definition value {A : Type} (f : Field A) : option A :=
  match f with Valid a => Some a | _ => None end.

Definition error {A : Type} (field_name : string) (f : Field A) : ErrorMap :=
  match f with Invalid msg => [(field_name, msg)] | _ => [] end.

(** [Field.run_validation] on a key that may be absent: a partial update
    skips it, otherwise a required field fails. *)
Definition run_validation {A B : Type} (partial required : bool)
    (validate : A -> Field B) (data : option A) : Field B :=
  match data with
  | Some x => validate x
  | None => if partial then Skip
            else if required then Invalid "This field is required."
            else Skip
  end.

(** [serializers.CharField]: the value is trimmed, then checked for blank
    and for [max_length]. *)
Definition CharField (max_length : option Z) (allow_blank : bool) (data : string)
    : Field string :=
  let v := Py.strip data in
  if negb (Py.truthy v) then
    if allow_blank then Valid "" else Invalid "This field may not be blank."
  else
    match max_length with
    | Some m => if m <? Py.len v
                then Invalid "Ensure this field has no more than the allowed characters."
                else Valid v
    | None => Valid v
    end.

(** [serializers.ListField(child=...)] with [allow_empty=True] *)
Fixpoint ListField (child : string -> Field string) (data : list string)
    : Field (list string) :=
  match data with
  | [] => Valid []
  | x :: data' =>
      match child x, ListField child data' with
      | Valid v, Valid vs => Valid (v :: vs)
      | Invalid m, _ => Invalid m
      | _, Invalid m => Invalid m
      | _, _ => Skip
      end
  end.

(** The nested [CategorySerializer()] ([fields = ['name']], from
    [Category.name = CharField(max_length=50)]); the validated value is
    the dictionary, with its 'name' key or (in a partial update) without. *)
Definition CategorySerializer (partial : bool) (data : CategoryData)
    : Field (option string) :=
  match data with
  | CategoryOther => Invalid "Invalid data. Expected a dictionary."
  | CategoryDict None =>
      if partial then Valid None else Invalid "This field is required."
  | CategoryDict (Some s) =>
      match CharField (Some 50) false s with
      | Valid v => Valid (Some v)
      | Invalid m => Invalid m
      | Skip => Skip
      end
  end.

(** [NoteSerializer.validate_category]: [value] is a dict here; without a
    'name' the format is invalid, otherwise the category of the normalised
    name is fetched or created for the user. *)
Definition validate_category (w : World) (user : Z) (value : option string)
    : Field Category.t * World :=
  match value with
  | None => (Invalid "Invalid category format.", w)
  | Some name =>
      let category_name := Py.lower (Py.strip name) in
      let '(category, w') := ORM.Category_get_or_create w category_name user in
      (Valid category, w')
  end.

(** [timezone.now().date()] for a clock in seconds (UTC). *)
Definition date_of (now : Z) : Z := now / 86400.

(** [NoteSerializer.validate_reminder_date] *)
Definition validate_reminder_date (now : Z) (value : option Z) : Field (option Z) :=
  match value with
  | Some d => if d <? date_of now
              then Invalid "Reminder date cannot be in the past."
              else Valid value
  | None => Valid value
  end.

(** [serializer.is_valid()]: every writable field of [Meta.fields] is run
    in order, each followed by its [validate_<field>] method; the errors
    are collected, and the validated data is returned when there is none.
    The store is threaded through because [validate_category] writes. *)
Definition is_valid (w : World) (now user : Z) (partial : bool) (data : NoteData)
    : (ErrorMap + ValidatedData) * World :=
  let f_title := run_validation partial true (CharField (Some 255) false) (d_title data) in
  let '(f_category, w1) :=
    match run_validation partial true (CategorySerializer partial) (d_category data) with
    | Valid v => validate_category w user v
    | Invalid m => (Invalid m, w)
    | Skip => (Skip, w)
    end in
  let f_tags :=
    run_validation partial true (ListField (CharField (Some 50) false)) (d_tags data) in
  let f_content := run_validation partial true (CharField None false) (d_content data) in
  let f_summary := run_validation partial false (CharField None true) (d_summary data) in
  let f_reminder_date :=
    match run_validation partial false (@Valid (option Z)) (d_reminder_date data) with
    | Valid v => validate_reminder_date now v
    | r => r
    end in
  let f_is_favorite := run_validation partial false (@Valid bool) (d_is_favorite data) in
  let errors :=
    error "title" f_title ++ error "category" f_category ++ error "tags" f_tags ++
    error "content" f_content ++ error "summary" f_summary ++
    error "reminder_date" f_reminder_date ++ error "is_favorite" f_is_favorite in
  match errors with
  | [] => (inr (mkValidated (value f_title) (value f_category) (value f_tags)
                            (value f_content) (value f_summary)
                            (value f_reminder_date) (value f_is_favorite)), w1)
  | _ => (inl errors, w1)
  end.

Definition log_summary_call (w : World) (content : string) : World :=
  mkWorld (notes w) (versions w) (categories w)
          (next_note_id w) (next_version_id w) (next_category_id w)
          (summary_calls w ++ [content]).

(** [NoteSerializer._get_openrouter_summary]; the call is entered in
    [summary_calls]. *)
Definition _get_openrouter_summary (env : Env) (w : World) (content : string)
    : string * World :=
  let w' := log_summary_call w content in
  match OPENROUTER_API_KEY env with
  | None => ("Summary unavailable: OPENROUTER_API_KEY not set in .env", w')
  | Some api_key =>
      if negb (Py.truthy api_key)
      then ("Summary unavailable: OPENROUTER_API_KEY not set in .env", w')
      else
        match openrouter env content with
        | Completion text =>
            let summary := Py.strip text in
            (if Py.truthy summary then summary
             else "Summary generation returned empty result.", w')
        | RequestException e =>
            (String.append "Summary unavailable: OpenRouter API error - " e, w')
        | KeyOrIndexError e =>
            (String.append
               "Summary unavailable: Invalid response format from OpenRouter - " e, w')
        | OtherException e =>
            (String.append "Summary unavailable: " e, w')
        end
  end.

(** [NoteSerializer.create]: the owner is the request user, the summary is
    computed for a non-empty content, and the row is inserted. *)
Definition NoteSerializer_create (env : Env) (w : World) (now user : Z)
    (validated_data : ValidatedData) : Note.t * World :=
  let content := Py.get (vd_content validated_data) "" in
  let '(summary, w1) :=
    if Py.truthy content then _get_openrouter_summary env w content else ("", w) in
  ORM.Note_create w1 now
    (Py.get (vd_title validated_data) "")
    (option_map Category.id (vd_category validated_data))
    (Py.get (vd_tags validated_data) [])
    content summary
    (Py.get (vd_reminder_date validated_data) None)
    user
    (Py.get (vd_is_favorite validated_data) false).

(** [NoteSerializer.update]: the summary is recomputed when a content is
    given and differs from the stored one; then every validated attribute
    is set on the instance, which is saved. *)
Definition NoteSerializer_update (env : Env) (w : World) (now : Z)
    (instance : Note.t) (validated_data : ValidatedData) : Note.t * World :=
  let '(summary, w1) :=
    match vd_content validated_data with
    | Some new_content =>
        if negb (String.eqb new_content (Note.content instance))
        then let '(s, w1) := _get_openrouter_summary env w new_content in (Some s, w1)
        else (vd_summary validated_data, w)
    | None => (vd_summary validated_data, w)
    end in
  let n :=
    Note.mk (Note.id instance)
            (Py.get (vd_title validated_data) (Note.title instance))
            (match vd_category validated_data with
             | Some c => Some (Category.id c)
             | None => Note.category instance
             end)
            (Py.get (vd_tags validated_data) (Note.tags instance))
            (Py.get (vd_content validated_data) (Note.content instance))
            (Py.get summary (Note.summary instance))
            (Py.get (vd_reminder_date validated_data) (Note.reminder_date instance))
            (Note.created_at instance) now
            (Note.owner instance)
            (Py.get (vd_is_favorite validated_data) (Note.is_favorite instance)) in
  (n, ORM.Note_save w1 now n).

End Serializers.

(** ** views.py *)

Module Views.
Import Serializers.

Inductive Body :=
| NoteBody (n : Note.t)                          (* serializer.data of a note *)
| ErrorsBody (errors : ErrorMap)                 (* serializer.errors *)
| StatusMessage (status message : string)        (* {'status': ..., 'message': ...} *)
| VersionBody (v : NoteVersion.t)                (* {'status': 'success', 'data': version} *)
| VersionsBody (l : list NoteVersion.t)          (* {'status': 'success', 'data': [...]} *)
| RemindersBody (todays tomorrows overdues scheduleds : list Note.t)
| NoBody.                                        (* no Response was built *)

Record Response := mkResponse {
  status_code : Z;
  body : Body
}.

Definition HTTP_404 (message : string) : Response :=
  mkResponse 404 (StatusMessage "error" message).

(** An exception no handler catches, or a view that returns nothing. *)
Definition HTTP_500 : Response := mkResponse 500 NoBody.

(** [CreateNoteView.post] *)
Definition CreateNoteView_post (env : Env) (w : World) (now user : Z) (data : NoteData)
    : Response * World :=
  match is_valid w now user false data with
  | (inr validated_data, w1) =>
      let '(n, w2) := NoteSerializer_create env w1 now user validated_data in
      (mkResponse 201 (NoteBody n), w2)
  | (inl errors, w1) => (mkResponse 400 (ErrorsBody errors), w1)
  end.

(** [NoteDetailView.put] *)
Definition NoteDetailView_put (env : Env) (w : World) (now user : Z) (pk : Z)
    (data : NoteData) : Response * World :=
  match ORM.Note_get w pk user with
  | Some note =>
      match is_valid w now user true data with
      | (inr validated_data, w1) =>
          let '(n, w2) := NoteSerializer_update env w1 now note validated_data in
          (mkResponse 200 (NoteBody n), w2)
      | (inl errors, w1) => (mkResponse 400 (ErrorsBody errors), w1)
      end
  | None => (HTTP_404 "Note not found", w)
  end.

(** [NoteDetailView.delete] *)
Definition NoteDetailView_delete (w : World) (user : Z) (pk : Z) : Response * World :=
  match ORM.Note_get w pk user with
  | Some note =>
      (mkResponse 204 (StatusMessage "success" "Note deleted successfully"),
       ORM.Note_delete w (fun n => Note.id n =? Note.id note))
  | None => (HTTP_404 "Note not found", w)
  end.

(** [category__name__icontains=category, category__owner=user] *)
Definition in_category (w : World) (user : Z) (category : string) (n : Note.t) : bool :=
  match Note.category n with
  | Some cid =>
      existsb (fun c => (Category.id c =? cid)
                        && Py.contains (Py.lower category) (Py.lower (Category.name c))
                        && (Category.owner c =? user))
              (categories w)
  | None => false
  end.

(** [tags__contains=[tag], owner=user] *)
Definition has_tag (user : Z) (tag : string) (n : Note.t) : bool :=
  existsb (String.eqb tag) (Note.tags n) && (Note.owner n =? user).

(** The two bulk deletes: when the selection is empty the view falls off
    its end without a response. *)
Definition bulk_delete (w : World) (sel : Note.t -> bool) : Response * World :=
  if existsb sel (notes w)
  then (mkResponse 204 (StatusMessage "success" "Note deleted successfully"),
        ORM.Note_delete w sel)
  else (HTTP_500, w).

(** [NoteCategorySearchView.delete] *)
Definition NoteCategorySearchView_delete (w : World) (user : Z) (category : string)
    : Response * World :=
  bulk_delete w (in_category w user category).

(** [NoteTagSearchView.delete] *)
Definition NoteTagSearchView_delete (w : World) (user : Z) (tag : string)
    : Response * World :=
  bulk_delete w (has_tag user tag).

(** [order_by('reminder_date', 'created_at')] *)
Definition by_reminder_date_created_at (a b : Note.t) : bool :=
  match Note.reminder_date a, Note.reminder_date b with
  | Some x, Some y => (x <? y) || ((x =? y) && (Note.created_at a <=? Note.created_at b))
  | Some _, None => true
  | None, Some _ => false
  | None, None => Note.created_at a <=? Note.created_at b
  end.

Definition isnull {A : Type} (x : option A) : bool :=
  match x with None => true | Some _ => false end.

(** [Note.objects.filter(owner=user, reminder_date__isnull=False)] *)
Definition notes_with_reminders (w : World) (user : Z) : list Note.t :=
  filter (fun n => (Note.owner n =? user) && negb (isnull (Note.reminder_date n))) (notes w).

(** One bucket: [notes_with_reminders.filter(reminder_date <op> day)], in the
    order of the query. *)
Definition bucket (w : World) (user : Z) (cond : Z -> bool) : list Note.t :=
  ORM.order_by by_reminder_date_created_at
    (filter (fun n => match Note.reminder_date n with
                      | Some d => cond d
                      | None => false
                      end)
            (notes_with_reminders w user)).

(** The body of [ReminderView.get] once [today] is read from the clock. *)
Definition classify (w : World) (user : Z) (today : Z)
    : list Note.t * list Note.t * list Note.t * list Note.t :=
  let tomorrow := today + 1 in
  let todays := bucket w user (fun d => d =? today) in
  let tomorrows := bucket w user (fun d => d =? tomorrow) in
  let overdues := bucket w user (fun d => d <? today) in
  let scheduleds := bucket w user (fun d => tomorrow <? d) in
  (todays, tomorrows, overdues, scheduleds).

(** [ReminderView.get] *)
Definition ReminderView_get (w : World) (now user : Z) : Response * World :=
  let '(todays, tomorrows, overdues, scheduleds) := classify w user (date_of now) in
  (mkResponse 200 (RemindersBody todays tomorrows overdues scheduleds), w).

(** [request.data] of the draft endpoint, read with [data.get(key, default)]. *)
Record DraftData := mkDraftData {
  dr_title : option string;
  dr_content : option string;
  dr_tags : option (list string);
  dr_summary : option string;
  dr_category_id : option (option Z);
  dr_reminder_date : option (option Z);
  dr_is_favorite : option bool
}.

(** [DraftView.post]; [note_id] comes from the URL ([<int:note_id>]). *)
Definition DraftView_post (w : World) (now user : Z) (note_id : Z) (data : DraftData)
    : Response * World :=
  if negb (note_id =? 0) then
    match ORM.Note_get w note_id user with
    | Some note =>
        let next_version := (ORM.versions_count w (Note.id note) + 1)%nat in
        match ORM.NoteVersion_create w now (Note.id note)
                (Py.get (dr_title data) (Note.title note))
                (Py.get (dr_content data) (Note.content note))
                (Py.get (dr_tags data) (Note.tags note))
                (Py.get (dr_summary data) (Note.summary note))
                (Py.get (dr_category_id data) (Note.category note))
                (Py.get (dr_reminder_date data) (Note.reminder_date note))
                (Py.get (dr_is_favorite data) (Note.is_favorite note))
                next_version true with
        | Some (version, w') => (mkResponse 201 (VersionBody version), w')
        | None => (HTTP_500, w)
        end
    | None => (HTTP_404 "Note not found", w)
    end
  else (mkResponse 400 (StatusMessage "error" "Note ID required for drafts"), w).

(** [order_by('-created_at')] *)
Definition newest_first (a b : NoteVersion.t) : bool :=
  NoteVersion.created_at b <=? NoteVersion.created_at a.

(** [VersionHistoryView.get] *)
Definition VersionHistoryView_get (w : World) (user : Z) (note_id : Z) : Response * World :=
  match ORM.Note_get w note_id user with
  | Some note =>
      let versions := firstn 20 (ORM.order_by newest_first (ORM.versions_of w (Note.id note))) in
      (mkResponse 200 (VersionsBody versions), w)
  | None => (HTTP_404 "Note not found", w)
  end.

(** The assignments of the restore: every versioned attribute of the note
    is overwritten from the version. *)
Definition restore_fields (note : Note.t) (version : NoteVersion.t) : Note.t :=
  Note.mk (Note.id note)
          (NoteVersion.title version)
          (NoteVersion.category version)
          (NoteVersion.tags version)
          (NoteVersion.content version)
          (NoteVersion.summary version)
          (NoteVersion.reminder_date version)
          (Note.created_at note) (Note.updated_at note)
          (Note.owner note)
          (NoteVersion.is_favorite version).

(** [VersionHistoryView.post]: restore a version.  The [create] call passes
    [note], [title], [content], [version_number] and [is_draft]; the other
    columns take the model defaults ([tags=[]], [summary=''], no category,
    no reminder date, [is_favorite=False]). *)
Definition VersionHistoryView_post (w : World) (now user : Z) (note_id : Z)
    (version_id : option Z) : Response * World :=
  match ORM.NoteVersion_get w version_id note_id user with
  | Some (version, note0) =>
      let note := restore_fields note0 version in
      let w1 := ORM.Note_save w now note in
      match ORM.NoteVersion_create w1 now (Note.id note)
              (Note.title note) (Note.content note)
              [] "" None None false
              (ORM.versions_count w1 (Note.id note) + 1)%nat false with
      | Some (_, w2) => (mkResponse 200 (StatusMessage "success" "Version restored"), w2)
      | None => (HTTP_500, w1)
      end
  | None => (HTTP_404 "Version not found", w)
  end.

End Views.

(** ** Requests and runs of the service

    The endpoints of [urls.py] that write to the three tables, and the two
    read-only ones the properties speak about.  The other endpoints (note
    list and detail, category list, the searches, the profile) read the
    tables or touch the user row only. *)

Module Service.
Import Serializers Views.

Inductive Request :=
| POST_notes (data : NoteData)
| PUT_note (pk : Z) (data : NoteData)
| DELETE_note (pk : Z)
| DELETE_by_category (category : string)
| DELETE_by_tag (tag : string)
| GET_reminders
| POST_draft (note_id : Z) (data : DraftData)
| GET_versions (note_id : Z)
| POST_restore (note_id : Z) (version_id : option Z).

(** A request in its context: who sends it, when, and what the summary
    service does at that moment. *)
Record Call := mkCall {
  user : Z;
  now : Z;
  env : Env;
  request : Request
}.

Definition handle (w : World) (c : Call) : Response * World :=
  match request c with
  | POST_notes data => CreateNoteView_post (env c) w (now c) (user c) data
  | PUT_note pk data => NoteDetailView_put (env c) w (now c) (user c) pk data
  | DELETE_note pk => NoteDetailView_delete w (user c) pk
  | DELETE_by_category category => NoteCategorySearchView_delete w (user c) category
  | DELETE_by_tag tag => NoteTagSearchView_delete w (user c) tag
  | GET_reminders => ReminderView_get w (now c) (user c)
  | POST_draft note_id data => DraftView_post w (now c) (user c) note_id data
  | GET_versions note_id => VersionHistoryView_get w (user c) note_id
  | POST_restore note_id version_id =>
      VersionHistoryView_post w (now c) (user c) note_id version_id
  end.

Definition step (w : World) (c : Call) : World := snd (handle w c).

(** The store after a sequence of calls. *)
Definition run (w : World) (calls : list Call) : World := fold_left step calls w.

End Service.

(** * Vocabulary of the properties *)

Import Serializers Views Service.

(** The primary keys of the stored notes. *)
Definition note_ids (w : World) : list Z := map Note.id (notes w).

(** The name under which [validate_category] looks a category up: the
    field trims it, the method trims and lower-cases it. *)
Definition normalised_name (name : string) : string :=
  Py.lower (Py.strip (Py.strip name)).

(** The key under which [get_or_create] looks a category up. *)
Definition category_key (c : Category.t) : string * Z :=
  (Category.name c, Category.owner c).

(** The one write of a validation: the category of the request, a
    well-formed dictionary, is new for the user and is appended under its
    normalised name; the other tables and counters are as before. *)
Definition category_added (w w1 : World) (user : Z) (data : NoteData) : Prop :=
  exists name,
    d_category data = Some (CategoryDict (Some name)) /\
    categories w1 =
      categories w ++ [Category.mk (next_category_id w) (normalised_name name) user] /\
    forall c, In c (categories w) ->
              ~ (Category.name c = normalised_name name /\ Category.owner c = user).


(** ** Well-formed stores

    What every store built by the handlers satisfies: versions point to
    existing notes; primary keys of notes are unique, positive and below
    the next key; the versions of a note are numbered 1, 2, 3, ... in the
    order of their creation; and the [unique_together] key is unique. *)

Record wf (w : World) : Prop := mk_wf {
  wf_fk : forall v, In v (versions w) -> In (NoteVersion.note v) (note_ids w);
  wf_pk : NoDup (note_ids w);
  wf_fresh : forall i, In i (note_ids w) -> i < next_note_id w;
  wf_numbering : forall note_id,
      map NoteVersion.version_number (ORM.versions_of w note_id) =
      seq 1 (ORM.versions_count w note_id);
  wf_unique : NoDup (map NoteVersion.unique_key (versions w));
  wf_positive : forall i, In i (note_ids w) -> 0 < i;
  wf_next_positive : 0 < next_note_id w
}.

(** A draft save on a note of the caller, in a well-formed store: the
    version that is appended, and the store that results. *)
Definition draft_version (w : World) (now : Z) (note : Note.t) (data : DraftData)
    : NoteVersion.t :=
  NoteVersion.mk (next_version_id w) (Note.id note)
    (Py.get (dr_title data) (Note.title note))
    (Py.get (dr_content data) (Note.content note))
    (Py.get (dr_tags data) (Note.tags note))
    (Py.get (dr_summary data) (Note.summary note))
    (Py.get (dr_category_id data) (Note.category note))
    (Py.get (dr_reminder_date data) (Note.reminder_date note))
    (Py.get (dr_is_favorite data) (Note.is_favorite note))
    (ORM.versions_count w (Note.id note) + 1)%nat now true.

(** The store with one more version row. *)
Definition add_version (w : World) (v : NoteVersion.t) : World :=
  mkWorld (notes w) (versions w ++ [v]) (categories w) (next_note_id w)
          (next_version_id w + 1) (next_category_id w) (summary_calls w).

(** A restore of a version that the query finds, in a well-formed store:
    the note row that is saved, the version that is appended, and the
    store that results. *)
Definition restored_version (w : World) (now : Z) (note0 : Note.t)
    (version : NoteVersion.t) : NoteVersion.t :=
  NoteVersion.mk (next_version_id w) (Note.id note0)
    (NoteVersion.title version) (NoteVersion.content version)
    [] "" None None false
    (ORM.versions_count w (Note.id note0) + 1)%nat now false.

(** The store after that restore. *)
Definition restored_world (w : World) (now : Z) (note0 : Note.t)
    (version : NoteVersion.t) : World :=
  add_version (ORM.Note_save w now (restore_fields note0 version))
              (restored_version w now note0 version).

(** The greatest version number of a note ([0] when it has none). *)
Definition max_version_number (w : World) (note_id : Z) : nat :=
  fold_right Nat.max 0%nat (map NoteVersion.version_number (ORM.versions_of w note_id)).

(** ** Counting the version-creating calls of a run *)

(** [tally event w calls]: how many calls of the run from [w] satisfy
    [event], each judged in the store it is made in. *)
Fixpoint tally (event : World -> Call -> bool) (w : World) (calls : list Call) : nat :=
  match calls with
  | [] => 0
  | c :: calls' => (if event w c then 1 else 0) + tally event (step w c) calls'
  end.

(** A draft save on the note that is answered 201. *)
Definition is_draft_save (note_id : Z) (w : World) (c : Call) : bool :=
  match request c with
  | POST_draft nid _ => (nid =? note_id) && (status_code (fst (handle w c)) =? 201)
  | _ => false
  end.

(** A restore on the note that is answered 200. *)
Definition is_restore (note_id : Z) (w : World) (c : Call) : bool :=
  match request c with
  | POST_restore nid _ => (nid =? note_id) && (status_code (fst (handle w c)) =? 200)
  | _ => false
  end.

(** An update of the note that is answered 200 and leaves it with another
    content than it had. *)
Definition is_content_update (note_id : Z) (w : World) (c : Call) : bool :=
  match request c with
  | PUT_note pk _ =>
      (pk =? note_id) && (status_code (fst (handle w c)) =? 200) &&
      match ORM.Note_get w pk (user c), ORM.Note_get (step w c) pk (user c) with
      | Some before, Some after =>
          negb (String.eqb (Note.content before) (Note.content after))
      | _, _ => false
      end
  | _ => false
  end.

Definition event_count (b : bool) : nat := if b then 1 else 0.

(** ** Results of an ordered query

    [ORDER BY] fixes the order of the rows up to rows with equal sort
    keys: any list of the rows that is sorted for the key is a possible
    result.  [ORM.order_by] computes one of them. *)

Definition ordered_result {A : Type} (leb : A -> A -> bool) (rows result : list A) : Prop :=
  Permutation rows result /\ StronglySorted (fun a b => leb a b = true) result.

(** The responses that [VersionHistoryView.get] may give, over all
    possible results of its query. *)
Definition VersionHistoryView_get_allows (w : World) (user note_id : Z)
    (r : Response * World) : Prop :=
  match ORM.Note_get w note_id user with
  | Some note =>
      exists result,
        ordered_result newest_first (ORM.versions_of w (Note.id note)) result /\
        r = (mkResponse 200 (VersionsBody (firstn 20 result)), w)
  | None => r = (HTTP_404 "Note not found", w)
  end.

(** Newest first. *)
Definition newer_or_equal (a b : NoteVersion.t) : Prop :=
  NoteVersion.created_at b <= NoteVersion.created_at a.

(** Newest first, and among versions of one instant the greater version
    number first. *)
Definition newer_then_greater_number (a b : NoteVersion.t) : Prop :=
  NoteVersion.created_at b < NoteVersion.created_at a \/
  (NoteVersion.created_at b = NoteVersion.created_at a /\
   (NoteVersion.version_number b <= NoteVersion.version_number a)%nat).

(** ** Sample data for the concrete runs *)

Module Sample.

Definition alice : Z := 1.
Definition bob : Z := 2.

(** 2025-03-20 as a day number, and noon of that day on the clock. *)
Definition day : Z := 20167.
Definition noon : Z := day * 86400 + 43200.

(** The summary service answers. *)
Definition env_up : Env :=
  mkEnv (Some "sk-key") (fun content => Completion (String.append "About: " content)).

(** The summary service times out. *)
Definition env_down : Env :=
  mkEnv (Some "sk-key") (fun _ => RequestException "Read timed out.").

Definition groceries : NoteData :=
  mkNoteData (Some "Groceries") (Some (CategoryDict (Some " Home ")))
             (Some ["food"]) (Some "milk") None (Some (Some day)) (Some true).

Definition no_fields : DraftData := mkDraftData None None None None None None None.

Definition only_content (c : string) : NoteData :=
  mkNoteData None None None (Some c) None None None.

Definition only_title (t : string) : NoteData :=
  mkNoteData (Some t) None None None None None None.

Definition create : Call := mkCall alice noon env_up (POST_notes groceries).
Definition edit : Call := mkCall alice (noon + 60) env_up (PUT_note 1 (only_content "milk, eggs")).
Definition draft : Call := mkCall alice (noon + 120) env_up (POST_draft 1 no_fields).
Definition restore : Call := mkCall alice (noon + 180) env_up (POST_restore 1 (Some 1)).



(** The note as [create] stores it. *)
Definition stored_note : Note.t :=
  Note.mk 1 "Groceries" (Some 1) ["food"] "milk" "About: milk" (Some day) noon noon
          alice true.


(** The version a first draft save stores. *)
Definition first_draft : NoteVersion.t :=
  NoteVersion.mk 1 1 "Groceries" "milk" ["food"] "About: milk" (Some 1) (Some day) true
                 1 (noon + 120) true.

(** The version a second draft save stores. *)
Definition second_draft : NoteVersion.t :=
  NoteVersion.mk 2 1 "Groceries" "milk" ["food"] "About: milk" (Some 1) (Some day) true
                 2 (noon + 120) true.

End Sample.

(** ** Failure of the summary service *)

(** The helper cannot obtain a completion: the credential is missing or
    empty, or the request raises (network error, timeout, HTTP error,
    malformed response). *)
Definition summarizer_fails (env : Env) (content : string) : bool :=
  match OPENROUTER_API_KEY env with
  | None => true
  | Some api_key =>
      negb (Py.truthy api_key) ||
      match openrouter env content with
      | Completion _ => false
      | _ => true
      end
  end.

(** The placeholder summaries all start in the same way. *)
Definition is_placeholder (summary : string) : bool :=
  String.prefix "Summary unavailable: " summary.

(** * More of the application *)

(** ** views.py: the read-only note and category endpoints

    They read the store and build a response; the store is not passed
    back because none of them writes. *)

Module ReadViews.

Inductive Data :=
| NoteList (l : list Note.t)            (* {'status': 'success', 'data': [...]} *)
| NoteItem (n : Note.t)                 (* {'status': 'success', 'data': {...}} *)
| CategoryNames (l : list string)       (* CategorySerializer: fields = ['name'] *)
| Message (status message : string).    (* {'status': ..., 'message': ...} *)



(** [NoteCategorySearchView.get]; [filter] never raises [DoesNotExist]. *)
Definition NoteCategorySearchView_get (w : World) (user : Z) (category : string)
    : Z * Data :=
  (200, NoteList (filter (Views.in_category w user category) (notes w))).

(** [CategoryView.get] *)
Definition CategoryView_get (w : World) (user : Z) : Z * Data :=
  let all_categories := filter (fun c => Category.owner c =? user) (categories w) in
  if negb (existsb (fun _ => true) all_categories)
  then (204, Message "empty" "No categories found.")
  else (200, CategoryNames (map Category.name all_categories)).

(** [order_by('-updated_at')] *)
Definition recently_updated (a b : Note.t) : bool :=
  Note.updated_at b <=? Note.updated_at a.

(** [SearchByTagView.get]: the tag of the URL is lower-cased, the stored
    tags are compared as they are. *)
Definition SearchByTagView_get (w : World) (user : Z) (tag_name : string) : Z * Data :=
  (200, NoteList (ORM.order_by recently_updated
                    (filter (Views.has_tag user (Py.lower tag_name)) (notes w)))).

End ReadViews.

(** ** tasks.py *)

Module Tasks.






End Tasks.

(** * Vocabulary of the further properties *)

(** What every store built by the handlers satisfies besides [wf]:
    primary keys of versions are unique, positive and below the next
    key. *)
Record version_keys_fresh (w : World) : Prop := mk_version_keys_fresh {
  vk_unique : NoDup (map NoteVersion.id (versions w));
  vk_range : forall v, In v (versions w) ->
                       0 < NoteVersion.id v /\ NoteVersion.id v < next_version_id w;
  vk_next : 0 < next_version_id w
}.

(** The call is not the bulk delete by category. *)
Definition not_delete_by_category (c : Call) : bool :=
  match request c with
  | DELETE_by_category _ => false
  | _ => true
  end.

(** The notes that do not belong to [user]. *)
Definition notes_of_others (w : World) (user : Z) : list Note.t :=
  filter (fun n => negb (Note.owner n =? user)) (notes w).

(** The categories that do not belong to [user]. *)
Definition categories_of_others (w : World) (user : Z) : list Category.t :=
  filter (fun c => negb (Category.owner c =? user)) (categories w).

(** The string is empty or starts with a character that is not white
    space. *)
Definition starts_clean (s : string) : Prop :=
  match s with
  | EmptyString => True
  | String c _ => Py.isspace c = false
  end.

(** A category name as [validate_category] stores it: trimmed, in lower
    case, not empty, of at most 50 characters. *)
Definition normalised (s : string) : Prop :=
  Py.strip s = s /\ Py.lower s = s /\ Py.truthy s = true /\ Py.len s <= 50.

(** The store with one more category row. *)
Definition add_category (w : World) (k : Category.t) : World :=
  mkWorld (notes w) (versions w) (categories w ++ [k]) (next_note_id w)
          (next_version_id w) (next_category_id w + 1) (summary_calls w).

(** What every store built by the handlers satisfies for its categories:
    no user has two categories of one name, every name is normalised, and
    the primary keys are unique, positive and below the next key. *)
Record categories_ok (w : World) : Prop := mk_categories_ok {
  cat_keys : NoDup (map category_key (categories w));
  cat_names : forall c, In c (categories w) -> normalised (Category.name c);
  cat_ids : NoDup (map Category.id (categories w));
  cat_range : forall c, In c (categories w) ->
                        0 < Category.id c /\ Category.id c < next_category_id w;
  cat_next : 0 < next_category_id w
}.

(** The category field of [is_valid]: the nested serializer, then
    [validate_category]. *)
Definition category_field (w : World) (user : Z) (partial : bool) (data : NoteData)
    : Field Category.t * World :=
  match run_validation partial true (CategorySerializer partial) (d_category data) with
  | Valid v => validate_category w user v
  | Invalid m => (Invalid m, w)
  | Skip => (Skip, w)
  end.

(** The reminder date field of [is_valid]. *)
Definition reminder_date_field (now : Z) (partial : bool) (data : NoteData)
    : Field (option Z) :=
  match run_validation partial false (@Valid (option Z)) (d_reminder_date data) with
  | Valid v => validate_reminder_date now v
  | r => r
  end.

(** A text as a [CharField] with the given bound accepts and returns it. *)
Definition clean_text (max_length : Z) (s : string) : Prop :=
  s <> "" /\ Py.len s <= max_length.

(** What the two bulk deletes do with the notes selected by [sel]. *)
Definition bulk_delete_spec (w : World) (sel : Note.t -> bool) (r : Response * World)
    : Prop :=
  (existsb sel (notes w) = false -> r = (HTTP_500, w)) /\
  (existsb sel (notes w) = true ->
     status_code (fst r) = 204 /\
     notes (snd r) = filter (fun n => negb (sel n)) (notes w) /\
     categories (snd r) = categories w /\
     (forall n, In n (notes w) -> sel n = false ->
        In n (notes (snd r)) /\
        ORM.versions_of (snd r) (Note.id n) = ORM.versions_of w (Note.id n)) /\
     (forall n, In n (notes w) -> sel n = true ->
        ~ In (Note.id n) (note_ids (snd r)) /\
        ORM.versions_of (snd r) (Note.id n) = [])).

(** [order_by('-updated_at')] as a relation. *)
Definition updated_later_or_equal (a b : Note.t) : Prop :=
  Note.updated_at b <= Note.updated_at a.



(** ** authentication.py

    The user table with the columns the authentication reads and writes,
    and its three [unique=True] constraints ([username], [email],
    [firebase_uid]); the widths of the columns are not enforced.  [verify]
    stands for [auth.verify_id_token]: what the Firebase SDK answers for a
    token, [None] when it raises. *)

Module Authentication.

Record User := mkUser {
  id : Z;
  username : option string;
  email : string;
  firebase_uid : option string
}.

Record Users := mkUsers {
  rows : list User;
  next_id : Z
}.

(** The decoded token: its 'uid' entry, if it has one, and
    [decoded_token.get('email')]. *)
Record DecodedToken := mkDecoded {
  uid : option string;
  token_email : option string
}.

Inductive Outcome :=
| NotAuthenticated              (* [return None] *)
| AuthenticationFailed          (* [raise AuthenticationFailed(...)] *)
| IntegrityError                (* a unique constraint refuses the write *)
| Authenticated (user : User).  (* [return (user, decoded_token)] *)

(** [s[n:]] *)
Fixpoint drop (n : nat) (s : string) : string :=
  match n, s with
  | O, _ => s
  | S n', String _ s' => drop n' s'
  | S _, EmptyString => EmptyString
  end.

(** The text up to the first space. *)
Fixpoint until_space (s : string) : string :=
  match s with
  | EmptyString => EmptyString
  | String c s' => if Ascii.eqb c " " then EmptyString else String c (until_space s')
  end.

(** [auth_header.split(' ')[1]] for a header that starts with 'Bearer '. *)
Definition bearer_token (auth_header : string) : string :=
  until_space (drop 7 auth_header).

Definition option_eqb (a b : option string) : bool :=
  match a, b with
  | Some x, Some y => String.eqb x y
  | None, None => true
  | _, _ => false
  end.


(** [User.objects.get(firebase_uid=...)]; the unique constraint leaves at
    most one such row. *)
Definition get (us : Users) (fuid : string) : option User :=
  find (fun u => option_eqb (firebase_uid u) (Some fuid)) (rows us).

(** [User.objects.create(firebase_uid=..., email=..., username=...)]:
    refused when the e-mail address or the user name is taken. *)
Definition create (us : Users) (fuid e name : string) : option (User * Users) :=
  if existsb (fun u => String.eqb (email u) e) (rows us)
     || existsb (fun u => option_eqb (username u) (Some name)) (rows us)
     || existsb (fun u => option_eqb (firebase_uid u) (Some fuid)) (rows us)
  then None
  else
    let user := mkUser (next_id us) (Some name) e (Some fuid) in
    Some (user, mkUsers (rows us ++ [user]) (next_id us + 1)).

(** [get_or_create]: the lookup, else the insert; when the insert is
    refused the lookup is tried again, fails again, and the
    [IntegrityError] is raised. *)
Definition get_or_create (us : Users) (fuid e name : string) : option (User * Users) :=
  match get us fuid with
  | Some user => Some (user, us)
  | None => create us fuid e name
  end.

Definition set_email (u : User) (e : string) : User :=
  mkUser (id u) (username u) e (firebase_uid u).

(** [user.email = e; user.save(update_fields=['email'])]: an UPDATE of the
    row with the user's primary key, refused when another row has [e]. *)
Definition save_email (us : Users) (user : User) (e : string) : option Users :=
  if existsb (fun u => String.eqb (email u) e && negb (id u =? id user)) (rows us)
  then None
  else Some (mkUsers
               (map (fun u => if id u =? id user then set_email u e else u) (rows us))
               (next_id us)).

Definition starts_with_Bearer (auth_header : string) : bool :=
  String.prefix "Bearer " auth_header.

(** [email or f'{firebase_uid}@firebase.local'] *)
Definition default_email (e : option string) (fuid : string) : string :=
  match e with
  | Some a => if Py.truthy a then a else fuid ++ "@firebase.local"
  | None => fuid ++ "@firebase.local"
  end.

(** [email and user.email != email] *)
Definition email_changed (e : option string) (user : User) : option string :=
  match e with
  | Some a => if Py.truthy a && negb (String.eqb (email user) a) then Some a else None
  | None => None
  end.

(** [FirebaseAuthentication.authenticate]; [auth_header] is
    [request.headers.get('Authorization')]. *)
Definition authenticate (verify : string -> option DecodedToken) (us : Users)
    (auth_header : option string) : Outcome * Users :=
  match auth_header with
  | None => (NotAuthenticated, us)
  | Some h =>
    if negb (Py.truthy h) || negb (starts_with_Bearer h) then (NotAuthenticated, us)
    else
      let token := bearer_token h in
      match verify token with
      | None => (AuthenticationFailed, us)
      | Some decoded_token =>
        match uid decoded_token with
        | None => (AuthenticationFailed, us)
        | Some fuid =>
          let e := token_email decoded_token in
          match get_or_create us fuid (default_email e fuid) (substring 0 30 fuid) with
          | None => (IntegrityError, us)
          | Some (user, us1) =>
            match email_changed e user with
            | Some a =>
              match save_email us1 user a with
              | None => (IntegrityError, us1)
              | Some us2 => (Authenticated (set_email user a), us2)
              end
            | None => (Authenticated user, us1)
            end
          end
        end
      end
  end.

End Authentication.

(** The non-NULL values of a nullable column. *)
Definition taken (f : Authentication.User -> option string)
    (l : list Authentication.User) : list string :=
  flat_map (fun u => match f u with Some x => [x] | None => [] end) l.

(** What the user table's primary key and [unique=True] columns promise;
    NULLs do not collide. *)
Record users_ok (us : Authentication.Users) : Prop := {
  user_ids_unique : NoDup (map Authentication.id (Authentication.rows us));
  user_ids_fresh : forall u, In u (Authentication.rows us) ->
                     Authentication.id u < Authentication.next_id us;
  emails_unique : NoDup (map Authentication.email (Authentication.rows us));
  usernames_unique : NoDup (taken Authentication.username (Authentication.rows us));
  firebase_uids_unique : NoDup (taken Authentication.firebase_uid (Authentication.rows us))
}.

(** A token with no space in it. *)
Fixpoint space_free (s : string) : bool :=
  match s with
  | EmptyString => true
  | String c s' => negb (Ascii.eqb c " ") && space_free s'
  end.

(** Sample user tables and Firebase answers. *)
Module AuthSample.

Definition no_users : Authentication.Users := Authentication.mkUsers [] 1.

Definition alice_before : Authentication.User :=
  Authentication.mkUser 1 (Some "uid-alice") "alice@old.example" (Some "uid-alice").

Definition alice_user : Authentication.User :=
  Authentication.mkUser 1 (Some "uid-alice") "alice@example.org" (Some "uid-alice").

Definition registered : Authentication.User :=
  Authentication.mkUser 2 (Some "carol") "carol@example.org" None.

Definition users_before : Authentication.Users :=
  Authentication.mkUsers [alice_before; registered] 3.

Definition users_after : Authentication.Users :=
  Authentication.mkUsers [alice_user; registered] 3.

(** Firebase knows two tokens: Alice's, with her address, and Carol's,
    whose address is already registered under another account. *)
Definition firebase (token : string) : option Authentication.DecodedToken :=
  if String.eqb token "tok-alice"
  then Some (Authentication.mkDecoded (Some "uid-alice") (Some "alice@example.org"))
  else if String.eqb token "tok-carol"
  then Some (Authentication.mkDecoded (Some "uid-carol") (Some "carol@example.org"))
  else None.

Definition alice_header : option string := Some "Bearer tok-alice".

End AuthSample.
(** * Properties *)

(** ** Lists and queries *)

Section ListFacts.
Context {A : Type}.

Lemma insert_row_perm (leb : A -> A -> bool) (x : A) (l : list A) :
  Permutation (ORM.insert_row leb x l) (x :: l).
Proof.
  induction l as [|y l IH]; simpl.
  - apply Permutation_refl.
  - destruct (leb x y).
    + apply Permutation_refl.
    + apply Permutation_trans with (y :: x :: l).
      * now apply perm_skip.
      * apply perm_swap.
Qed.

Lemma order_by_perm (leb : A -> A -> bool) (rows : list A) :
  Permutation (ORM.order_by leb rows) rows.
Proof.
  induction rows as [|x rows IH]; simpl.
  - apply perm_nil.
  - apply Permutation_trans with (x :: ORM.order_by leb rows).
    + apply insert_row_perm.
    + now apply perm_skip.
Qed.

Lemma order_by_In (leb : A -> A -> bool) (rows : list A) (x : A) :
  In x (ORM.order_by leb rows) <-> In x rows.
Proof.
  split; apply Permutation_in;
    [ apply order_by_perm | apply Permutation_sym, order_by_perm ].
Qed.

(** Four filters whose conditions are exclusive and cover the list split
    it, multiplicities included. *)
Lemma filter4_perm (p1 p2 p3 p4 : A -> bool) (l : list A) :
  (forall x, In x l ->
     (p1 x = true /\ p2 x = false /\ p3 x = false /\ p4 x = false) \/
     (p1 x = false /\ p2 x = true /\ p3 x = false /\ p4 x = false) \/
     (p1 x = false /\ p2 x = false /\ p3 x = true /\ p4 x = false) \/
     (p1 x = false /\ p2 x = false /\ p3 x = false /\ p4 x = true)) ->
  Permutation (filter p1 l ++ filter p2 l ++ filter p3 l ++ filter p4 l) l.
Proof.
  induction l as [|x l IH]; intros H; simpl.
  - apply perm_nil.
  - assert (IH' := IH (fun y Hy => H y (or_intror Hy))).
    destruct (H x (or_introl eq_refl))
      as [(-> & -> & -> & ->)|[(-> & -> & -> & ->)|[(-> & -> & -> & ->)|(-> & -> & -> & ->)]]].
    + simpl. now apply perm_skip.
    + apply Permutation_sym, Permutation_cons_app, Permutation_sym, IH'.
    + rewrite app_assoc.
      apply Permutation_sym, Permutation_cons_app, Permutation_sym.
      rewrite <- app_assoc. exact IH'.
    + rewrite 2 app_assoc.
      apply Permutation_sym, Permutation_cons_app, Permutation_sym.
      rewrite <- 2 app_assoc. exact IH'.
Qed.

Lemma NoDup_snoc (l : list A) (a : A) :
  NoDup l -> ~ In a l -> NoDup (l ++ [a]).
Proof.
  intros Hl Ha. apply NoDup_app; trivial.
  - constructor; [intros [] | constructor].
  - intros x Hx [<-|[]]. contradiction.
Qed.
End ListFacts.

(** ** Reminder buckets *)

Lemma in_notes_with_reminders (w : World) (user : Z) (n : Note.t) :
  In n (notes_with_reminders w user) <->
  In n (notes w) /\ Note.owner n = user /\ Note.reminder_date n <> None.
Proof.
  unfold notes_with_reminders. rewrite filter_In, andb_true_iff, Z.eqb_eq.
  destruct (Note.reminder_date n); simpl; intuition congruence.
Qed.

Lemma in_bucket (w : World) (user : Z) (cond : Z -> bool) (n : Note.t) :
  In n (bucket w user cond) <->
  In n (notes w) /\ Note.owner n = user /\
  exists d, Note.reminder_date n = Some d /\ cond d = true.
Proof.
  unfold bucket. rewrite order_by_In, filter_In, in_notes_with_reminders.
  destruct (Note.reminder_date n) as [d|].
  - split.
    + intros [(Hin & Ho & _) Hc]. repeat split; trivial. now exists d.
    + intros (Hin & Ho & d' & Hd & Hc). injection Hd as <-.
      repeat split; trivial. discriminate.
  - split.
    + intros [_ Hc]. discriminate.
    + intros (_ & _ & d & Hd & _). discriminate.
Qed.

Lemma in_bucket_eq (w : World) (user day : Z) (n : Note.t) :
  In n (bucket w user (fun d => d =? day)) <->
  In n (notes w) /\ Note.owner n = user /\ Note.reminder_date n = Some day.
Proof.
  rewrite in_bucket. split.
  - intros (Hin & Ho & d & Hd & Hc). apply Z.eqb_eq in Hc. subst d. auto.
  - intros (Hin & Ho & Hd). repeat split; trivial.
    exists day. split; trivial. apply Z.eqb_refl.
Qed.

Lemma in_bucket_lt (w : World) (user day : Z) (n : Note.t) :
  In n (bucket w user (fun d => d <? day)) <->
  In n (notes w) /\ Note.owner n = user /\
  exists d, Note.reminder_date n = Some d /\ d < day.
Proof.
  rewrite in_bucket. split.
  - intros (Hin & Ho & d & Hd & Hc). apply Z.ltb_lt in Hc. eauto.
  - intros (Hin & Ho & d & Hd & Hc). apply Z.ltb_lt in Hc. eauto.
Qed.

Lemma in_bucket_gt (w : World) (user day : Z) (n : Note.t) :
  In n (bucket w user (fun d => day <? d)) <->
  In n (notes w) /\ Note.owner n = user /\
  exists d, Note.reminder_date n = Some d /\ d > day.
Proof.
  rewrite in_bucket. split.
  - intros (Hin & Ho & d & Hd & Hc). apply Z.ltb_lt in Hc.
    repeat split; trivial. exists d. split; trivial. lia.
  - intros (Hin & Ho & d & Hd & Hc).
    repeat split; trivial. exists d. split; trivial. apply Z.ltb_lt. lia.
Qed.

(** The date conditions of two different buckets exclude each other. *)
Ltac bucket_clash :=
  let n := fresh "n" in
  intros [H1 H2];
  first [apply in_bucket_eq in H1 | apply in_bucket_lt in H1 | apply in_bucket_gt in H1];
  first [apply in_bucket_eq in H2 | apply in_bucket_lt in H2 | apply in_bucket_gt in H2];
  repeat match goal with
         | H : _ /\ _ |- _ => destruct H
         | H : exists _, _ |- _ => destruct H
         end;
  repeat match goal with
         | H : Note.reminder_date ?n = Some _, H' : Note.reminder_date ?n = Some _ |- _ =>
             rewrite H in H'; injection H' as H'
         end;
  lia.

(** C2. For every owner and reference date, [classify] puts each of the
    owner's notes that has a reminder date in exactly one bucket: today iff
    the date is the reference date, tomorrow iff it is the next day, overdue
    iff it is earlier, scheduled iff it is later than the next day.  Notes
    without a reminder date and notes of other owners are in no bucket, the
    buckets are pairwise disjoint, and together they hold exactly the
    owner's notes with a reminder date (each as often as the table does). *)
Theorem classify_partition (w : World) (user today : Z) :
  let '(todays, tomorrows, overdues, scheduleds) := classify w user today in
  (forall n, In n todays <->
     In n (notes w) /\ Note.owner n = user /\ Note.reminder_date n = Some today) /\
  (forall n, In n tomorrows <->
     In n (notes w) /\ Note.owner n = user /\ Note.reminder_date n = Some (today + 1)) /\
  (forall n, In n overdues <->
     In n (notes w) /\ Note.owner n = user /\
     exists d, Note.reminder_date n = Some d /\ d < today) /\
  (forall n, In n scheduleds <->
     In n (notes w) /\ Note.owner n = user /\
     exists d, Note.reminder_date n = Some d /\ d > today + 1) /\
  (forall n, Note.reminder_date n = None \/ Note.owner n <> user ->
     ~ In n (todays ++ tomorrows ++ overdues ++ scheduleds)) /\
  (forall n, ~ (In n todays /\ In n tomorrows) /\ ~ (In n todays /\ In n overdues) /\
             ~ (In n todays /\ In n scheduleds) /\ ~ (In n tomorrows /\ In n overdues) /\
             ~ (In n tomorrows /\ In n scheduleds) /\ ~ (In n overdues /\ In n scheduleds)) /\
  (forall n, In n (todays ++ tomorrows ++ overdues ++ scheduleds) <->
     In n (notes w) /\ Note.owner n = user /\ Note.reminder_date n <> None) /\
  Permutation (todays ++ tomorrows ++ overdues ++ scheduleds) (notes_with_reminders w user).
Proof.
  unfold classify; cbv zeta.
  assert (Hperm :
    Permutation (bucket w user (fun d => d =? today) ++
                 bucket w user (fun d => d =? today + 1) ++
                 bucket w user (fun d => d <? today) ++
                 bucket w user (fun d => today + 1 <? d))
                (notes_with_reminders w user)).
  { unfold bucket.
    eapply Permutation_trans.
    - repeat apply Permutation_app; apply order_by_perm.
    - apply filter4_perm. intros n Hn.
      apply in_notes_with_reminders in Hn. destruct Hn as (_ & _ & Hd).
      destruct (Note.reminder_date n) as [d|]; [|congruence].
      rewrite !Z.eqb_eq, !Z.eqb_neq, !Z.ltb_lt, !Z.ltb_ge. lia. }
  assert (Hunion : forall n,
    In n (bucket w user (fun d => d =? today) ++
          bucket w user (fun d => d =? today + 1) ++
          bucket w user (fun d => d <? today) ++
          bucket w user (fun d => today + 1 <? d)) <->
    In n (notes w) /\ Note.owner n = user /\ Note.reminder_date n <> None).
  { intros n. rewrite <- in_notes_with_reminders.
    split; apply Permutation_in; [exact Hperm | apply Permutation_sym, Hperm]. }
  split; [intros n; apply in_bucket_eq|].
  split; [intros n; apply in_bucket_eq|].
  split; [intros n; apply in_bucket_lt|].
  split; [intros n; apply in_bucket_gt|].
  split.
  { intros n Hn Hin. apply Hunion in Hin. destruct Hin as (_ & Ho & Hd).
    destruct Hn; contradiction. }
  split.
  { intros n. repeat apply conj; bucket_clash. }
  split; [exact Hunion | exact Hperm].
Qed.

(** ** Frame facts of the ORM primitives and of validation *)

Lemma Note_get_Some (w : World) (pk user : Z) (n : Note.t) :
  ORM.Note_get w pk user = Some n ->
  In n (notes w) /\ Note.id n = pk /\ Note.owner n = user.
Proof.
  unfold ORM.Note_get. intros H. apply find_some in H.
  destruct H as [Hin H]. apply andb_true_iff in H. destruct H as [H1 H2].
  apply Z.eqb_eq in H1, H2. auto.
Qed.

Lemma Note_get_None (w : World) (pk user : Z) :
  ORM.Note_get w pk user = None ->
  forall n, In n (notes w) -> ~ (Note.id n = pk /\ Note.owner n = user).
Proof.
  unfold ORM.Note_get. intros H n Hin [H1 H2].
  apply (find_none _ _ H) in Hin. simpl in Hin.
  rewrite H1, H2, !Z.eqb_refl in Hin. discriminate.
Qed.

Lemma Note_save_ids (w : World) (now : Z) (n : Note.t) :
  note_ids (ORM.Note_save w now n) = note_ids w.
Proof.
  unfold note_ids, ORM.Note_save. simpl. rewrite map_map.
  apply map_ext_in. intros m _.
  destruct (Note.id m =? Note.id n) eqn:E; trivial.
  apply Z.eqb_eq in E. now rewrite E.
Qed.

Lemma get_or_create_frame (w : World) (name : string) (user : Z) :
  let '(c, w1) := ORM.Category_get_or_create w name user in
  notes w1 = notes w /\ versions w1 = versions w /\
  next_note_id w1 = next_note_id w /\ next_version_id w1 = next_version_id w /\
  summary_calls w1 = summary_calls w /\
  Category.name c = name /\ Category.owner c = user /\ In c (categories w1) /\
  (w1 = w \/ categories w1 = categories w ++ [c]).
Proof.
  unfold ORM.Category_get_or_create.
  destruct (find _ (categories w)) as [c|] eqn:E.
  - apply find_some in E. destruct E as [Hin E].
    apply andb_true_iff in E. destruct E as [E1 E2].
    apply String.eqb_eq in E1. apply Z.eqb_eq in E2. repeat split; auto.
  - simpl. repeat split; auto. apply in_or_app. right. now left.
Qed.

(** Validation writes nothing but, at most, one category of the user. *)
Lemma is_valid_frame (w : World) (now user : Z) (partial : bool) (data : NoteData) :
  let w1 := snd (is_valid w now user partial data) in
  notes w1 = notes w /\ versions w1 = versions w /\
  next_note_id w1 = next_note_id w /\ next_version_id w1 = next_version_id w /\
  summary_calls w1 = summary_calls w /\
  (w1 = w \/ category_added w w1 user data).
Proof.
  unfold is_valid, category_added.
  destruct (d_category data) as [[[name|]|]|]; simpl.
  - unfold CategorySerializer, CharField.
    destruct (negb (Py.truthy (Py.strip name))); simpl.
    + destruct (error "title" _ ++ _); simpl; auto 10.
    + destruct (50 <? Py.len (Py.strip name)); simpl.
      * destruct (error "title" _ ++ _); simpl; auto 10.
      * unfold ORM.Category_get_or_create.
        destruct (find _ (categories w)) as [c|] eqn:F; simpl.
        -- destruct (error "title" _ ++ _); simpl; auto 10.
        -- assert (Hfresh : forall c, In c (categories w) ->
                     ~ (Category.name c = normalised_name name /\ Category.owner c = user)).
           { intros c Hc [E1 E2]. apply (find_none _ _ F) in Hc. simpl in Hc.
             unfold normalised_name in E1.
             rewrite E1, E2, String.eqb_refl, Z.eqb_refl in Hc. discriminate. }
           destruct (error "title" _ ++ _); simpl;
             (repeat split; trivial; right; exists name; repeat split; trivial).
  - destruct partial; simpl; destruct (error "title" _ ++ _); simpl; auto 10.
  - destruct (error "title" _ ++ _); simpl; auto 10.
  - destruct partial; simpl; destruct (error "title" _ ++ _); simpl; auto 10.
Qed.

Lemma summary_frame (env : Env) (w : World) (content : string) :
  let w1 := snd (_get_openrouter_summary env w content) in
  notes w1 = notes w /\ versions w1 = versions w /\ categories w1 = categories w /\
  next_note_id w1 = next_note_id w /\ next_version_id w1 = next_version_id w /\
  next_category_id w1 = next_category_id w /\
  summary_calls w1 = summary_calls w ++ [content].
Proof.
  unfold _get_openrouter_summary.
  destruct (OPENROUTER_API_KEY env) as [k|]; simpl; auto 10.
  destruct (negb (Py.truthy k)); simpl; auto 10.
  destruct (openrouter env content); simpl; auto 10.
Qed.

Lemma NoteSerializer_create_frame (env : Env) (w : World) (now user : Z)
    (vd : ValidatedData) :
  let '(n, w1) := NoteSerializer_create env w now user vd in
  notes w1 = notes w ++ [n] /\ versions w1 = versions w /\
  categories w1 = categories w /\
  Note.id n = next_note_id w /\ next_note_id w1 = next_note_id w + 1 /\
  Note.owner n = user.
Proof.
  unfold NoteSerializer_create.
  destruct (Py.truthy (Py.get (vd_content vd) "")).
  - pose proof (summary_frame env w (Py.get (vd_content vd) "")) as H.
    destruct (_get_openrouter_summary env w (Py.get (vd_content vd) "")) as [s w1].
    simpl in H. destruct H as (H1 & H2 & H3 & H4 & _).
    simpl. rewrite H1, H2, H3, H4. auto 10.
  - simpl. auto 10.
Qed.

Lemma NoteSerializer_update_frame (env : Env) (w : World) (now : Z)
    (instance : Note.t) (vd : ValidatedData) :
  let '(n, w1) := NoteSerializer_update env w now instance vd in
  note_ids w1 = note_ids w /\ versions w1 = versions w /\
  categories w1 = categories w /\ next_note_id w1 = next_note_id w /\
  Note.id n = Note.id instance /\ Note.owner n = Note.owner instance.
Proof.
  unfold NoteSerializer_update.
  destruct (vd_content vd) as [c|].
  - destruct (negb (c =? Note.content instance)%string).
    + pose proof (summary_frame env w c) as H.
      destruct (_get_openrouter_summary env w c) as [s w1].
      simpl in H. destruct H as (H1 & H2 & H3 & H4 & _).
      rewrite Note_save_ids. unfold note_ids. simpl. rewrite H1, H2, H3, H4. auto 10.
    + rewrite Note_save_ids. simpl. auto 10.
  - rewrite Note_save_ids. simpl. auto 10.
Qed.

Lemma wf_empty : wf empty_world.
Proof.
  constructor; simpl; try constructor; try contradiction; lia.
Qed.

(** [wf] only reads the note keys, the versions and the next note key. *)
Lemma wf_frame (w w' : World) :
  note_ids w' = note_ids w -> versions w' = versions w ->
  next_note_id w' = next_note_id w -> wf w -> wf w'.
Proof.
  intros Hn Hv Hx [H1 H2 H3 H4 H5 H6 H7].
  constructor; unfold ORM.versions_count, ORM.versions_of in *;
    rewrite ?Hn, ?Hv, ?Hx; trivial.
Qed.

Section MapFilter.
Context {A B : Type} (f : A -> B).

Lemma NoDup_map_filter (p : A -> bool) (l : list A) :
  NoDup (map f l) -> NoDup (map f (filter p l)).
Proof.
  induction l as [|x l IH]; simpl; intros H; trivial.
  inversion H as [|? ? Hx Hl]; subst.
  destruct (p x); simpl; auto.
  constructor; auto.
  intros Hin. apply Hx. apply in_map_iff in Hin.
  destruct Hin as (y & Hy & Hin). apply filter_In in Hin.
  apply in_map_iff. exists y. tauto.
Qed.

Lemma NoDup_map_inj (l : list A) (a b : A) :
  NoDup (map f l) -> In a l -> In b l -> f a = f b -> a = b.
Proof.
  induction l as [|x l IH]; simpl; intros H Ha Hb E; [contradiction|].
  inversion H as [|? ? Hx Hl]; subst.
  destruct Ha as [->|Ha], Hb as [->|Hb]; trivial.
  - exfalso. apply Hx. rewrite E. now apply in_map.
  - exfalso. apply Hx. rewrite <- E. now apply in_map.
  - auto.
Qed.
End MapFilter.

Lemma wf_Note_create (w : World) (now : Z) (title : string) (category : option Z)
    (tags : list string) (content summary : string) (reminder_date : option Z)
    (owner : Z) (is_favorite : bool) :
  wf w ->
  wf (snd (ORM.Note_create w now title category tags content summary
                           reminder_date owner is_favorite)).
Proof.
  intros [H1 H2 H3 H4 H5 H6 H7].
  constructor; unfold note_ids in *; simpl; rewrite ?map_app; simpl.
  - intros v Hv. apply in_or_app. left. auto.
  - apply NoDup_snoc; trivial.
    intros Hin. apply H3 in Hin. lia.
  - intros i Hi. apply in_app_or in Hi. destruct Hi as [Hi|[<-|[]]].
    + apply H3 in Hi. lia.
    + lia.
  - exact H4.
  - exact H5.
  - intros i Hi. apply in_app_or in Hi. destruct Hi as [Hi|[<-|[]]]; auto.
  - lia.
Qed.

(** Deleting a selection of notes leaves, for each note key, all of its
    versions or none. *)
Lemma versions_of_Note_delete (w : World) (sel : Note.t -> bool) (note_id : Z) :
  ORM.versions_of (ORM.Note_delete w sel) note_id =
  if existsb (fun n => Note.id n =? note_id) (filter sel (notes w))
  then [] else ORM.versions_of w note_id.
Proof.
  unfold ORM.versions_of, ORM.Note_delete. simpl.
  induction (versions w) as [|v l IH]; simpl.
  - now destruct (existsb _ _).
  - destruct (NoteVersion.note v =? note_id) eqn:E.
    + apply Z.eqb_eq in E. rewrite E.
      destruct (existsb _ (filter sel (notes w))) eqn:X; simpl.
      * exact IH.
      * rewrite E, Z.eqb_refl. now f_equal.
    + destruct (negb _); simpl; rewrite ?E; exact IH.
Qed.

Lemma wf_Note_delete (w : World) (sel : Note.t -> bool) :
  wf w -> wf (ORM.Note_delete w sel).
Proof.
  intros [H1 H2 H3 H4 H5 H6 H7]. constructor.
  - unfold note_ids, ORM.Note_delete. simpl. intros v Hv.
    apply filter_In in Hv. destruct Hv as [Hv Hk].
    apply H1, in_map_iff in Hv. destruct Hv as (n & Hn & Hin).
    apply in_map_iff. exists n. split; trivial.
    apply filter_In. split; trivial.
    destruct (sel n) eqn:S; trivial.
    apply negb_true_iff in Hk.
    assert (X : existsb (fun m => Note.id m =? NoteVersion.note v)
                        (filter sel (notes w)) = true).
    { apply existsb_exists. exists n. split.
      - apply filter_In. auto.
      - now apply Z.eqb_eq. }
    congruence.
  - unfold note_ids, ORM.Note_delete. simpl. now apply NoDup_map_filter.
  - unfold note_ids, ORM.Note_delete. simpl. intros i Hi. apply H3.
    apply in_map_iff in Hi. destruct Hi as (n & Hn & Hin).
    apply filter_In in Hin. apply in_map_iff. exists n. tauto.
  - intros note_id. unfold ORM.versions_count.
    rewrite versions_of_Note_delete.
    destruct (existsb _ _); [reflexivity | apply H4].
  - unfold ORM.Note_delete. simpl. now apply NoDup_map_filter.
  - unfold note_ids, ORM.Note_delete. simpl. intros i Hi. apply H6.
    apply in_map_iff in Hi. destruct Hi as (n & Hn & Hin).
    apply filter_In in Hin. apply in_map_iff. exists n. tauto.
  - exact H7.
Qed.

Lemma versions_of_snoc (w' w : World) (v : NoteVersion.t) (note_id : Z) :
  versions w' = versions w ++ [v] ->
  ORM.versions_of w' note_id =
  ORM.versions_of w note_id ++ (if NoteVersion.note v =? note_id then [v] else []).
Proof.
  unfold ORM.versions_of. intros ->. rewrite filter_app. simpl.
  now destruct (NoteVersion.note v =? note_id).
Qed.

(** In a well-formed store the next number by count is free: [create]
    does not hit the uniqueness constraint. *)
Lemma next_version_free (w : World) (note_id : Z) :
  wf w ->
  existsb (fun v => ORM.key_eqb (NoteVersion.unique_key v)
                                (note_id, (ORM.versions_count w note_id + 1)%nat))
          (versions w) = false.
Proof.
  intros Hw. destruct (existsb _ _) eqn:E; trivial. exfalso.
  apply existsb_exists in E. destruct E as (v & Hv & Hk).
  unfold ORM.key_eqb, NoteVersion.unique_key in Hk. simpl in Hk.
  apply andb_true_iff in Hk. destruct Hk as [K1 K2].
  apply Nat.eqb_eq in K2.
  assert (Hin : In v (ORM.versions_of w note_id)).
  { unfold ORM.versions_of. apply filter_In. auto. }
  apply (in_map NoteVersion.version_number) in Hin.
  rewrite (wf_numbering w Hw), K2 in Hin.
  apply in_seq in Hin. lia.
Qed.

Lemma NoteVersion_create_wf (w : World) (now note : Z) (title content : string)
    (tags : list string) (summary : string) (category reminder_date : option Z)
    (is_favorite is_draft : bool) :
  wf w -> In note (note_ids w) ->
  exists v w',
    ORM.NoteVersion_create w now note title content tags summary category
      reminder_date is_favorite (ORM.versions_count w note + 1)%nat is_draft
    = Some (v, w') /\
    v = NoteVersion.mk (next_version_id w) note title content tags summary category
          reminder_date is_favorite (ORM.versions_count w note + 1)%nat now is_draft /\
    w' = mkWorld (notes w) (versions w ++ [v]) (categories w) (next_note_id w)
           (next_version_id w + 1) (next_category_id w) (summary_calls w) /\
    wf w'.
Proof.
  intros Hw Hnote. unfold ORM.NoteVersion_create.
  pose proof (next_version_free w note Hw) as Hfree. rewrite Hfree.
  eexists. eexists. split; [reflexivity|]. split; [reflexivity|].
  split; [reflexivity|].
  destruct Hw as [H1 H2 H3 H4 H5 H6 H7]. constructor; trivial.
  - simpl. intros v Hv. apply in_app_or in Hv. destruct Hv as [Hv|[<-|[]]]; auto.
  - intros note_id. unfold ORM.versions_count.
    erewrite (versions_of_snoc _ w); [|reflexivity]. cbn [NoteVersion.note].
    destruct (note =? note_id) eqn:E.
    + apply Z.eqb_eq in E. subst note_id.
      rewrite map_app, length_app, H4, seq_app. simpl.
      unfold ORM.versions_count. do 2 f_equal. lia.
    + rewrite app_nil_r. apply H4.
  - simpl. rewrite map_app. simpl. apply NoDup_snoc; trivial.
    intros Hin. apply in_map_iff in Hin. destruct Hin as (v & Hk & Hv).
    assert (X : existsb (fun v => ORM.key_eqb (NoteVersion.unique_key v)
                  (note, (ORM.versions_count w note + 1)%nat)) (versions w) = true).
    { apply existsb_exists. exists v. split; trivial.
      rewrite Hk. unfold ORM.key_eqb. simpl. now rewrite Z.eqb_refl, Nat.eqb_refl. }
    congruence.
Qed.

(** ** The handlers keep the store well formed *)

Lemma Note_get_in_ids (w : World) (pk user : Z) (n : Note.t) :
  ORM.Note_get w pk user = Some n -> In pk (note_ids w).
Proof.
  intros H. apply Note_get_Some in H. destruct H as (Hin & <- & _).
  unfold note_ids. now apply in_map.
Qed.

Lemma wf_Note_save (w : World) (now : Z) (n : Note.t) :
  wf w -> wf (ORM.Note_save w now n).
Proof. apply wf_frame; trivial. apply Note_save_ids. Qed.

Lemma wf_is_valid (w : World) (now user : Z) (partial : bool) (data : NoteData) :
  wf w -> wf (snd (is_valid w now user partial data)).
Proof.
  pose proof (is_valid_frame w now user partial data) as H. simpl in H.
  destruct H as (H1 & H2 & H3 & _).
  apply wf_frame; trivial. unfold note_ids. now rewrite H1.
Qed.

Lemma wf_summary (env : Env) (w : World) (content : string) :
  wf w -> wf (snd (_get_openrouter_summary env w content)).
Proof.
  pose proof (summary_frame env w content) as H. simpl in H.
  destruct H as (H1 & H2 & _ & H3 & _).
  apply wf_frame; trivial. unfold note_ids. now rewrite H1.
Qed.

Lemma wf_NoteSerializer_create (env : Env) (w : World) (now user : Z)
    (vd : ValidatedData) :
  wf w -> wf (snd (NoteSerializer_create env w now user vd)).
Proof.
  intros Hw. unfold NoteSerializer_create.
  destruct (Py.truthy (Py.get (vd_content vd) "")).
  - pose proof (wf_summary env w (Py.get (vd_content vd) "") Hw) as H.
    destruct (_get_openrouter_summary env w (Py.get (vd_content vd) "")) as [s w1].
    now apply wf_Note_create.
  - now apply wf_Note_create.
Qed.

Lemma wf_NoteSerializer_update (env : Env) (w : World) (now : Z)
    (instance : Note.t) (vd : ValidatedData) :
  wf w -> wf (snd (NoteSerializer_update env w now instance vd)).
Proof.
  intros Hw.
  pose proof (NoteSerializer_update_frame env w now instance vd) as H.
  destruct (NoteSerializer_update env w now instance vd) as [n w1].
  destruct H as (H1 & H2 & _ & H3 & _). simpl.
  now apply (wf_frame w).
Qed.

Lemma DraftView_post_ok (w : World) (now user note_id : Z) (data : DraftData)
    (note : Note.t) :
  wf w -> note_id <> 0 -> ORM.Note_get w note_id user = Some note ->
  DraftView_post w now user note_id data =
    (mkResponse 201 (VersionBody (draft_version w now note data)),
     add_version w (draft_version w now note data)) /\
  wf (add_version w (draft_version w now note data)).
Proof.
  intros Hw Hz Hget. unfold DraftView_post.
  apply Z.eqb_neq in Hz. rewrite Hz, Hget. simpl.
  assert (Hid : In (Note.id note) (note_ids w)).
  { destruct (Note_get_Some _ _ _ _ Hget) as (_ & -> & _).
    eapply Note_get_in_ids; eauto. }
  destruct (NoteVersion_create_wf w now (Note.id note)
              (Py.get (dr_title data) (Note.title note))
              (Py.get (dr_content data) (Note.content note))
              (Py.get (dr_tags data) (Note.tags note))
              (Py.get (dr_summary data) (Note.summary note))
              (Py.get (dr_category_id data) (Note.category note))
              (Py.get (dr_reminder_date data) (Note.reminder_date note))
              (Py.get (dr_is_favorite data) (Note.is_favorite note)) true Hw Hid)
    as (v & w' & E & -> & -> & Hw').
  rewrite E. split; [reflexivity | exact Hw'].
Qed.

Lemma VersionHistoryView_post_ok (w : World) (now user note_id : Z)
    (version_id : option Z) (version : NoteVersion.t) (note0 : Note.t) :
  wf w -> ORM.NoteVersion_get w version_id note_id user = Some (version, note0) ->
  VersionHistoryView_post w now user note_id version_id =
    (mkResponse 200 (StatusMessage "success" "Version restored"),
     restored_world w now note0 version) /\
  wf (restored_world w now note0 version).
Proof.
  intros Hw Hget. unfold VersionHistoryView_post. rewrite Hget.
  assert (Hnote : ORM.Note_get w note_id user = Some note0).
  { unfold ORM.NoteVersion_get in Hget.
    destruct version_id as [vid|]; [|discriminate].
    destruct (find _ (versions w)); [|discriminate].
    destruct (ORM.Note_get w note_id user); [|discriminate].
    injection Hget as _ <-. reflexivity. }
  set (note := restore_fields note0 version).
  set (w1 := ORM.Note_save w now note).
  assert (Hw1 : wf w1) by now apply wf_Note_save.
  assert (Hid : In (Note.id note) (note_ids w1)).
  { unfold w1. rewrite Note_save_ids. simpl.
    destruct (Note_get_Some _ _ _ _ Hnote) as (_ & -> & _).
    eapply Note_get_in_ids; eauto. }
  destruct (NoteVersion_create_wf w1 now (Note.id note) (Note.title note)
              (Note.content note) [] "" None None false false Hw1 Hid)
    as (v & w' & E & -> & -> & Hw').
  rewrite E. split; [reflexivity | exact Hw'].
Qed.

Lemma wf_bulk_delete (w : World) (sel : Note.t -> bool) :
  wf w -> wf (snd (bulk_delete w sel)).
Proof.
  intros Hw. unfold bulk_delete. destruct (existsb sel (notes w)); simpl; trivial.
  now apply wf_Note_delete.
Qed.

Theorem wf_step (w : World) (c : Call) : wf w -> wf (step w c).
Proof.
  intros Hw. unfold step, handle. destruct (request c) as [data|pk data|pk|cat|tag| |nid data|nid|nid vid].
  - unfold CreateNoteView_post.
    pose proof (wf_is_valid w (now c) (user c) false data Hw) as H1.
    destruct (is_valid w (now c) (user c) false data) as [[errs|vd] w1]; simpl in *; trivial.
    pose proof (wf_NoteSerializer_create (env c) w1 (now c) (user c) vd H1) as H2.
    now destruct (NoteSerializer_create (env c) w1 (now c) (user c) vd).
  - unfold NoteDetailView_put.
    destruct (ORM.Note_get w pk (user c)) as [note|]; simpl; trivial.
    pose proof (wf_is_valid w (now c) (user c) true data Hw) as H1.
    destruct (is_valid w (now c) (user c) true data) as [[errs|vd] w1]; simpl in *; trivial.
    pose proof (wf_NoteSerializer_update (env c) w1 (now c) note vd H1) as H2.
    now destruct (NoteSerializer_update (env c) w1 (now c) note vd).
  - unfold NoteDetailView_delete.
    destruct (ORM.Note_get w pk (user c)) as [note|]; simpl; trivial.
    now apply wf_Note_delete.
  - now apply wf_bulk_delete.
  - now apply wf_bulk_delete.
  - unfold ReminderView_get. now destruct (classify w (user c) (date_of (now c))) as [[[? ?] ?] ?].
  - destruct (Z.eq_dec nid 0) as [->|Hz].
    + exact Hw.
    + destruct (ORM.Note_get w nid (user c)) as [note|] eqn:G.
      * destruct (DraftView_post_ok w (now c) (user c) nid data note Hw Hz G) as [E Hw'].
        now rewrite E.
      * unfold DraftView_post. apply Z.eqb_neq in Hz. now rewrite Hz, G.
  - unfold VersionHistoryView_get. now destruct (ORM.Note_get w nid (user c)).
  - destruct (ORM.NoteVersion_get w vid nid (user c)) as [[version note0]|] eqn:G.
    + destruct (VersionHistoryView_post_ok w (now c) (user c) nid vid version note0 Hw G)
        as [E Hw'].
      now rewrite E.
    + unfold VersionHistoryView_post. now rewrite G.
Qed.

Theorem wf_run (calls : list Call) (w : World) : wf w -> wf (run w calls).
Proof.
  revert w. induction calls as [|c calls IH]; intros w Hw; simpl; trivial.
  apply IH. now apply wf_step.
Qed.

Lemma max_seq (k : nat) : fold_right Nat.max 0%nat (seq 1 k) = k.
Proof.
  assert (H : forall s, fold_right Nat.max 0%nat (seq (S s) k) = if (k =? 0)%nat then 0%nat else (s + k)%nat).
  { induction k as [|k IH]; intros s; simpl; trivial.
    rewrite IH. destruct k; simpl; lia. }
  rewrite H. destruct k; simpl; lia.
Qed.

(** In a well-formed store the count of a note's versions is their
    greatest number. *)
Lemma count_is_max (w : World) (note_id : Z) :
  wf w -> ORM.versions_count w note_id = max_version_number w note_id.
Proof.
  intros Hw. unfold max_version_number. rewrite (wf_numbering w Hw).
  symmetry. apply max_seq.
Qed.

(** ** How one call changes the note keys and the versions *)

Lemma versions_count_add_version (w : World) (v : NoteVersion.t) (note_id : Z) :
  ORM.versions_count (add_version w v) note_id =
  (ORM.versions_count w note_id + if (NoteVersion.note v =? note_id)%Z then 1 else 0)%nat.
Proof.
  unfold ORM.versions_count.
  rewrite (versions_of_snoc (add_version w v) w v note_id eq_refl), length_app.
  now destruct (NoteVersion.note v =? note_id).
Qed.

Lemma NoteVersion_get_Some (w : World) (version_id : option Z) (note_id user : Z)
    (version : NoteVersion.t) (note0 : Note.t) :
  ORM.NoteVersion_get w version_id note_id user = Some (version, note0) ->
  ORM.Note_get w note_id user = Some note0 /\
  In version (versions w) /\ NoteVersion.note version = note_id /\
  version_id = Some (NoteVersion.id version).
Proof.
  unfold ORM.NoteVersion_get. intros H.
  destruct version_id as [vid|]; [|discriminate].
  destruct (find _ (versions w)) as [v|] eqn:F; [|discriminate].
  destruct (ORM.Note_get w note_id user) as [n|]; [|discriminate].
  injection H as -> ->. apply find_some in F. destruct F as [Hin F].
  apply andb_true_iff in F. destruct F as [F1 F2].
  apply Z.eqb_eq in F1, F2. subst. auto.
Qed.

(** The versions after one call: none is new, or exactly one is appended
    and carries the count of its note's versions plus one. *)
Lemma step_versions (w : World) (c : Call) :
  wf w ->
  (forall v, In v (versions (step w c)) -> In v (versions w)) \/
  (exists v, versions (step w c) = versions w ++ [v] /\
             In (NoteVersion.note v) (note_ids w) /\
             NoteVersion.created_at v = now c /\
             NoteVersion.version_number v =
               (ORM.versions_count w (NoteVersion.note v) + 1)%nat).
Proof.
  intros Hw. destruct c as [u t e r]. unfold step, handle. simpl.
  destruct r as [data|pk data|pk|cat|tag| |nid data|nid|nid vid].
  - left. unfold CreateNoteView_post.
    pose proof (is_valid_frame w t u false data) as H1. simpl in H1.
    destruct (is_valid w t u false data) as [[errs|vd] w1]; simpl in *.
    + destruct H1 as (_ & -> & _). trivial.
    + pose proof (NoteSerializer_create_frame e w1 t u vd) as H2.
      destruct (NoteSerializer_create e w1 t u vd) as [n w2]. simpl.
      destruct H1 as (_ & <- & _). destruct H2 as (_ & -> & _). trivial.
  - left. unfold NoteDetailView_put.
    destruct (ORM.Note_get w pk u) as [note|]; simpl; trivial.
    pose proof (is_valid_frame w t u true data) as H1. simpl in H1.
    destruct (is_valid w t u true data) as [[errs|vd] w1]; simpl in *.
    + destruct H1 as (_ & -> & _). trivial.
    + pose proof (NoteSerializer_update_frame e w1 t note vd) as H2.
      destruct (NoteSerializer_update e w1 t note vd) as [n w2]. simpl.
      destruct H1 as (_ & <- & _). destruct H2 as (_ & -> & _). trivial.
  - left. unfold NoteDetailView_delete.
    destruct (ORM.Note_get w pk u) as [note|]; simpl; trivial.
    intros v Hv. now apply filter_In in Hv.
  - left. unfold NoteCategorySearchView_delete, bulk_delete.
    destruct (existsb _ (notes w)); simpl; trivial.
    intros v Hv. now apply filter_In in Hv.
  - left. unfold NoteTagSearchView_delete, bulk_delete.
    destruct (existsb _ (notes w)); simpl; trivial.
    intros v Hv. now apply filter_In in Hv.
  - left. unfold ReminderView_get.
    now destruct (classify w u (date_of t)) as [[[? ?] ?] ?].
  - destruct (Z.eq_dec nid 0) as [->|Hz]; [now left|].
    destruct (ORM.Note_get w nid u) as [note|] eqn:G.
    + right. destruct (DraftView_post_ok w t u nid data note Hw Hz G) as [E _].
      rewrite E. simpl. eexists. split; [reflexivity|]. simpl.
      destruct (Note_get_Some _ _ _ _ G) as (_ & -> & _).
      repeat split. eapply Note_get_in_ids; eauto.
    + left. unfold DraftView_post. apply Z.eqb_neq in Hz. now rewrite Hz, G.
  - left. unfold VersionHistoryView_get. now destruct (ORM.Note_get w nid u).
  - destruct (ORM.NoteVersion_get w vid nid u) as [[version note0]|] eqn:G.
    + right. destruct (VersionHistoryView_post_ok w t u nid vid version note0 Hw G) as [E _].
      rewrite E. simpl. eexists. split; [reflexivity|]. simpl.
      destruct (NoteVersion_get_Some _ _ _ _ _ _ G) as (G' & _).
      destruct (Note_get_Some _ _ _ _ G') as (_ & -> & _).
      repeat split. eapply Note_get_in_ids; eauto.
    + left. unfold VersionHistoryView_post. now rewrite G.
Qed.

(** Note keys after one call: an old key, or the next key; the next key
    never decreases. *)
Lemma step_note_ids (w : World) (c : Call) :
  (forall i, In i (note_ids (step w c)) -> In i (note_ids w) \/ i = next_note_id w) /\
  next_note_id w <= next_note_id (step w c).
Proof.
  destruct c as [u t e r]. unfold step, handle. simpl.
  destruct r as [data|pk data|pk|cat|tag| |nid data|nid|nid vid].
  - unfold CreateNoteView_post.
    pose proof (is_valid_frame w t u false data) as H1. simpl in H1.
    destruct (is_valid w t u false data) as [[errs|vd] w1]; simpl in *.
    + destruct H1 as (H1 & _ & -> & _). unfold note_ids. rewrite H1. split; [auto|lia].
    + pose proof (NoteSerializer_create_frame e w1 t u vd) as H2.
      destruct (NoteSerializer_create e w1 t u vd) as [n w2]. simpl.
      destruct H1 as (H1 & _ & H1' & _). destruct H2 as (H2 & _ & _ & Hn & -> & _).
      unfold note_ids. rewrite H2, H1, map_app. simpl. split; [|lia].
      intros i Hi. apply in_app_or in Hi. destruct Hi as [Hi|[<-|[]]]; auto.
      right. congruence.
  - unfold NoteDetailView_put.
    destruct (ORM.Note_get w pk u) as [note|]; simpl; [|split; [auto|lia]].
    pose proof (is_valid_frame w t u true data) as H1. simpl in H1.
    destruct (is_valid w t u true data) as [[errs|vd] w1]; simpl in *.
    + destruct H1 as (H1 & _ & -> & _). unfold note_ids. rewrite H1. split; [auto|lia].
    + pose proof (NoteSerializer_update_frame e w1 t note vd) as H2.
      destruct (NoteSerializer_update e w1 t note vd) as [n w2]. simpl.
      destruct H1 as (H1 & _ & H1' & _). destruct H2 as (H2 & _ & _ & -> & _).
      rewrite H2. unfold note_ids. rewrite H1. split; [auto|lia].
  - unfold NoteDetailView_delete.
    destruct (ORM.Note_get w pk u) as [note|]; simpl; (split; [|lia]); auto.
    intros i Hi. left. unfold note_ids in *. simpl in Hi.
    apply in_map_iff in Hi. destruct Hi as (n & Hn & Hin).
    apply filter_In in Hin. apply in_map_iff. exists n. tauto.
  - unfold NoteCategorySearchView_delete, bulk_delete.
    destruct (existsb _ (notes w)); simpl; (split; [|lia]); auto.
    intros i Hi. left. unfold note_ids in *. simpl in Hi.
    apply in_map_iff in Hi. destruct Hi as (n & Hn & Hin).
    apply filter_In in Hin. apply in_map_iff. exists n. tauto.
  - unfold NoteTagSearchView_delete, bulk_delete.
    destruct (existsb _ (notes w)); simpl; (split; [|lia]); auto.
    intros i Hi. left. unfold note_ids in *. simpl in Hi.
    apply in_map_iff in Hi. destruct Hi as (n & Hn & Hin).
    apply filter_In in Hin. apply in_map_iff. exists n. tauto.
  - unfold ReminderView_get.
    destruct (classify w u (date_of t)) as [[[? ?] ?] ?]. simpl. split; [auto|lia].
  - unfold DraftView_post. destruct (negb (nid =? 0)); simpl; [|split; [auto|lia]].
    destruct (ORM.Note_get w nid u) as [note|]; simpl; [|split; [auto|lia]].
    unfold ORM.NoteVersion_create.
    destruct (existsb _ (versions w)); simpl; split; auto; lia.
  - unfold VersionHistoryView_get.
    destruct (ORM.Note_get w nid u); simpl; split; auto; lia.
  - unfold VersionHistoryView_post.
    destruct (ORM.NoteVersion_get w vid nid u) as [[version note0]|];
      simpl; [|split; [auto|lia]].
    unfold ORM.NoteVersion_create.
    pose proof (Note_save_ids w t (restore_fields note0 version)) as S.
    destruct (existsb _ _); simpl; (split; [|lia]); intros i Hi; left;
      rewrite <- S; exact Hi.
Qed.

(** A key below the next key that is not in the table stays out of it:
    primary keys are not reused. *)
Lemma absent_forever (calls : list Call) (w : World) (i : Z) :
  ~ In i (note_ids w) -> i < next_note_id w -> ~ In i (note_ids (run w calls)).
Proof.
  revert w. induction calls as [|c calls IH]; intros w Hi Hlt; simpl; trivial.
  destruct (step_note_ids w c) as [H1 H2].
  apply IH.
  - intros Hin. apply H1 in Hin. destruct Hin as [Hin| ->]; [contradiction|lia].
  - lia.
Qed.

Lemma step_count (w : World) (c : Call) (note_id : Z) :
  wf w ->
  ORM.versions_count (step w c) note_id =
    (ORM.versions_count w note_id
     + event_count (is_draft_save note_id w c)
     + event_count (is_restore note_id w c))%nat \/
  (~ In note_id (note_ids (step w c)) /\ note_id < next_note_id (step w c)).
Proof.
  intros Hw.
  assert (Hdel : forall sel,
    ORM.versions_count (ORM.Note_delete w sel) note_id = ORM.versions_count w note_id \/
    (~ In note_id (note_ids (ORM.Note_delete w sel)) /\
     note_id < next_note_id (ORM.Note_delete w sel))).
  { intros sel. unfold ORM.versions_count. rewrite versions_of_Note_delete.
    destruct (existsb _ (filter sel (notes w))) eqn:X; [right|now left].
    apply existsb_exists in X. destruct X as (m & Hm & Hid).
    apply filter_In in Hm. destruct Hm as [Hm Hsel]. apply Z.eqb_eq in Hid.
    split.
    - unfold note_ids, ORM.Note_delete. simpl. intros Hin.
      apply in_map_iff in Hin. destruct Hin as (m' & Hid' & Hm').
      apply filter_In in Hm'. destruct Hm' as [Hm' Hsel'].
      assert (m = m').
      { apply (NoDup_map_inj Note.id (notes w)); trivial.
        - apply (wf_pk w Hw).
        - congruence. }
      subst m'. rewrite Hsel in Hsel'. discriminate.
    - simpl. apply (wf_fresh w Hw). subst note_id. unfold note_ids. now apply in_map. }
  assert (Hsame : forall w', versions w' = versions w ->
                    ORM.versions_count w' note_id = ORM.versions_count w note_id).
  { intros w' E. unfold ORM.versions_count, ORM.versions_of. now rewrite E. }
  destruct c as [u t e r]. unfold is_draft_save, is_restore, step, handle. simpl.
  destruct r as [data|pk data|pk|cat|tag| |nid data|nid|nid vid]; simpl.
  - left. rewrite !Nat.add_0_r. apply Hsame. unfold CreateNoteView_post.
    pose proof (is_valid_frame w t u false data) as H1. simpl in H1.
    destruct (is_valid w t u false data) as [[errs|vd] w1]; simpl in *.
    + tauto.
    + pose proof (NoteSerializer_create_frame e w1 t u vd) as H2.
      destruct (NoteSerializer_create e w1 t u vd) as [n w2]. simpl.
      destruct H1 as (_ & <- & _). tauto.
  - left. rewrite !Nat.add_0_r. apply Hsame. unfold NoteDetailView_put.
    destruct (ORM.Note_get w pk u) as [note|]; simpl; trivial.
    pose proof (is_valid_frame w t u true data) as H1. simpl in H1.
    destruct (is_valid w t u true data) as [[errs|vd] w1]; simpl in *.
    + tauto.
    + pose proof (NoteSerializer_update_frame e w1 t note vd) as H2.
      destruct (NoteSerializer_update e w1 t note vd) as [n w2]. simpl.
      destruct H1 as (_ & <- & _). tauto.
  - rewrite !Nat.add_0_r. unfold NoteDetailView_delete.
    destruct (ORM.Note_get w pk u) as [note|]; simpl; [apply Hdel | now left].
  - rewrite !Nat.add_0_r. unfold NoteCategorySearchView_delete, bulk_delete.
    destruct (existsb _ (notes w)); simpl; [apply Hdel | now left].
  - rewrite !Nat.add_0_r. unfold NoteTagSearchView_delete, bulk_delete.
    destruct (existsb _ (notes w)); simpl; [apply Hdel | now left].
  - left. rewrite !Nat.add_0_r. unfold ReminderView_get.
    now destruct (classify w u (date_of t)) as [[[? ?] ?] ?].
  - left. rewrite Nat.add_0_r.
    destruct (Z.eq_dec nid 0) as [->|Hz].
    { simpl. rewrite andb_false_r. simpl. lia. }
    destruct (ORM.Note_get w nid u) as [note|] eqn:G.
    + destruct (DraftView_post_ok w t u nid data note Hw Hz G) as [E _].
      rewrite E. simpl. rewrite versions_count_add_version. simpl.
      destruct (Note_get_Some _ _ _ _ G) as (_ & -> & _).
      rewrite andb_true_r. reflexivity.
    + unfold DraftView_post. apply Z.eqb_neq in Hz. rewrite Hz, G. simpl.
      rewrite andb_false_r. simpl. lia.
  - left. rewrite !Nat.add_0_r. unfold VersionHistoryView_get.
    now destruct (ORM.Note_get w nid u).
  - left.
    destruct (ORM.NoteVersion_get w vid nid u) as [[version note0]|] eqn:G.
    + destruct (VersionHistoryView_post_ok w t u nid vid version note0 Hw G) as [E _].
      rewrite E. simpl. unfold restored_world.
      rewrite versions_count_add_version. simpl.
      destruct (NoteVersion_get_Some _ _ _ _ _ _ G) as (G' & _).
      destruct (Note_get_Some _ _ _ _ G') as (_ & -> & _).
      rewrite andb_true_r.
      rewrite (Hsame (ORM.Note_save w t (restore_fields note0 version)) eq_refl).
      unfold event_count. lia.
    + unfold VersionHistoryView_post. rewrite G. simpl.
      rewrite andb_false_r. simpl. lia.
Qed.

Lemma run_count (calls : list Call) (w : World) (note_id : Z) :
  wf w -> In note_id (note_ids (run w calls)) ->
  ORM.versions_count (run w calls) note_id =
    (ORM.versions_count w note_id
     + tally (is_draft_save note_id) w calls
     + tally (is_restore note_id) w calls)%nat.
Proof.
  revert w. induction calls as [|c calls IH]; intros w Hw Hin; simpl.
  - lia.
  - simpl in Hin. rewrite (IH (step w c) (wf_step w c Hw) Hin).
    destruct (step_count w c note_id Hw) as [E|[Habs Hlt]].
    + rewrite E. unfold event_count. lia.
    + exfalso. exact (absent_forever calls (step w c) note_id Habs Hlt Hin).
Qed.

(** ** Version numbers in every reachable store *)

(** C8. After every sequence of calls (creates, updates, deletes, draft
    saves, restores, by any users) from the empty store, the pairs (note,
    version number) of the stored versions are pairwise distinct; the
    versions of each note, in the order of their creation, are numbered 1,
    2, 3, ...; and a version stored by one more call carries the greatest
    number of its note so far plus one, which is greater than every number
    the note already has. *)
Theorem version_numbers_unique_and_increasing (calls : list Call) :
  let w := run empty_world calls in
  NoDup (map NoteVersion.unique_key (versions w)) /\
  (forall note_id,
     map NoteVersion.version_number (ORM.versions_of w note_id) =
     seq 1 (ORM.versions_count w note_id)) /\
  (forall c v,
     In v (versions (step w c)) -> ~ In v (versions w) ->
     NoteVersion.version_number v = S (max_version_number w (NoteVersion.note v)) /\
     forall v', In v' (ORM.versions_of w (NoteVersion.note v)) ->
                (NoteVersion.version_number v' < NoteVersion.version_number v)%nat).
Proof.
  intros w. assert (Hw : wf w) by (apply wf_run, wf_empty).
  split; [apply (wf_unique w Hw)|]. split; [apply (wf_numbering w Hw)|].
  intros c v Hin Hnew.
  destruct (step_versions w c Hw) as [Hold|(v0 & E & _ & _ & Hnum)].
  - elim Hnew. now apply Hold.
  - rewrite E in Hin. apply in_app_or in Hin.
    destruct Hin as [Hin|[<-|[]]]; [contradiction|].
    rewrite Hnum, (count_is_max w _ Hw). split; [lia|].
    intros v' Hv'. apply (in_map NoteVersion.version_number) in Hv'.
    rewrite (wf_numbering w Hw), (count_is_max w _ Hw) in Hv'.
    apply in_seq in Hv'. lia.
Qed.

(** The second draft of a note is numbered 2, one more than the first. *)
Lemma version_numbers_witness :
  let w := run empty_world [Sample.create; Sample.draft] in
  In Sample.second_draft (versions (step w Sample.draft)) /\
  ~ In Sample.second_draft (versions w) /\
  NoteVersion.version_number Sample.second_draft =
    S (max_version_number w (NoteVersion.note Sample.second_draft)).
Proof.
  intros w.
  assert (Hin : In Sample.second_draft (versions (step w Sample.draft)))
    by (vm_compute; auto).
  assert (Hnew : ~ In Sample.second_draft (versions w))
    by (vm_compute; intros [H|[]]; discriminate H).
  split; [exact Hin|]. split; [exact Hnew|].
  destruct (version_numbers_unique_and_increasing [Sample.create; Sample.draft])
    as (_ & _ & H).
  exact (proj1 (H Sample.draft Sample.second_draft Hin Hnew)).
Defined.

(** ** Number of versions of a note *)

(** C4 (as the code has it). Creating a note and updating a note store no
    version.  After every sequence of calls from the empty store, a note
    that exists has as many versions as there were successful draft saves
    plus successful restores on it: content-changing updates do not
    count. *)
Theorem version_count_is_drafts_plus_restores :
  (forall env w now user data,
     versions (snd (CreateNoteView_post env w now user data)) = versions w) /\
  (forall env w now user pk data,
     versions (snd (NoteDetailView_put env w now user pk data)) = versions w) /\
  (forall calls note_id,
     In note_id (note_ids (run empty_world calls)) ->
     ORM.versions_count (run empty_world calls) note_id =
       (tally (is_draft_save note_id) empty_world calls
        + tally (is_restore note_id) empty_world calls)%nat).
Proof.
  split; [|split].
  - intros e w t u data. unfold CreateNoteView_post.
    pose proof (is_valid_frame w t u false data) as H1. simpl in H1.
    destruct (is_valid w t u false data) as [[errs|vd] w1]; simpl in *.
    + tauto.
    + pose proof (NoteSerializer_create_frame e w1 t u vd) as H2.
      destruct (NoteSerializer_create e w1 t u vd) as [n w2]. simpl.
      destruct H1 as (_ & <- & _). tauto.
  - intros e w t u pk data. unfold NoteDetailView_put.
    destruct (ORM.Note_get w pk u) as [note|]; simpl; trivial.
    pose proof (is_valid_frame w t u true data) as H1. simpl in H1.
    destruct (is_valid w t u true data) as [[errs|vd] w1]; simpl in *.
    + tauto.
    + pose proof (NoteSerializer_update_frame e w1 t note vd) as H2.
      destruct (NoteSerializer_update e w1 t note vd) as [n w2]. simpl.
      destruct H1 as (_ & <- & _). tauto.
  - intros calls note_id Hin.
    rewrite (run_count calls empty_world note_id wf_empty Hin). reflexivity.
Qed.

(** A note that was created, edited, saved as a draft and restored has two
    versions. *)
Lemma version_count_witness :
  In 1 (note_ids (run empty_world
                      [Sample.create; Sample.edit; Sample.draft; Sample.restore])) /\
  ORM.versions_count
    (run empty_world [Sample.create; Sample.edit; Sample.draft; Sample.restore]) 1 = 2%nat.
Proof.
  assert (H : In 1 (note_ids (run empty_world
                [Sample.create; Sample.edit; Sample.draft; Sample.restore])))
    by (vm_compute; auto).
  split; [exact H|].
  destruct version_count_is_drafts_plus_restores as (_ & _ & T).
  rewrite (T _ 1 H). vm_compute. reflexivity.
Defined.

(** C4 as stated fails: after a create and one content-changing update the
    note has no version, while the claim counts one. *)
Lemma update_stores_no_version :
  let calls := [Sample.create; Sample.edit] in
  In 1 (note_ids (run empty_world calls)) /\
  tally (is_content_update 1) empty_world calls = 1%nat /\
  ORM.versions_count (run empty_world calls) 1 = 0%nat /\
  ORM.versions_count (run empty_world calls) 1 <>
    (tally (is_content_update 1) empty_world calls
     + tally (is_draft_save 1) empty_world calls
     + tally (is_restore 1) empty_world calls)%nat.
Proof.
  vm_compute. repeat split; auto. discriminate.
Qed.

(** ** Restore *)

Lemma Note_get_after_save (w : World) (now pk user : Z) (n0 n : Note.t) :
  ORM.Note_get w pk user = Some n0 ->
  Note.id n = Note.id n0 -> Note.owner n = Note.owner n0 ->
  ORM.Note_get (ORM.Note_save w now n) pk user = Some (ORM.touch now n).
Proof.
  intros Hget Hid Hown.
  destruct (Note_get_Some _ _ _ _ Hget) as (_ & Hpk & Hu).
  revert Hget. unfold ORM.Note_get, ORM.Note_save. simpl.
  induction (notes w) as [|m l IH]; simpl; [discriminate|].
  destruct (Note.id m =? Note.id n) eqn:E.
  - intros _. simpl. now rewrite Hid, Hown, Hpk, Hu, !Z.eqb_refl.
  - assert (X : (Note.id m =? pk) = false) by congruence.
    rewrite X. simpl. exact IH.
Qed.


(** C1 (the defect). A note with tags, a summary, a category, a reminder
    date and the favourite flag is saved as a draft and that version is
    restored.  The live note takes all fields of the version and the new
    version is numbered with the previous greatest number plus one and has
    the title and content of the restored version; but its tags, summary,
    category, reminder date and favourite flag are the column defaults,
    not those of the restored version. *)
Theorem restore_version_drops_fields :
  let w := run empty_world [Sample.create; Sample.draft] in
  let r := VersionHistoryView_post w (Sample.noon + 180) Sample.alice 1 (Some 1) in
  exists V N N' W,
    ORM.NoteVersion_get w (Some 1) 1 Sample.alice = Some (V, N) /\
    status_code (fst r) = 200 /\
    ORM.Note_get (snd r) 1 Sample.alice = Some N' /\
    (Note.title N', Note.content N', Note.tags N', Note.summary N',
     Note.category N', Note.reminder_date N', Note.is_favorite N') =
    (NoteVersion.title V, NoteVersion.content V, NoteVersion.tags V, NoteVersion.summary V,
     NoteVersion.category V, NoteVersion.reminder_date V, NoteVersion.is_favorite V) /\
    versions (snd r) = versions w ++ [W] /\
    NoteVersion.version_number W = S (max_version_number w 1) /\
    NoteVersion.title W = NoteVersion.title V /\
    NoteVersion.content W = NoteVersion.content V /\
    NoteVersion.tags V = ["food"] /\ NoteVersion.tags W = [] /\
    NoteVersion.summary V = "About: milk" /\ NoteVersion.summary W = "" /\
    NoteVersion.category V = Some 1 /\ NoteVersion.category W = None /\
    NoteVersion.reminder_date V = Some Sample.day /\ NoteVersion.reminder_date W = None /\
    NoteVersion.is_favorite V = true /\ NoteVersion.is_favorite W = false.
Proof.
  do 4 eexists. vm_compute. repeat split.
Qed.

(** ** Draft saves *)




(** ** Restore of a version that is not the caller's *)

(** C7. A restore whose version id is missing or names no version, or
    names only versions of another note than the addressed one, or of a
    note that is not the caller's, is answered by one and the same 404
    response, and the store is unchanged. *)
Theorem restore_not_found (w : World) (now user note_id : Z) (version_id : option Z) :
  (forall v, In v (versions w) -> version_id = Some (NoteVersion.id v) ->
     NoteVersion.note v <> note_id \/
     forall n, In n (notes w) -> Note.id n = NoteVersion.note v -> Note.owner n <> user) ->
  VersionHistoryView_post w now user note_id version_id =
    (HTTP_404 "Version not found", w).
Proof.
  intros H. unfold VersionHistoryView_post.
  destruct (ORM.NoteVersion_get w version_id note_id user) as [[V N]|] eqn:G; trivial.
  exfalso. apply NoteVersion_get_Some in G. destruct G as (Hnote & Hin & Hv & Hid).
  apply Note_get_Some in Hnote. destruct Hnote as (HN & HNid & HNo).
  destruct (H V Hin Hid) as [Hne|Hown]; [contradiction|].
  apply (Hown N HN); congruence.
Qed.

(** Bob asks to restore Alice's version 1 of her note 1; Alice asks for a
    version 7 that does not exist, and for version 1 on her note 2, to
    which it does not belong: all three get the same answer. *)
Lemma restore_not_found_witness :
  let w := run empty_world [Sample.create; Sample.draft; Sample.create] in
  VersionHistoryView_post w Sample.noon Sample.bob 1 (Some 1) =
    (HTTP_404 "Version not found", w) /\
  VersionHistoryView_post w Sample.noon Sample.alice 1 (Some 7) =
    (HTTP_404 "Version not found", w) /\
  VersionHistoryView_post w Sample.noon Sample.alice 2 (Some 1) =
    (HTTP_404 "Version not found", w).
Proof.
  intros w. split; [|split].
  - apply restore_not_found. intros v Hv _. right. intros n Hn.
    revert Hv Hn. vm_compute. intros [<-|[]] [<-|[<-|[]]]; discriminate.
  - apply restore_not_found. intros v Hv E. exfalso.
    revert Hv. vm_compute. intros [<-|[]]. discriminate E.
  - apply restore_not_found. intros v Hv _. left.
    revert Hv. vm_compute. intros [<-|[]]. discriminate.
Defined.

(** ** The summary *)

Lemma prefix_append (s e : string) : String.prefix s (String.append s e) = true.
Proof.
  induction s as [|a s IH]; simpl.
  - now destruct e.
  - destruct (ascii_dec a a) as [_|N]; [exact IH | now elim N].
Qed.

Lemma prefix_trans (s1 s2 s3 : string) :
  String.prefix s1 s2 = true -> String.prefix s2 s3 = true -> String.prefix s1 s3 = true.
Proof.
  revert s2 s3. induction s1 as [|a s1 IH]; intros [|b s2] [|c s3]; simpl; trivial;
    try discriminate.
  destruct (ascii_dec a b) as [->|]; [|discriminate].
  destruct (ascii_dec b c) as [->|]; [|discriminate].
  apply IH.
Qed.

Lemma placeholder_on_failure (env : Env) (w : World) (content : string) :
  summarizer_fails env content = true ->
  is_placeholder (fst (_get_openrouter_summary env w content)) = true.
Proof.
  pose proof (prefix_append "Summary unavailable: "
                "OPENROUTER_API_KEY not set in .env") as Hkey.
  unfold summarizer_fails, _get_openrouter_summary, is_placeholder.
  destruct (OPENROUTER_API_KEY env) as [k|]; [|intros _; exact Hkey].
  destruct (negb (Py.truthy k)); [intros _; exact Hkey|].
  destruct (openrouter env content) as [e|e|e|t]; intros H; try discriminate H.
  - apply (prefix_trans "Summary unavailable: "
                        "Summary unavailable: OpenRouter API error - ").
    + exact (prefix_append "Summary unavailable: " "OpenRouter API error - ").
    + exact (prefix_append "Summary unavailable: OpenRouter API error - " e).
  - apply (prefix_trans "Summary unavailable: "
             "Summary unavailable: Invalid response format from OpenRouter - ").
    + exact (prefix_append "Summary unavailable: "
                           "Invalid response format from OpenRouter - ").
    + exact (prefix_append
               "Summary unavailable: Invalid response format from OpenRouter - " e).
  - exact (prefix_append "Summary unavailable: " e).
Qed.

Lemma Note_get_notes (w w' : World) (pk user : Z) :
  notes w' = notes w -> ORM.Note_get w' pk user = ORM.Note_get w pk user.
Proof. unfold ORM.Note_get. now intros ->. Qed.

(** C5. When the summary helper cannot obtain a completion (no
    credential, network error or timeout, malformed response), a validated
    create with a non-empty content is answered 201 and the note is stored
    with a placeholder summary; a validated update whose content differs
    from the stored one is answered 200 and the note is stored with the new
    content and a placeholder summary.  No error is raised. *)
Theorem summarizer_failure_is_not_fatal (env : Env) (w : World) (now user : Z)
    (data : NoteData) (content : string) :
  summarizer_fails env content = true ->
  (forall vd w1,
     is_valid w now user false data = (inr vd, w1) ->
     vd_content vd = Some content -> Py.truthy content = true ->
     exists n w2,
       CreateNoteView_post env w now user data = (mkResponse 201 (NoteBody n), w2) /\
       In n (notes w2) /\ Note.owner n = user /\ Note.content n = content /\
       Note.summary n = fst (_get_openrouter_summary env w1 content) /\
       is_placeholder (Note.summary n) = true) /\
  (forall pk note vd w1,
     ORM.Note_get w pk user = Some note ->
     is_valid w now user true data = (inr vd, w1) ->
     vd_content vd = Some content -> content <> Note.content note ->
     exists n w2,
       NoteDetailView_put env w now user pk data = (mkResponse 200 (NoteBody n), w2) /\
       ORM.Note_get w2 pk user = Some n /\ Note.content n = content /\
       Note.summary n = fst (_get_openrouter_summary env w1 content) /\
       is_placeholder (Note.summary n) = true).
Proof.
  intros Hfail. split.
  - intros vd w1 Hvalid Hc Ht.
    unfold CreateNoteView_post. rewrite Hvalid.
    unfold NoteSerializer_create. rewrite Hc. simpl Py.get. rewrite Ht.
    pose proof (placeholder_on_failure env w1 content Hfail) as P.
    destruct (_get_openrouter_summary env w1 content) as [s w2]. simpl in *.
    eexists. eexists. split; [reflexivity|]. simpl.
    repeat split; trivial. apply in_or_app. right. now left.
  - intros pk note vd w1 Hget Hvalid Hc Hne.
    unfold NoteDetailView_put. rewrite Hget, Hvalid.
    unfold NoteSerializer_update. rewrite Hc.
    apply String.eqb_neq in Hne. rewrite Hne. simpl negb. cbv iota.
    pose proof (placeholder_on_failure env w1 content Hfail) as P.
    pose proof (summary_frame env w1 content) as F.
    pose proof (is_valid_frame w now user true data) as V.
    rewrite Hvalid in V. simpl in V.
    destruct (_get_openrouter_summary env w1 content) as [s w2]. simpl in *.
    eexists. eexists. split; [reflexivity|]. simpl.
    repeat split; trivial.
    assert (G : ORM.Note_get w2 pk user = Some note).
    { rewrite <- Hget. apply Note_get_notes.
      destruct F as (F1 & _). destruct V as (V1 & _). congruence. }
    match goal with
    | |- ORM.Note_get (ORM.Note_save _ _ ?n) _ _ = _ =>
        exact (Note_get_after_save w2 now pk user note n G eq_refl eq_refl)
    end.
Qed.

(** A create and an update while the service times out. *)
Lemma summarizer_failure_witness :
  (exists n w2,
     CreateNoteView_post Sample.env_down empty_world Sample.noon Sample.alice
       Sample.groceries = (mkResponse 201 (NoteBody n), w2) /\
     In n (notes w2) /\
     Note.summary n = "Summary unavailable: OpenRouter API error - Read timed out.") /\
  (exists n w2,
     NoteDetailView_put Sample.env_down (run empty_world [Sample.create]) Sample.noon
       Sample.alice 1 (Sample.only_content "milk, eggs")
     = (mkResponse 200 (NoteBody n), w2) /\
     ORM.Note_get w2 1 Sample.alice = Some n /\
     Note.summary n = "Summary unavailable: OpenRouter API error - Read timed out.").
Proof.
  split.
  - destruct (summarizer_failure_is_not_fatal Sample.env_down empty_world Sample.noon
                Sample.alice Sample.groceries "milk" eq_refl) as [H _].
    destruct (H _ _ eq_refl eq_refl eq_refl) as (n & w2 & E & Hin & _ & _ & Hs & _).
    exists n, w2. split; [exact E|]. split; [exact Hin|]. exact Hs.
  - destruct (summarizer_failure_is_not_fatal Sample.env_down
                (run empty_world [Sample.create]) Sample.noon
                Sample.alice (Sample.only_content "milk, eggs") "milk, eggs" eq_refl)
      as [_ H].
    edestruct (H 1) as (n & w2 & E & G & _ & Hs & _);
      [reflexivity | reflexivity | reflexivity | vm_compute; discriminate | ].
    exists n, w2. split; [exact E|]. split; [exact G|]. exact Hs.
Defined.






(** ** Rejected requests *)




(** ** The version history *)

Section OrderByFacts.
Context {A : Type} (leb : A -> A -> bool).
Hypothesis leb_total : forall a b, leb a b = false -> leb b a = true.
Hypothesis leb_trans : forall a b c, leb a b = true -> leb b c = true -> leb a c = true.

Lemma insert_row_sorted (x : A) (l : list A) :
  StronglySorted (fun a b => leb a b = true) l ->
  StronglySorted (fun a b => leb a b = true) (ORM.insert_row leb x l).
Proof.
  induction l as [|y l IH]; simpl; intros Hs.
  - constructor; constructor.
  - apply StronglySorted_inv in Hs. destruct Hs as [Hl Hy].
    destruct (leb x y) eqn:E.
    + constructor.
      * now constructor.
      * constructor; trivial.
        rewrite Forall_forall in *. intros z Hz. apply (leb_trans x y z); auto.
    + constructor; [now apply IH|].
      apply (Permutation_Forall (Permutation_sym (insert_row_perm leb x l))).
      constructor; auto.
Qed.

Lemma order_by_sorted (rows : list A) :
  StronglySorted (fun a b => leb a b = true) (ORM.order_by leb rows).
Proof.
  induction rows as [|x rows IH]; simpl.
  - constructor.
  - now apply insert_row_sorted.
Qed.

Lemma order_by_ordered_result (rows : list A) :
  ordered_result leb rows (ORM.order_by leb rows).
Proof.
  split; [apply Permutation_sym, order_by_perm | apply order_by_sorted].
Qed.
End OrderByFacts.

Lemma StronglySorted_app_inv {A : Type} (R : A -> A -> Prop) (l1 l2 : list A) :
  StronglySorted R (l1 ++ l2) ->
  StronglySorted R l1 /\ forall a b, In a l1 -> In b l2 -> R a b.
Proof.
  induction l1 as [|x l1 IH]; simpl; intros H.
  - split; [constructor | contradiction].
  - apply StronglySorted_inv in H. destruct H as [Hs Hx].
    destruct (IH Hs) as [IH1 IH2]. rewrite Forall_forall in Hx. split.
    + constructor; trivial. apply Forall_forall. intros z Hz.
      apply Hx, in_or_app. now left.
    + intros a b [<-|Ha] Hb; [|now apply IH2].
      apply Hx, in_or_app. now right.
Qed.

Lemma newest_first_total (a b : NoteVersion.t) :
  newest_first a b = false -> newest_first b a = true.
Proof. unfold newest_first. rewrite Z.leb_gt, Z.leb_le. lia. Qed.

Lemma newest_first_trans (a b c : NoteVersion.t) :
  newest_first a b = true -> newest_first b c = true -> newest_first a c = true.
Proof. unfold newest_first. rewrite !Z.leb_le. lia. Qed.

(** The response the handler computes is one of the possible ones. *)
Lemma VersionHistoryView_get_allowed (w : World) (user note_id : Z) :
  VersionHistoryView_get_allows w user note_id (VersionHistoryView_get w user note_id).
Proof.
  unfold VersionHistoryView_get_allows, VersionHistoryView_get.
  destruct (ORM.Note_get w note_id user) as [note|]; trivial.
  exists (ORM.order_by newest_first (ORM.versions_of w (Note.id note))).
  split; trivial.
  apply order_by_ordered_result; [apply newest_first_total | apply newest_first_trans].
Qed.

(** C10 (as the code has it). For a note of the requester, the version
    list holds at most 20 versions, all of them versions of that note,
    ordered newest first by [created_at]; every version of the note that is
    left out is at most as recent as every version listed, and with 20
    versions or fewer all are listed.  The store is not changed.  This
    holds for the response the handler computes and for every response its
    query allows; the order among versions of one instant is not fixed. *)
Theorem list_versions_newest_first (w : World) (user note_id : Z) :
  VersionHistoryView_get_allows w user note_id (VersionHistoryView_get w user note_id) /\
  forall r, VersionHistoryView_get_allows w user note_id r ->
    snd r = w /\
    (ORM.Note_get w note_id user = None -> fst r = HTTP_404 "Note not found") /\
    (forall note, ORM.Note_get w note_id user = Some note ->
       exists l,
         fst r = mkResponse 200 (VersionsBody l) /\
         List.length l = Nat.min 20 (ORM.versions_count w note_id) /\
         (forall v, In v l -> In v (versions w) /\ NoteVersion.note v = note_id) /\
         StronglySorted newer_or_equal l /\
         (forall a b, In a l -> In b (ORM.versions_of w note_id) -> ~ In b l ->
                      newer_or_equal a b) /\
         ((ORM.versions_count w note_id <= 20)%nat ->
          Permutation (ORM.versions_of w note_id) l)).
Proof.
  split; [apply VersionHistoryView_get_allowed|].
  intros r. unfold VersionHistoryView_get_allows.
  destruct (ORM.Note_get w note_id user) as [note|] eqn:G.
  - intros (result & [Hperm Hsorted] & ->). simpl.
    destruct (Note_get_Some _ _ _ _ G) as (_ & Hid & _). rewrite Hid in Hperm.
    split; trivial. split; [discriminate|].
    intros note' _. exists (firstn 20 result).
    assert (Hlen : List.length result = ORM.versions_count w note_id).
    { symmetry. apply Permutation_length, Hperm. }
    rewrite <- (firstn_skipn 20 result) in Hsorted.
    apply StronglySorted_app_inv in Hsorted. destruct Hsorted as [Hs1 Hs2].
    split; trivial. split; [now rewrite length_firstn, Hlen|].
    split; [|split; [|split]].
    + intros v Hv.
      assert (Hin : In v (ORM.versions_of w note_id)).
      { apply (Permutation_in _ (Permutation_sym Hperm)).
        rewrite <- (firstn_skipn 20 result). apply in_or_app. now left. }
      unfold ORM.versions_of in Hin. apply filter_In in Hin.
      destruct Hin as [Hin E]. apply Z.eqb_eq in E. auto.
    + clear Hs2. induction Hs1 as [|a l Hl IH Ha]; constructor; trivial.
      rewrite Forall_forall in *. intros b Hb. unfold newer_or_equal.
      specialize (Ha b Hb). unfold newest_first in Ha. now apply Z.leb_le in Ha.
    + intros a b Ha Hb Hnot.
      apply (Permutation_in _ Hperm) in Hb.
      rewrite <- (firstn_skipn 20 result) in Hb. apply in_app_or in Hb.
      destruct Hb as [Hb|Hb]; [contradiction|].
      specialize (Hs2 a b Ha Hb). unfold newer_or_equal, newest_first in *.
      now apply Z.leb_le in Hs2.
    + intros Hle. rewrite firstn_all2; [exact Hperm | lia].
  - intros ->. simpl. split; trivial. split; trivial. intros note' H. discriminate H.
Qed.

(** The history of the sample note after two drafts and a restore, for
    its owner and for another user. *)
Lemma list_versions_witness :
  let w := run empty_world [Sample.create; Sample.draft; Sample.draft; Sample.restore] in
  (exists l,
     fst (VersionHistoryView_get w Sample.alice 1) = mkResponse 200 (VersionsBody l) /\
     List.length l = 3%nat /\ StronglySorted newer_or_equal l /\
     snd (VersionHistoryView_get w Sample.alice 1) = w) /\
  fst (VersionHistoryView_get w Sample.bob 1) = HTTP_404 "Note not found".
Proof.
  intros w. split.
  - destruct (list_versions_newest_first w Sample.alice 1) as [Ha H].
    destruct (H _ Ha) as (Hw & _ & Hl).
    assert (G : exists note, ORM.Note_get w 1 Sample.alice = Some note)
      by (eexists; vm_compute; reflexivity).
    destruct G as [note G].
    destruct (Hl note G) as (l & E & Hlen & _ & Hs & _).
    exists l. split; [exact E|]. split; [|split; [exact Hs | exact Hw]].
    rewrite Hlen. vm_compute. reflexivity.
  - destruct (list_versions_newest_first w Sample.bob 1) as [Ha H].
    destruct (H _ Ha) as (_ & Hnone & _).
    apply Hnone. vm_compute. reflexivity.
Defined.

(** C10 as stated fails on ties: two drafts saved at the same instant are
    listed, by the handler, in the order of their version numbers 1, 2;
    the query allows the other order as well.  The list is newest first,
    but not by descending version number among equals. *)
Lemma ties_not_broken_by_version_number :
  let w := run empty_world [Sample.create; Sample.draft; Sample.draft] in
  VersionHistoryView_get w Sample.alice 1 =
    (mkResponse 200 (VersionsBody [Sample.first_draft; Sample.second_draft]), w) /\
  NoteVersion.created_at Sample.first_draft = NoteVersion.created_at Sample.second_draft /\
  NoteVersion.version_number Sample.first_draft = 1%nat /\
  NoteVersion.version_number Sample.second_draft = 2%nat /\
  VersionHistoryView_get_allows w Sample.alice 1
    (mkResponse 200 (VersionsBody [Sample.second_draft; Sample.first_draft]), w) /\
  ~ StronglySorted newer_then_greater_number [Sample.first_draft; Sample.second_draft].
Proof.
  intros w. split; [vm_compute; reflexivity|].
  split; [reflexivity|]. split; [reflexivity|]. split; [reflexivity|]. split.
  - unfold VersionHistoryView_get_allows.
    replace (ORM.Note_get w 1 Sample.alice)
      with (Some (Note.mk 1 "Groceries" (Some 1) ["food"] "milk" "About: milk"
                          (Some Sample.day) Sample.noon Sample.noon Sample.alice true))
      by (vm_compute; reflexivity).
    exists [Sample.second_draft; Sample.first_draft]. split; [|reflexivity].
    split.
    + replace (ORM.versions_of w 1) with [Sample.first_draft; Sample.second_draft]
        by (vm_compute; reflexivity).
      apply perm_swap.
    + repeat constructor.
  - intros H. apply StronglySorted_inv in H. destruct H as [_ H].
    apply Forall_inv in H. unfold newer_then_greater_number in H. simpl in H.
    destruct H as [H|[_ H]]; lia.
Qed.

(** ** Categories

    [get_or_create] is the only writer of the category table, so a user
    never has two categories of one name: the lookup by name and owner in
    [ORM.Category_get_or_create] finds at most one row. *)

Lemma step_categories (w : World) (c : Call) :
  categories (step w c) = categories w \/
  exists k, categories (step w c) = categories w ++ [k] /\
            ~ In (category_key k) (map category_key (categories w)).
Proof.
  assert (Hadd : forall w1 u data, category_added w w1 u data ->
            exists k, categories w1 = categories w ++ [k] /\
                      ~ In (category_key k) (map category_key (categories w))).
  { intros w1 u data (name & _ & E & Hfresh). eexists. split; [exact E|].
    intros Hin. apply in_map_iff in Hin. destruct Hin as (c' & Hk & Hc').
    apply (Hfresh c' Hc'). unfold category_key in Hk. simpl in Hk.
    injection Hk as -> ->. auto. }
  destruct c as [u t e r]. unfold step, handle. simpl.
  destruct r as [data|pk data|pk|cat|tag| |nid data|nid|nid vid].
  - unfold CreateNoteView_post.
    pose proof (is_valid_frame w t u false data) as F.
    destruct (is_valid w t u false data) as [[errs|vd] w1]; simpl in F.
    + simpl. destruct F as (_ & _ & _ & _ & _ & [->|F]); [now left | right; eauto].
    + pose proof (NoteSerializer_create_frame e w1 t u vd) as F2.
      destruct (NoteSerializer_create e w1 t u vd) as [n w2]. simpl.
      destruct F2 as (_ & _ & -> & _).
      destruct F as (_ & _ & _ & _ & _ & [->|F]); [now left | right; eauto].
  - unfold NoteDetailView_put.
    destruct (ORM.Note_get w pk u) as [note|]; [|now left].
    pose proof (is_valid_frame w t u true data) as F.
    destruct (is_valid w t u true data) as [[errs|vd] w1]; simpl in F.
    + simpl. destruct F as (_ & _ & _ & _ & _ & [->|F]); [now left | right; eauto].
    + pose proof (NoteSerializer_update_frame e w1 t note vd) as F2.
      destruct (NoteSerializer_update e w1 t note vd) as [n w2]. simpl.
      destruct F2 as (_ & _ & -> & _).
      destruct F as (_ & _ & _ & _ & _ & [->|F]); [now left | right; eauto].
  - left. unfold NoteDetailView_delete. now destruct (ORM.Note_get w pk u).
  - left. unfold NoteCategorySearchView_delete, bulk_delete.
    now destruct (existsb _ (notes w)).
  - left. unfold NoteTagSearchView_delete, bulk_delete.
    now destruct (existsb _ (notes w)).
  - left. unfold ReminderView_get.
    now destruct (classify w u (date_of t)) as [[[? ?] ?] ?].
  - left. unfold DraftView_post. destruct (negb (nid =? 0)); trivial.
    destruct (ORM.Note_get w nid u) as [note|]; trivial.
    unfold ORM.NoteVersion_create. now destruct (existsb _ (versions w)).
  - left. unfold VersionHistoryView_get. now destruct (ORM.Note_get w nid u).
  - left. unfold VersionHistoryView_post.
    destruct (ORM.NoteVersion_get w vid nid u) as [[version note0]|]; trivial.
    unfold ORM.NoteVersion_create. now destruct (existsb _ _).
Qed.

Lemma categories_unique (calls : list Call) :
  NoDup (map category_key (categories (run empty_world calls))).
Proof.
  assert (H : forall w, NoDup (map category_key (categories w)) ->
                        NoDup (map category_key (categories (run w calls)))).
  { induction calls as [|c calls IH]; intros w Hw; simpl; trivial.
    apply IH. destruct (step_categories w c) as [->|(k & -> & Hk)]; trivial.
    rewrite map_app. simpl. now apply NoDup_snoc. }
  apply H. constructor.
Qed.

(** ** Concrete runs *)

Example strip_example : Py.strip "  milk, eggs  " = "milk, eggs".
Proof. reflexivity. Qed.

Example normalised_name_example : normalised_name " Home " = "home".
Proof. reflexivity. Qed.

Example blank_title_rejected :
  fst (is_valid empty_world Sample.noon Sample.alice true (Sample.only_title "   ")) =
  inl [("title", "This field may not be blank.")].
Proof. reflexivity. Qed.

Example malformed_category_rejected :
  is_valid empty_world Sample.noon Sample.alice true
    (mkNoteData None (Some (CategoryDict None)) None None None None None) =
  (inl [("category", "Invalid category format.")], empty_world).
Proof. reflexivity. Qed.

(** A note with reminder date 2025-03-20, seen on the 20th, the 19th and
    the 25th of March. *)
Example reminder_scenario :
  let w := run empty_world [Sample.create] in
  exists n,
    notes w = [n] /\ Note.reminder_date n = Some Sample.day /\
    classify w Sample.alice Sample.day = ([n], [], [], []) /\
    classify w Sample.alice (Sample.day - 1) = ([], [n], [], []) /\
    classify w Sample.alice (Sample.day + 5) = ([], [], [n], []) /\
    classify w Sample.alice (Sample.day - 2) = ([], [], [], [n]) /\
    classify w Sample.bob Sample.day = ([], [], [], []).
Proof. eexists. vm_compute. repeat split. Qed.

Example create_then_history :
  let w := run empty_world [Sample.create; Sample.edit; Sample.draft; Sample.restore] in
  map NoteVersion.version_number (ORM.versions_of w 1) = [1; 2]%nat /\
  map NoteVersion.is_draft (ORM.versions_of w 1) = [true; false] /\
  summary_calls w = ["milk"; "milk, eggs"].
Proof. vm_compute. repeat split. Qed.

(** * Further properties *)

(** ** Keys of the stored rows *)

Lemma filter_true {A : Type} (l : list A) : filter (fun _ => true) l = l.
Proof. induction l as [|x l IH]; simpl; congruence. Qed.

(** The versions after one call: a selection of the old ones under the
    same next key, or the old ones and one more that takes the next key. *)
Lemma step_versions_shape (w : World) (c : Call) :
  (exists p, versions (step w c) = filter p (versions w) /\
             next_version_id (step w c) = next_version_id w) \/
  (exists v, versions (step w c) = versions w ++ [v] /\
             NoteVersion.id v = next_version_id w /\
             next_version_id (step w c) = next_version_id w + 1).
Proof.
  assert (Hsame : forall w', versions w' = versions w ->
                             next_version_id w' = next_version_id w ->
            exists p, versions w' = filter p (versions w) /\
                      next_version_id w' = next_version_id w).
  { intros w' E1 E2. exists (fun _ => true). now rewrite filter_true. }
  destruct c as [u t e r]. unfold step, handle. simpl.
  destruct r as [data|pk data|pk|cat|tag| |nid data|nid|nid vid].
  - left. apply Hsame; unfold CreateNoteView_post;
      pose proof (is_valid_frame w t u false data) as H1; simpl in H1;
      destruct (is_valid w t u false data) as [[errs|vd] w1]; simpl in *; try tauto;
      unfold NoteSerializer_create;
      destruct (Py.truthy (Py.get (vd_content vd) ""));
      try (pose proof (summary_frame e w1 (Py.get (vd_content vd) "")) as H2;
           destruct (_get_openrouter_summary e w1 (Py.get (vd_content vd) ""))
             as [s w2]; simpl in *);
      simpl; intuition congruence.
  - left. apply Hsame; unfold NoteDetailView_put;
      destruct (ORM.Note_get w pk u) as [note|]; simpl; trivial;
      pose proof (is_valid_frame w t u true data) as H1; simpl in H1;
      destruct (is_valid w t u true data) as [[errs|vd] w1]; simpl in *; try tauto;
      unfold NoteSerializer_update;
      destruct (vd_content vd) as [cnt|]; simpl; try tauto;
      destruct (negb (cnt =? Note.content note)%string); simpl; try tauto;
      pose proof (summary_frame e w1 cnt) as H2;
      destruct (_get_openrouter_summary e w1 cnt) as [s w2]; simpl in *;
      intuition congruence.
  - left. unfold NoteDetailView_delete.
    destruct (ORM.Note_get w pk u) as [note|]; simpl; [eauto | now apply Hsame].
  - left. unfold NoteCategorySearchView_delete, bulk_delete.
    destruct (existsb _ (notes w)); simpl; [eauto | now apply Hsame].
  - left. unfold NoteTagSearchView_delete, bulk_delete.
    destruct (existsb _ (notes w)); simpl; [eauto | now apply Hsame].
  - left. unfold ReminderView_get.
    destruct (classify w u (date_of t)) as [[[? ?] ?] ?]. now apply Hsame.
  - unfold DraftView_post. destruct (negb (nid =? 0)); simpl; [|left; now apply Hsame].
    destruct (ORM.Note_get w nid u) as [note|]; simpl; [|left; now apply Hsame].
    unfold ORM.NoteVersion_create.
    destruct (existsb _ (versions w)); simpl; [left; now apply Hsame|].
    right. eexists. repeat split.
  - left. unfold VersionHistoryView_get.
    destruct (ORM.Note_get w nid u); now apply Hsame.
  - unfold VersionHistoryView_post.
    destruct (ORM.NoteVersion_get w vid nid u) as [[version note0]|]; simpl;
      [|left; now apply Hsame].
    unfold ORM.NoteVersion_create.
    destruct (existsb _ _); simpl; [left; now apply Hsame|].
    right. eexists. repeat split.
Qed.

Lemma version_keys_fresh_step (w : World) (c : Call) :
  version_keys_fresh w -> version_keys_fresh (step w c).
Proof.
  intros [H1 H2 H3].
  destruct (step_versions_shape w c) as [(p & E & N)|(v & E & Hv & N)];
    constructor; rewrite ?E, ?N; try lia.
  - now apply NoDup_map_filter.
  - intros v Hv. apply filter_In in Hv. now apply H2.
  - rewrite map_app. simpl. apply NoDup_snoc; trivial.
    intros Hin. apply in_map_iff in Hin. destruct Hin as (v' & E' & Hv').
    apply H2 in Hv'. lia.
  - intros v' Hv'. apply in_app_or in Hv'. destruct Hv' as [Hv'|[<-|[]]].
    + apply H2 in Hv'. lia.
    + lia.
Qed.

Lemma version_keys_fresh_run (calls : list Call) (w : World) :
  version_keys_fresh w -> version_keys_fresh (run w calls).
Proof.
  revert w. induction calls as [|c calls IH]; intros w Hw; simpl; trivial.
  apply IH. now apply version_keys_fresh_step.
Qed.

Lemma version_keys_fresh_empty : version_keys_fresh empty_world.
Proof. constructor; simpl; try constructor; try contradiction; lia. Qed.

(** X1. After every sequence of calls from the empty store, every stored
    version belongs to a stored note (a delete takes the versions of the
    note with it, nothing else creates an orphan), and the primary keys of
    the notes and of the versions are pairwise distinct, positive and
    below the next key to be given out. *)
Theorem reachable_store_integrity (calls : list Call) :
  let w := run empty_world calls in
  (forall v, In v (versions w) ->
     exists n, In n (notes w) /\ Note.id n = NoteVersion.note v) /\
  NoDup (map Note.id (notes w)) /\
  (forall n, In n (notes w) -> 0 < Note.id n < next_note_id w) /\
  NoDup (map NoteVersion.id (versions w)) /\
  (forall v, In v (versions w) -> 0 < NoteVersion.id v < next_version_id w).
Proof.
  intros w.
  assert (Hw : wf w) by (apply wf_run, wf_empty).
  assert (Hk : version_keys_fresh w)
    by (apply version_keys_fresh_run, version_keys_fresh_empty).
  split; [|split; [|split; [|split]]].
  - intros v Hv. apply (wf_fk w Hw), in_map_iff in Hv.
    destruct Hv as (n & E & Hn). eauto.
  - apply (wf_pk w Hw).
  - intros n Hn. apply (in_map Note.id) in Hn. split.
    + now apply (wf_positive w Hw).
    + now apply (wf_fresh w Hw).
  - apply (vk_unique w Hk).
  - intros v Hv. now apply (vk_range w Hk).
Qed.

(** ** Trimming and lower-casing *)

Lemma isspace_lower_char (c : ascii) : Py.isspace (Py.lower_char c) = Py.isspace c.
Proof.
  destruct c as [b0 b1 b2 b3 b4 b5 b6 b7].
  destruct b0, b1, b2, b3, b4, b5, b6, b7; reflexivity.
Qed.

Lemma lower_char_idem (c : ascii) : Py.lower_char (Py.lower_char c) = Py.lower_char c.
Proof.
  destruct c as [b0 b1 b2 b3 b4 b5 b6 b7].
  destruct b0, b1, b2, b3, b4, b5, b6, b7; reflexivity.
Qed.

Lemma lower_idem (s : string) : Py.lower (Py.lower s) = Py.lower s.
Proof. induction s as [|c s IH]; simpl; [|rewrite lower_char_idem, IH]; reflexivity. Qed.

Lemma length_lower (s : string) : String.length (Py.lower s) = String.length s.
Proof. induction s as [|c s IH]; simpl; congruence. Qed.

Lemma truthy_lower (s : string) : Py.truthy (Py.lower s) = Py.truthy s.
Proof. now destruct s. Qed.

Lemma lstrip_lower (s : string) : Py.lstrip (Py.lower s) = Py.lower (Py.lstrip s).
Proof.
  induction s as [|c s IH]; simpl; trivial.
  rewrite isspace_lower_char. now destruct (Py.isspace c).
Qed.

Lemma rstrip_lower (s : string) : Py.rstrip (Py.lower s) = Py.lower (Py.rstrip s).
Proof.
  induction s as [|c s IH]; simpl; trivial.
  rewrite IH, isspace_lower_char.
  destruct (Py.rstrip s); simpl; trivial. now destruct (Py.isspace c).
Qed.

Lemma strip_lower (s : string) : Py.strip (Py.lower s) = Py.lower (Py.strip s).
Proof. unfold Py.strip. now rewrite lstrip_lower, rstrip_lower. Qed.

Lemma rstrip_idem (s : string) : Py.rstrip (Py.rstrip s) = Py.rstrip s.
Proof.
  induction s as [|c s IH]; simpl; trivial.
  destruct (Py.rstrip s) as [|d r] eqn:E.
  - destruct (Py.isspace c) eqn:S; simpl; trivial. now rewrite S.
  - change (Py.rstrip (String c (String d r))) with
      (match Py.rstrip (String d r) with
       | EmptyString => if Py.isspace c then EmptyString else String c EmptyString
       | r' => String c r'
       end).
    now rewrite IH.
Qed.

Lemma lstrip_starts_clean (s : string) : starts_clean (Py.lstrip s).
Proof.
  induction s as [|c s IH]; simpl; trivial.
  destruct (Py.isspace c) eqn:S; simpl; trivial.
Qed.

Lemma rstrip_starts_clean (s : string) : starts_clean s -> starts_clean (Py.rstrip s).
Proof.
  destruct s as [|c s]; simpl; trivial. intros S.
  destruct (Py.rstrip s); simpl; trivial. now rewrite S.
Qed.

Lemma lstrip_clean (s : string) : starts_clean s -> Py.lstrip s = s.
Proof. destruct s as [|c s]; simpl; trivial. now intros ->. Qed.

(** [strip] is idempotent. *)
Lemma strip_idem (s : string) : Py.strip (Py.strip s) = Py.strip s.
Proof.
  unfold Py.strip.
  rewrite (lstrip_clean (Py.rstrip (Py.lstrip s))).
  - apply rstrip_idem.
  - apply rstrip_starts_clean, lstrip_starts_clean.
Qed.

Lemma normalised_name_strip (name : string) :
  Py.strip (normalised_name name) = normalised_name name.
Proof. unfold normalised_name. now rewrite strip_lower, strip_idem. Qed.

Lemma normalised_name_lower (name : string) :
  Py.lower (normalised_name name) = normalised_name name.
Proof. unfold normalised_name. apply lower_idem. Qed.

Lemma normalised_name_idem (name : string) :
  normalised_name (normalised_name name) = normalised_name name.
Proof.
  unfold normalised_name at 1.
  now rewrite !normalised_name_strip, normalised_name_lower.
Qed.

(** ** Categories *)

Lemma normalised_name_ok (name : string) :
  Py.truthy (Py.strip name) = true -> Py.len (Py.strip name) <= 50 ->
  normalised (normalised_name name).
Proof.
  intros Ht Hl. unfold normalised.
  split; [apply normalised_name_strip|]. split; [apply normalised_name_lower|].
  unfold normalised_name. rewrite strip_idem, truthy_lower. split; trivial.
  unfold Py.len in *. now rewrite length_lower.
Qed.

(** The one write of [is_valid], in full. *)
Lemma is_valid_category_shape (w : World) (now user : Z) (partial : bool)
    (data : NoteData) :
  let w1 := snd (is_valid w now user partial data) in
  w1 = w \/
  exists name,
    d_category data = Some (CategoryDict (Some name)) /\
    Py.truthy (Py.strip name) = true /\ Py.len (Py.strip name) <= 50 /\
    w1 = add_category w (Category.mk (next_category_id w) (normalised_name name) user) /\
    ~ In (normalised_name name, user) (map category_key (categories w)).
Proof.
  unfold is_valid.
  destruct (d_category data) as [[[name|]|]|]; simpl.
  - unfold CategorySerializer, CharField.
    destruct (negb (Py.truthy (Py.strip name))) eqn:T; simpl.
    + destruct (error "title" _ ++ _); simpl; auto.
    + destruct (50 <? Py.len (Py.strip name)) eqn:L; simpl.
      * destruct (error "title" _ ++ _); simpl; auto.
      * unfold ORM.Category_get_or_create.
        destruct (find _ (categories w)) as [c|] eqn:F; simpl.
        -- destruct (error "title" _ ++ _); simpl; auto.
        -- assert (Hfresh : ~ In (normalised_name name, user)
                                 (map category_key (categories w))).
           { intros Hin. apply in_map_iff in Hin. destruct Hin as (c & Hk & Hc).
             apply (find_none _ _ F) in Hc. simpl in Hc.
             unfold category_key in Hk. injection Hk as E1 E2.
             unfold normalised_name in E1.
             rewrite E1, E2, String.eqb_refl, Z.eqb_refl in Hc. discriminate. }
           apply negb_false_iff in T. apply Z.ltb_ge in L.
           destruct (error "title" _ ++ _); simpl;
             (right; exists name; repeat split; trivial).
  - destruct partial; simpl; destruct (error "title" _ ++ _); simpl; auto.
  - destruct (error "title" _ ++ _); simpl; auto.
  - destruct partial; simpl; destruct (error "title" _ ++ _); simpl; auto.
Qed.

(** The serializer's [create] and [update] leave the category table. *)
Lemma NoteSerializer_create_categories (env : Env) (w : World) (now user : Z)
    (vd : ValidatedData) :
  let w1 := snd (NoteSerializer_create env w now user vd) in
  categories w1 = categories w /\ next_category_id w1 = next_category_id w.
Proof.
  unfold NoteSerializer_create.
  destruct (Py.truthy (Py.get (vd_content vd) "")); simpl; auto.
  pose proof (summary_frame env w (Py.get (vd_content vd) "")) as H.
  destruct (_get_openrouter_summary env w (Py.get (vd_content vd) "")) as [s w1].
  simpl in *. tauto.
Qed.

Lemma NoteSerializer_update_categories (env : Env) (w : World) (now : Z)
    (instance : Note.t) (vd : ValidatedData) :
  let w1 := snd (NoteSerializer_update env w now instance vd) in
  categories w1 = categories w /\ next_category_id w1 = next_category_id w.
Proof.
  unfold NoteSerializer_update.
  destruct (vd_content vd) as [c|]; simpl; auto.
  destruct (negb (c =? Note.content instance)%string); simpl; auto.
  pose proof (summary_frame env w c) as H.
  destruct (_get_openrouter_summary env w c) as [s w1].
  simpl in *. tauto.
Qed.

(** The categories after one call: the same, or one more, of the caller,
    with a normalised name that the caller did not have. *)
Lemma step_categories_shape (w : World) (c : Call) :
  (categories (step w c) = categories w /\
   next_category_id (step w c) = next_category_id w) \/
  exists k,
    categories (step w c) = categories w ++ [k] /\
    next_category_id (step w c) = next_category_id w + 1 /\
    Category.id k = next_category_id w /\ Category.owner k = user c /\
    normalised (Category.name k) /\
    ~ In (category_key k) (map category_key (categories w)).
Proof.
  assert (Hvalid : forall partial data w',
            categories w' = categories (snd (is_valid w (now c) (user c) partial data)) ->
            next_category_id w' =
              next_category_id (snd (is_valid w (now c) (user c) partial data)) ->
            (categories w' = categories w /\ next_category_id w' = next_category_id w) \/
            exists k,
              categories w' = categories w ++ [k] /\
              next_category_id w' = next_category_id w + 1 /\
              Category.id k = next_category_id w /\ Category.owner k = user c /\
              normalised (Category.name k) /\
              ~ In (category_key k) (map category_key (categories w))).
  { intros partial data w' E1 E2.
    destruct (is_valid_category_shape w (now c) (user c) partial data)
      as [E|(name & _ & Ht & Hl & E & Hfresh)]; rewrite E in E1, E2.
    - now left.
    - right. eexists. split; [exact E1|]. split; [exact E2|]. simpl.
      repeat split; trivial; now apply normalised_name_ok. }
  destruct c as [u t e r]. unfold step, handle. simpl in *.
  destruct r as [data|pk data|pk|cat|tag| |nid data|nid|nid vid].
  - apply (Hvalid false data). all: unfold CreateNoteView_post.
    all: destruct (is_valid w t u false data) as [[errs|vd] w1]; simpl; trivial.
    all: pose proof (NoteSerializer_create_categories e w1 t u vd) as H.
    all: destruct (NoteSerializer_create e w1 t u vd) as [n w2]; simpl in *; tauto.
  - unfold NoteDetailView_put.
    destruct (ORM.Note_get w pk u) as [note|]; [|now left].
    apply (Hvalid true data).
    all: destruct (is_valid w t u true data) as [[errs|vd] w1]; simpl; trivial.
    all: pose proof (NoteSerializer_update_categories e w1 t note vd) as H.
    all: destruct (NoteSerializer_update e w1 t note vd) as [n w2]; simpl in *; tauto.
  - left. unfold NoteDetailView_delete. now destruct (ORM.Note_get w pk u).
  - left. unfold NoteCategorySearchView_delete, bulk_delete.
    now destruct (existsb _ (notes w)).
  - left. unfold NoteTagSearchView_delete, bulk_delete.
    now destruct (existsb _ (notes w)).
  - left. unfold ReminderView_get.
    now destruct (classify w u (date_of t)) as [[[? ?] ?] ?].
  - left. unfold DraftView_post. destruct (negb (nid =? 0)); auto.
    destruct (ORM.Note_get w nid u) as [note|]; auto.
    unfold ORM.NoteVersion_create. now destruct (existsb _ (versions w)).
  - left. unfold VersionHistoryView_get. now destruct (ORM.Note_get w nid u).
  - left. unfold VersionHistoryView_post.
    destruct (ORM.NoteVersion_get w vid nid u) as [[version note0]|]; auto.
    unfold ORM.NoteVersion_create. now destruct (existsb _ _).
Qed.

Lemma categories_ok_step (w : World) (c : Call) :
  categories_ok w -> categories_ok (step w c).
Proof.
  intros [H1 H2 H3 H4 H5].
  destruct (step_categories_shape w c)
    as [[E N]|(k & E & N & Hid & _ & Hname & Hfresh)];
    constructor; rewrite ?E, ?N; trivial; try lia.
  - rewrite map_app. simpl. now apply NoDup_snoc.
  - intros c' Hc'. apply in_app_or in Hc'. destruct Hc' as [Hc'|[<-|[]]]; auto.
  - rewrite map_app. simpl. apply NoDup_snoc; trivial.
    intros Hin. apply in_map_iff in Hin. destruct Hin as (c' & E' & Hc').
    apply H4 in Hc'. lia.
  - intros c' Hc'. apply in_app_or in Hc'. destruct Hc' as [Hc'|[<-|[]]].
    + apply H4 in Hc'. lia.
    + lia.
Qed.

Lemma categories_ok_run (calls : list Call) (w : World) :
  categories_ok w -> categories_ok (run w calls).
Proof.
  revert w. induction calls as [|c calls IH]; intros w Hw; simpl; trivial.
  apply IH. now apply categories_ok_step.
Qed.

Lemma categories_ok_empty : categories_ok empty_world.
Proof. constructor; simpl; try constructor; try contradiction; lia. Qed.


Lemma find_app {A : Type} (p : A -> bool) (l1 l2 : list A) :
  find p (l1 ++ l2) = match find p l1 with Some x => Some x | None => find p l2 end.
Proof. induction l1 as [|x l1 IH]; simpl; trivial. now destruct (p x). Qed.

(** X3. [validate_category] looks a category up by its trimmed,
    lower-cased name: after a first lookup for a user, a lookup of any
    name that differs only in case and surrounding white space returns the
    same category and writes nothing; in particular the lookup is
    idempotent. *)
Theorem validate_category_idempotent (w : World) (user : Z) (name1 name2 : string) :
  Py.lower (Py.strip name1) = Py.lower (Py.strip name2) ->
  let r1 := validate_category w user (Some name1) in
  let r2 := validate_category (snd r1) user (Some name2) in
  r2 = r1 /\
  exists c, fst r1 = Valid c /\ In c (categories (snd r1)) /\
            Category.name c = Py.lower (Py.strip name1) /\ Category.owner c = user.
Proof.
  intros E. simpl. rewrite <- E.
  set (nn := Py.lower (Py.strip name1)).
  unfold ORM.Category_get_or_create.
  destruct (find _ (categories w)) as [c|] eqn:F; simpl.
  - rewrite F. simpl. split; trivial.
    apply find_some in F. destruct F as [Hin F].
    apply andb_true_iff in F. destruct F as [F1 F2].
    apply String.eqb_eq in F1. apply Z.eqb_eq in F2. eauto.
  - rewrite find_app, F. simpl. rewrite String.eqb_refl, Z.eqb_refl. simpl.
    split; trivial.
    eexists. split; [reflexivity|]. simpl. repeat split.
    apply in_or_app. right. now left.
Qed.

(** " Home " and "HOME" are one category. *)
Lemma validate_category_witness :
  let r1 := validate_category empty_world Sample.alice (Some " Home ") in
  validate_category (snd r1) Sample.alice (Some "HOME") = r1.
Proof.
  exact (proj1 (validate_category_idempotent empty_world Sample.alice " Home " "HOME"
                  eq_refl)).
Defined.

(** ** How one call changes the notes *)

(** The notes after one call: the same; or one more, of the caller, under
    the next key; or one note of the caller replaced by a row of the same
    key, owner and creation time; or a selection removed, which for every
    call but the delete by category holds notes of the caller only. *)
Lemma step_notes_shape (w : World) (c : Call) :
  wf w ->
  notes (step w c) = notes w \/
  (exists n, notes (step w c) = notes w ++ [n] /\
             Note.id n = next_note_id w /\ Note.owner n = user c /\
             Note.created_at n = now c) \/
  (exists note n',
     In note (notes w) /\ Note.owner note = user c /\
     Note.id n' = Note.id note /\ Note.owner n' = Note.owner note /\
     Note.created_at n' = Note.created_at note /\
     notes (step w c) =
       map (fun m => if Note.id m =? Note.id note then n' else m) (notes w)) \/
  (exists sel,
     notes (step w c) = filter (fun n => negb (sel n)) (notes w) /\
     (not_delete_by_category c = true ->
      forall m, In m (notes w) -> sel m = true -> Note.owner m = user c)).
Proof.
  intros Hw.
  destruct c as [u t e r]. unfold step, handle, not_delete_by_category. simpl.
  destruct r as [data|pk data|pk|cat|tag| |nid data|nid|nid vid].
  - unfold CreateNoteView_post.
    pose proof (is_valid_frame w t u false data) as H1. simpl in H1.
    destruct (is_valid w t u false data) as [[errs|vd] w1]; simpl in *.
    + left. tauto.
    + right. left. destruct H1 as (H1 & _ & H1' & _).
      unfold NoteSerializer_create.
      destruct (Py.truthy (Py.get (vd_content vd) "")).
      * pose proof (summary_frame e w1 (Py.get (vd_content vd) "")) as H2.
        destruct (_get_openrouter_summary e w1 (Py.get (vd_content vd) "")) as [s w2].
        simpl in *. destruct H2 as (H2 & _ & _ & H2' & _).
        eexists. rewrite H2, H1, H2', H1'. repeat split.
      * simpl. eexists. rewrite H1, H1'. repeat split.
  - unfold NoteDetailView_put.
    destruct (ORM.Note_get w pk u) as [note|] eqn:G; [|now left].
    pose proof (is_valid_frame w t u true data) as H1. simpl in H1.
    destruct (is_valid w t u true data) as [[errs|vd] w1]; simpl in *.
    + left. tauto.
    + right. right. left. destruct H1 as (H1 & _).
      destruct (Note_get_Some _ _ _ _ G) as (Hin & _ & Ho).
      unfold NoteSerializer_update.
      destruct (vd_content vd) as [cnt|];
        [destruct (negb (cnt =? Note.content note)%string);
         [pose proof (summary_frame e w1 cnt) as H2;
          destruct (_get_openrouter_summary e w1 cnt) as [s w2];
          simpl in H2; destruct H2 as (H2 & _)|]|];
        simpl; exists note; eexists;
        (split; [exact Hin|]); (split; [exact Ho|]);
        (split; [|split; [|split; [|rewrite ?H2, H1; reflexivity]]]); reflexivity.
  - unfold NoteDetailView_delete.
    destruct (ORM.Note_get w pk u) as [note|] eqn:G; [|now left].
    right. right. right. simpl. eexists. split; [reflexivity|].
    intros _ m Hm Hsel. simpl in Hsel. apply Z.eqb_eq in Hsel.
    destruct (Note_get_Some _ _ _ _ G) as (Hin & _ & Ho).
    rewrite (NoDup_map_inj Note.id (notes w) m note (wf_pk w Hw) Hm Hin Hsel).
    exact Ho.
  - unfold NoteCategorySearchView_delete, bulk_delete.
    destruct (existsb _ (notes w)); [|now left].
    right. right. right. simpl. eexists. split; [reflexivity|]. discriminate.
  - unfold NoteTagSearchView_delete, bulk_delete.
    destruct (existsb _ (notes w)); [|now left].
    right. right. right. simpl. eexists. split; [reflexivity|].
    intros _ m _ Hsel. unfold has_tag in Hsel.
    apply andb_true_iff in Hsel. destruct Hsel as [_ Hsel]. now apply Z.eqb_eq.
  - left. unfold ReminderView_get.
    now destruct (classify w u (date_of t)) as [[[? ?] ?] ?].
  - left. unfold DraftView_post. destruct (negb (nid =? 0)); trivial.
    destruct (ORM.Note_get w nid u) as [note|]; trivial.
    unfold ORM.NoteVersion_create. now destruct (existsb _ (versions w)).
  - unfold VersionHistoryView_get. left. now destruct (ORM.Note_get w nid u).
  - unfold VersionHistoryView_post.
    destruct (ORM.NoteVersion_get w vid nid u) as [[version note0]|] eqn:G; [|now left].
    right. right. left.
    destruct (NoteVersion_get_Some _ _ _ _ _ _ G) as (G' & _).
    destruct (Note_get_Some _ _ _ _ G') as (Hin & _ & Ho).
    exists note0, (ORM.touch t (restore_fields note0 version)).
    split; [exact Hin|]. split; [exact Ho|].
    split; [reflexivity|]. split; [reflexivity|]. split; [reflexivity|].
    unfold ORM.NoteVersion_create. now destruct (existsb _ _).
Qed.

Lemma CreateNoteView_post_versions (env : Env) (w : World) (now user : Z)
    (data : NoteData) :
  versions (snd (CreateNoteView_post env w now user data)) = versions w.
Proof.
  unfold CreateNoteView_post.
  pose proof (is_valid_frame w now user false data) as H1. simpl in H1.
  destruct (is_valid w now user false data) as [[errs|vd] w1]; simpl in *.
  - tauto.
  - pose proof (NoteSerializer_create_frame env w1 now user vd) as H2.
    destruct (NoteSerializer_create env w1 now user vd) as [n w2]. simpl.
    destruct H1 as (_ & <- & _). tauto.
Qed.

Lemma NoteDetailView_put_versions (env : Env) (w : World) (now user pk : Z)
    (data : NoteData) :
  versions (snd (NoteDetailView_put env w now user pk data)) = versions w.
Proof.
  unfold NoteDetailView_put.
  destruct (ORM.Note_get w pk user) as [note|]; simpl; trivial.
  pose proof (is_valid_frame w now user true data) as H1. simpl in H1.
  destruct (is_valid w now user true data) as [[errs|vd] w1]; simpl in *.
  - tauto.
  - pose proof (NoteSerializer_update_frame env w1 now note vd) as H2.
    destruct (NoteSerializer_update env w1 now note vd) as [n w2]. simpl.
    destruct H1 as (_ & <- & _). tauto.
Qed.

(** The versions of one note after one call: the same; or one more, and
    the note is the caller's; or none, and the note is gone. *)
Lemma step_versions_of (w : World) (c : Call) (i : Z) :
  wf w ->
  ORM.versions_of (step w c) i = ORM.versions_of w i \/
  (exists v note,
     ORM.versions_of (step w c) i = ORM.versions_of w i ++ [v] /\
     In note (notes w) /\ Note.id note = i /\ Note.owner note = user c) \/
  (ORM.versions_of (step w c) i = [] /\ ~ In i (note_ids (step w c))).
Proof.
  intros Hw.
  assert (Hdel : forall sel,
    ORM.versions_of (ORM.Note_delete w sel) i = ORM.versions_of w i \/
    (exists v note,
       ORM.versions_of (ORM.Note_delete w sel) i = ORM.versions_of w i ++ [v] /\
       In note (notes w) /\ Note.id note = i /\ Note.owner note = user c) \/
    (ORM.versions_of (ORM.Note_delete w sel) i = [] /\
     ~ In i (note_ids (ORM.Note_delete w sel)))).
  { intros sel. rewrite versions_of_Note_delete.
    destruct (existsb _ (filter sel (notes w))) eqn:X; [right; right|now left].
    split; trivial.
    apply existsb_exists in X. destruct X as (m & Hm & Hid).
    apply filter_In in Hm. destruct Hm as [Hm Hsel]. apply Z.eqb_eq in Hid.
    unfold note_ids, ORM.Note_delete. simpl. intros Hin.
    apply in_map_iff in Hin. destruct Hin as (m' & Hid' & Hm').
    apply filter_In in Hm'. destruct Hm' as [Hm' Hsel'].
    assert (m = m').
    { apply (NoDup_map_inj Note.id (notes w)); trivial.
      - apply (wf_pk w Hw).
      - congruence. }
    subst m'. rewrite Hsel in Hsel'. discriminate. }
  assert (Hsame : forall w', versions w' = versions w ->
                    ORM.versions_of w' i = ORM.versions_of w i).
  { intros w' E. unfold ORM.versions_of. now rewrite E. }
  assert (Hadd : forall v note w',
            versions w' = versions w ++ [v] -> NoteVersion.note v = Note.id note ->
            In note (notes w) -> Note.owner note = user c ->
            ORM.versions_of w' i = ORM.versions_of w i \/
            (exists v note,
               ORM.versions_of w' i = ORM.versions_of w i ++ [v] /\
               In note (notes w) /\ Note.id note = i /\ Note.owner note = user c) \/
            (ORM.versions_of w' i = [] /\ ~ In i (note_ids w'))).
  { intros v note w' E Hv Hin Ho. rewrite (versions_of_snoc w' w v i E).
    destruct (NoteVersion.note v =? i) eqn:X.
    - right. left. apply Z.eqb_eq in X. exists v, note. repeat split; trivial. congruence.
    - left. apply app_nil_r. }
  destruct c as [u t e r]. unfold step, handle. simpl in *.
  destruct r as [data|pk data|pk|cat|tag| |nid data|nid|nid vid].
  - left. apply Hsame, CreateNoteView_post_versions.
  - left. apply Hsame, NoteDetailView_put_versions.
  - unfold NoteDetailView_delete.
    destruct (ORM.Note_get w pk u) as [note|]; simpl; [apply Hdel | now left].
  - unfold NoteCategorySearchView_delete, bulk_delete.
    destruct (existsb _ (notes w)); simpl; [apply Hdel | now left].
  - unfold NoteTagSearchView_delete, bulk_delete.
    destruct (existsb _ (notes w)); simpl; [apply Hdel | now left].
  - left. unfold ReminderView_get.
    now destruct (classify w u (date_of t)) as [[[? ?] ?] ?].
  - destruct (Z.eq_dec nid 0) as [->|Hz]; [now left|].
    destruct (ORM.Note_get w nid u) as [note|] eqn:G.
    + destruct (DraftView_post_ok w t u nid data note Hw Hz G) as [E _].
      rewrite E. simpl.
      destruct (Note_get_Some _ _ _ _ G) as (Hin & _ & Ho).
      apply (Hadd (draft_version w t note data) note); trivial.
    + left. unfold DraftView_post. apply Z.eqb_neq in Hz. now rewrite Hz, G.
  - left. unfold VersionHistoryView_get. now destruct (ORM.Note_get w nid u).
  - destruct (ORM.NoteVersion_get w vid nid u) as [[version note0]|] eqn:G.
    + destruct (VersionHistoryView_post_ok w t u nid vid version note0 Hw G) as [E _].
      rewrite E. simpl.
      destruct (NoteVersion_get_Some _ _ _ _ _ _ G) as (G' & _).
      destruct (Note_get_Some _ _ _ _ G') as (Hin & _ & Ho).
      destruct (Hadd (restored_version w t note0 version) note0
                     (restored_world w t note0 version) eq_refl eq_refl Hin Ho)
        as [H|[H|[H1 H2]]]; auto.
    + left. unfold VersionHistoryView_post. now rewrite G.
Qed.

(** ** Isolation of the users *)

Section OthersFacts.
Context (u : Z).
Let others (n : Note.t) : bool := negb (Note.owner n =? u).

Lemma others_app_own (l : list Note.t) (n : Note.t) :
  Note.owner n = u -> filter others (l ++ [n]) = filter others l.
Proof.
  intros E. rewrite filter_app. simpl. unfold others at 2.
  rewrite E, Z.eqb_refl. simpl. apply app_nil_r.
Qed.

Lemma others_map_own (l : list Note.t) (pk : Z) (n' : Note.t) :
  (forall m, In m l -> Note.id m = pk -> Note.owner m = u) -> Note.owner n' = u ->
  filter others (map (fun m => if Note.id m =? pk then n' else m) l) = filter others l.
Proof.
  intros H E. induction l as [|m l IH]; simpl; trivial.
  rewrite IH by (intros x Hx; apply H; now right).
  destruct (Note.id m =? pk) eqn:X; trivial.
  apply Z.eqb_eq in X. unfold others.
  rewrite E, (H m (or_introl eq_refl) X), Z.eqb_refl. reflexivity.
Qed.

Lemma others_filter_own (l : list Note.t) (sel : Note.t -> bool) :
  (forall m, In m l -> sel m = true -> Note.owner m = u) ->
  filter others (filter (fun n => negb (sel n)) l) = filter others l.
Proof.
  intros H. induction l as [|m l IH]; simpl; trivial.
  rewrite <- IH by (intros x Hx; apply H; now right).
  destruct (sel m) eqn:S; simpl; trivial.
  assert (X : others m = false).
  { unfold others. now rewrite (H m (or_introl eq_refl) S), Z.eqb_refl. }
  now rewrite X.
Qed.
End OthersFacts.

(** X4. In every reachable store, a call of a user, whatever it is except
    the bulk delete by category, leaves the notes of all other users as
    they are, row by row, together with all their versions; and no call
    at all touches the categories of other users. *)
Theorem other_users_untouched (calls : list Call) (c : Call) :
  let w := run empty_world calls in
  (not_delete_by_category c = true ->
   notes_of_others (step w c) (user c) = notes_of_others w (user c) /\
   forall n, In n (notes w) -> Note.owner n <> user c ->
             ORM.versions_of (step w c) (Note.id n) = ORM.versions_of w (Note.id n)) /\
  categories_of_others (step w c) (user c) = categories_of_others w (user c).
Proof.
  intros w. assert (Hw : wf w) by (apply wf_run, wf_empty).
  split.
  - intros Hc.
    assert (Hnotes : notes_of_others (step w c) (user c) = notes_of_others w (user c)).
    { unfold notes_of_others.
      destruct (step_notes_shape w c Hw)
        as [E|[(n & E & _ & Ho & _)|[(note & n' & Hin & Ho & Hid & Ho' & _ & E)
                                    |(sel & E & Hsel)]]]; rewrite E.
      - reflexivity.
      - now apply others_app_own.
      - apply others_map_own; [|congruence].
        intros m Hm Em.
        now rewrite (NoDup_map_inj Note.id (notes w) m note (wf_pk w Hw) Hm Hin Em).
      - apply others_filter_own. now apply Hsel. }
    split; trivial.
    intros n Hn Ho.
    destruct (step_versions_of w c (Note.id n) Hw)
      as [E|[(v & note & _ & Hin & Hid & Ho')|[_ Habs]]]; trivial.
    + elim Ho.
      now rewrite (NoDup_map_inj Note.id (notes w) n note (wf_pk w Hw) Hn Hin
                     (eq_sym Hid)).
    + elim Habs.
      assert (X : In n (notes_of_others (step w c) (user c))).
      { rewrite Hnotes. apply filter_In. split; trivial.
        apply negb_true_iff. now apply Z.eqb_neq. }
      apply filter_In in X. unfold note_ids. apply in_map. tauto.
  - unfold categories_of_others.
    destruct (step_categories_shape w c) as [[E _]|(k & E & _ & _ & Ho & _)];
      rewrite E; trivial.
    rewrite filter_app. simpl. rewrite Ho, Z.eqb_refl. simpl. apply app_nil_r.
Qed.

(** Bob edits and deletes his own note; Alice's note and its draft stay. *)
Lemma other_users_untouched_witness :
  let bobs := mkCall Sample.bob Sample.noon Sample.env_up (POST_notes Sample.groceries) in
  let w := run empty_world [Sample.create; Sample.draft; bobs] in
  let c := mkCall Sample.bob (Sample.noon + 9) Sample.env_up (DELETE_note 2) in
  notes_of_others (step w c) Sample.bob = notes_of_others w Sample.bob /\
  notes_of_others w Sample.bob = [Sample.stored_note] /\
  notes (step w c) = [Sample.stored_note].
Proof.
  intros bobs w c.
  destruct (other_users_untouched [Sample.create; Sample.draft; bobs] c) as [H _].
  destruct (H eq_refl) as [E _].
  split; [exact E|]. split; vm_compute; reflexivity.
Defined.

(** ** Deleting notes *)

Lemma Note_get_absent (w : World) (pk user : Z) :
  ~ In pk (note_ids w) -> ORM.Note_get w pk user = None.
Proof.
  intros H. destruct (ORM.Note_get w pk user) as [n|] eqn:G; trivial.
  elim H. eapply Note_get_in_ids; eauto.
Qed.

Lemma versions_of_absent (w : World) (pk : Z) :
  wf w -> ~ In pk (note_ids w) -> ORM.versions_of w pk = [].
Proof.
  intros Hw H. destruct (ORM.versions_of w pk) as [|v l] eqn:E; trivial.
  elim H. assert (Hv : In v (ORM.versions_of w pk)) by (rewrite E; now left).
  unfold ORM.versions_of in Hv. apply filter_In in Hv. destruct Hv as [Hv X].
  apply Z.eqb_eq in X. rewrite <- X. now apply (wf_fk w Hw).
Qed.

(** A removal of selected notes in a well-formed store. *)
Lemma Note_delete_effect (w : World) (sel : Note.t -> bool) :
  wf w ->
  let w' := ORM.Note_delete w sel in
  notes w' = filter (fun n => negb (sel n)) (notes w) /\
  categories w' = categories w /\
  (forall n, In n (notes w) -> sel n = false ->
     In n (notes w') /\ ORM.versions_of w' (Note.id n) = ORM.versions_of w (Note.id n)) /\
  (forall n, In n (notes w) -> sel n = true ->
     ~ In (Note.id n) (note_ids w') /\ ORM.versions_of w' (Note.id n) = []) /\
  (forall v, In v (versions w') -> In v (versions w)).
Proof.
  intros Hw w'. split; [reflexivity|]. split; [reflexivity|].
  assert (Hkey : forall n, In n (notes w) ->
            existsb (fun m => Note.id m =? Note.id n) (filter sel (notes w)) = sel n).
  { intros n Hn. destruct (sel n) eqn:S.
    - apply existsb_exists. exists n. split; [|apply Z.eqb_refl].
      apply filter_In. auto.
    - destruct (existsb _ _) eqn:X; trivial.
      apply existsb_exists in X. destruct X as (m & Hm & E).
      apply filter_In in Hm. destruct Hm as [Hm Sm]. apply Z.eqb_eq in E.
      rewrite (NoDup_map_inj Note.id (notes w) m n (wf_pk w Hw) Hm Hn E) in Sm.
      congruence. }
  split; [|split].
  - intros n Hn S. split.
    + apply filter_In. split; trivial. now rewrite S.
    + unfold w'. now rewrite versions_of_Note_delete, (Hkey n Hn), S.
  - intros n Hn S. split.
    + unfold note_ids, w', ORM.Note_delete. simpl. intros Hin.
      apply in_map_iff in Hin. destruct Hin as (m & E & Hm).
      apply filter_In in Hm. destruct Hm as [Hm Sm].
      rewrite (NoDup_map_inj Note.id (notes w) m n (wf_pk w Hw) Hm Hn E) in Sm.
      rewrite S in Sm. discriminate.
    + unfold w'. now rewrite versions_of_Note_delete, (Hkey n Hn), S.
  - intros v Hv. unfold w', ORM.Note_delete in Hv. simpl in Hv.
    now apply filter_In in Hv.
Qed.

(** X5. In every reachable store, deleting a note of the caller answers
    204 and removes exactly that note and all of its versions: every other
    note stays, with its versions, and the categories stay.  A key that
    resolves to no note of the caller answers 404 and changes nothing. *)
Theorem delete_note_effect (calls : list Call) (user pk : Z) :
  let w := run empty_world calls in
  let r := NoteDetailView_delete w user pk in
  (forall note, ORM.Note_get w pk user = Some note ->
     status_code (fst r) = 204 /\
     notes (snd r) = filter (fun n => negb (Note.id n =? pk)) (notes w) /\
     ~ In pk (note_ids (snd r)) /\ ORM.versions_of (snd r) pk = [] /\
     (forall n, In n (notes w) -> n <> note ->
        In n (notes (snd r)) /\
        ORM.versions_of (snd r) (Note.id n) = ORM.versions_of w (Note.id n)) /\
     categories (snd r) = categories w) /\
  (ORM.Note_get w pk user = None -> r = (HTTP_404 "Note not found", w)).
Proof.
  intros w r. assert (Hw : wf w) by (apply wf_run, wf_empty).
  unfold r, NoteDetailView_delete. split.
  - intros note G. rewrite G. simpl.
    destruct (Note_get_Some _ _ _ _ G) as (Hin & Hid & _).
    destruct (Note_delete_effect w (fun n => Note.id n =? Note.id note) Hw)
      as (E1 & E2 & Hkeep & Hgone & _).
    rewrite Hid in *.
    split; trivial. split; [exact E1|].
    destruct (Hgone note Hin) as [H1 H2]; [rewrite Hid; apply Z.eqb_refl|].
    rewrite Hid in H1, H2.
    split; trivial. split; trivial. split; trivial.
    intros n Hn Hne. apply Hkeep; trivial.
    apply Z.eqb_neq. intros E. apply Hne.
    apply (NoDup_map_inj Note.id (notes w)); trivial; [apply (wf_pk w Hw)|congruence].
  - intros G. now rewrite G.
Qed.

(** Alice deletes her note after a draft; Bob cannot delete it. *)
Lemma delete_note_witness :
  let w := run empty_world [Sample.create; Sample.draft] in
  (notes (snd (NoteDetailView_delete w Sample.alice 1)) = [] /\
   ORM.versions_of (snd (NoteDetailView_delete w Sample.alice 1)) 1 = []) /\
  NoteDetailView_delete w Sample.bob 1 = (HTTP_404 "Note not found", w).
Proof.
  intros w.
  destruct (delete_note_effect [Sample.create; Sample.draft] Sample.alice 1) as [H _].
  destruct (delete_note_effect [Sample.create; Sample.draft] Sample.bob 1) as [_ H'].
  split.
  - destruct (H Sample.stored_note) as (_ & E & _ & Hv & _); [vm_compute; reflexivity|].
    split; [|exact Hv]. etransitivity; [exact E|]. vm_compute. reflexivity.
  - apply H'. vm_compute. reflexivity.
Defined.

(** X6. A deleted note does not come back: once a note of the caller has
    been deleted, its key resolves to no note for any user after any
    further calls (primary keys are not reused), it has no version, and
    every request that addresses it is answered 404. *)
Theorem deleted_note_stays_deleted (calls1 calls2 : list Call) (user pk : Z) :
  let w := run empty_world calls1 in
  status_code (fst (NoteDetailView_delete w user pk)) = 204 ->
  let w' := run (snd (NoteDetailView_delete w user pk)) calls2 in
  ~ In pk (note_ids w') /\
  ORM.versions_of w' pk = [] /\
  (forall u, ORM.Note_get w' pk u = None) /\
  (forall u env now data,
     NoteDetailView_put env w' now u pk data = (HTTP_404 "Note not found", w')) /\
  (forall u, NoteDetailView_delete w' u pk = (HTTP_404 "Note not found", w')) /\
  (forall u now data,
     DraftView_post w' now u pk data = (HTTP_404 "Note not found", w')) /\
  (forall u, VersionHistoryView_get w' u pk = (HTTP_404 "Note not found", w')) /\
  (forall u now vid,
     VersionHistoryView_post w' now u pk vid = (HTTP_404 "Version not found", w')).
Proof.
  intros w Hs w'.
  assert (Hw : wf w) by (apply wf_run, wf_empty).
  assert (G : exists note, ORM.Note_get w pk user = Some note).
  { unfold NoteDetailView_delete in Hs.
    destruct (ORM.Note_get w pk user) as [note|]; [eauto | discriminate Hs]. }
  destruct G as [note G].
  set (w1 := snd (NoteDetailView_delete w user pk)) in *.
  assert (Hw1 : wf w1).
  { unfold w1, NoteDetailView_delete. rewrite G. simpl. now apply wf_Note_delete. }
  assert (Hw' : wf w') by now apply wf_run.
  assert (Habs : ~ In pk (note_ids w')).
  { apply absent_forever.
    - unfold w1, NoteDetailView_delete. rewrite G. simpl.
      destruct (Note_get_Some _ _ _ _ G) as (Hin & Hid & _).
      destruct (Note_delete_effect w (fun n => Note.id n =? Note.id note) Hw)
        as (_ & _ & _ & Hgone & _).
      destruct (Hgone note Hin (Z.eqb_refl _)) as [H _].
      intros X. rewrite <- Hid in X. exact (H X).
    - unfold w1, NoteDetailView_delete. rewrite G. simpl.
      apply (wf_fresh w Hw). eapply Note_get_in_ids; eauto. }
  assert (Hget : forall u, ORM.Note_get w' pk u = None)
    by (intros u; now apply Note_get_absent).
  assert (Hpos : pk <> 0).
  { pose proof (wf_positive w Hw pk (Note_get_in_ids _ _ _ _ G)). lia. }
  split; trivial. split; [now apply versions_of_absent|]. split; trivial.
  split; [|split; [|split; [|split]]].
  - intros u env now data. unfold NoteDetailView_put. now rewrite Hget.
  - intros u. unfold NoteDetailView_delete. now rewrite Hget.
  - intros u now data. unfold DraftView_post.
    apply Z.eqb_neq in Hpos. now rewrite Hpos, Hget.
  - intros u. unfold VersionHistoryView_get. now rewrite Hget.
  - intros u now vid. unfold VersionHistoryView_post, ORM.NoteVersion_get.
    destruct vid as [vid|]; trivial.
    destruct (find _ (versions w')); trivial. now rewrite Hget.
Qed.

(** Alice deletes her note; after Bob has created one, key 1 is still
    free and Bob's note has key 2. *)
Lemma deleted_note_witness :
  let w := run empty_world [Sample.create; Sample.draft] in
  let bobs := mkCall Sample.bob Sample.noon Sample.env_up (POST_notes Sample.groceries) in
  let w' := run (snd (NoteDetailView_delete w Sample.alice 1)) [bobs] in
  (forall u, ORM.Note_get w' 1 u = None) /\ note_ids w' = [2].
Proof.
  intros w bobs w'.
  destruct (deleted_note_stays_deleted [Sample.create; Sample.draft] [bobs]
              Sample.alice 1 eq_refl) as (_ & _ & H & _).
  split; [exact H | reflexivity].
Defined.

(** ** What never changes on a note *)

(** Where a note after one call comes from. *)
Lemma step_note_origin (w : World) (c : Call) (n : Note.t) :
  wf w -> In n (notes (step w c)) ->
  (exists n0, In n0 (notes w) /\ Note.id n0 = Note.id n /\
              Note.owner n0 = Note.owner n /\ Note.created_at n0 = Note.created_at n) \/
  Note.id n = next_note_id w.
Proof.
  intros Hw Hn.
  destruct (step_notes_shape w c Hw)
    as [E|[(n1 & E & Hid & _)|[(note & n' & Hin & _ & Hid & Ho & Hc & E)|(sel & E & _)]]];
    rewrite E in Hn.
  - left. exists n. auto.
  - apply in_app_or in Hn. destruct Hn as [Hn|[<-|[]]]; [left; exists n|]; auto.
  - apply in_map_iff in Hn. destruct Hn as (m & Em & Hm). left.
    destruct (Note.id m =? Note.id note) eqn:X.
    + subst n. exists note. auto.
    + subst n. exists m. auto.
  - apply filter_In in Hn. left. exists n. tauto.
Qed.

Lemma run_note_origin (calls : list Call) (w : World) (n : Note.t) :
  wf w -> In n (notes (run w calls)) ->
  (exists n0, In n0 (notes w) /\ Note.id n0 = Note.id n /\
              Note.owner n0 = Note.owner n /\ Note.created_at n0 = Note.created_at n) \/
  next_note_id w <= Note.id n.
Proof.
  revert w. induction calls as [|c calls IH]; intros w Hw Hn; simpl in Hn.
  - left. exists n. auto.
  - destruct (step_note_ids w c) as [_ Hmono].
    destruct (IH (step w c) (wf_step w c Hw) Hn) as [(n1 & H1 & Hid & Ho & Hc)|Hge].
    + destruct (step_note_origin w c n1 Hw H1) as [(n0 & H0 & Hid0 & Ho0 & Hc0)|Hnew].
      * left. exists n0. repeat split; congruence.
      * right. lia.
    + right. lia.
Qed.

(** X7. The owner and the creation time of a note never change: a note
    found under the same key in a reachable store and in any later store
    has the same owner and the same [created_at]. *)
Theorem owner_and_created_at_fixed (calls1 calls2 : list Call) (n1 n2 : Note.t) :
  let w1 := run empty_world calls1 in
  let w2 := run w1 calls2 in
  In n1 (notes w1) -> In n2 (notes w2) -> Note.id n1 = Note.id n2 ->
  Note.owner n2 = Note.owner n1 /\ Note.created_at n2 = Note.created_at n1.
Proof.
  intros w1 w2 H1 H2 E.
  assert (Hw : wf w1) by (apply wf_run, wf_empty).
  destruct (run_note_origin calls2 w1 n2 Hw H2) as [(n0 & H0 & Hid & Ho & Hc)|Hge].
  - assert (n0 = n1).
    { apply (NoDup_map_inj Note.id (notes w1)); trivial; [apply (wf_pk w1 Hw)|congruence]. }
    subst n0. auto.
  - pose proof (wf_fresh w1 Hw (Note.id n1) (in_map Note.id _ _ H1)). lia.
Qed.

(** After an edit and a restore the sample note is still Alice's, created
    at noon. *)
Lemma owner_fixed_witness :
  Note.owner (hd Sample.stored_note
                (notes (run (run empty_world [Sample.create; Sample.draft])
                            [Sample.edit; Sample.restore]))) = Sample.alice /\
  Note.created_at (hd Sample.stored_note
                     (notes (run (run empty_world [Sample.create; Sample.draft])
                                 [Sample.edit; Sample.restore]))) = Sample.noon.
Proof.
  apply (owner_and_created_at_fixed [Sample.create; Sample.draft]
           [Sample.edit; Sample.restore] Sample.stored_note
           (hd Sample.stored_note
              (notes (run (run empty_world [Sample.create; Sample.draft])
                          [Sample.edit; Sample.restore])))).
  - vm_compute. auto.
  - vm_compute. auto.
  - vm_compute. reflexivity.
Defined.

(** ** Answers *)


(** X9. In every reachable store, a bulk delete by tag that selects at
    least one note answers 204 and removes exactly the caller's notes that
    carry the tag, each with all its versions; every other note stays with
    its versions.  The bulk delete by category does the same for the notes
    filed under a category of the caller whose name contains the given
    text, whatever the case of the letters.  Either one, when it selects
    no note, builds no response (a server error) and changes nothing. *)
Theorem bulk_delete_effect (calls : list Call) (user : Z) (text : string) :
  let w := run empty_world calls in
  bulk_delete_spec w (has_tag user text) (NoteTagSearchView_delete w user text) /\
  bulk_delete_spec w (in_category w user text)
                   (NoteCategorySearchView_delete w user text).
Proof.
  intros w. assert (Hw : wf w) by (apply wf_run, wf_empty).
  assert (H : forall sel, bulk_delete_spec w sel (bulk_delete w sel)).
  { intros sel. unfold bulk_delete_spec, bulk_delete.
    split; intros X; rewrite X; trivial. simpl.
    destruct (Note_delete_effect w sel Hw) as (E1 & E2 & Hkeep & Hgone & _).
    auto 10. }
  split; apply H.
Qed.

(** Alice deletes what she tagged "food"; a tag nobody uses gives no
    response. *)
Lemma bulk_delete_witness :
  let w := run empty_world [Sample.create; Sample.draft] in
  (notes (snd (NoteTagSearchView_delete w Sample.alice "food")) = [] /\
   versions (snd (NoteTagSearchView_delete w Sample.alice "food")) = []) /\
  NoteTagSearchView_delete w Sample.alice "drinks" = (HTTP_500, w).
Proof.
  intros w. split.
  - destruct (bulk_delete_effect [Sample.create; Sample.draft] Sample.alice "food")
      as [[_ H] _].
    destruct (H eq_refl) as (_ & E & _).
    split; [etransitivity; [exact E|]|]; vm_compute; reflexivity.
  - destruct (bulk_delete_effect [Sample.create; Sample.draft] Sample.alice "drinks")
      as [[H _] _].
    apply H. vm_compute. reflexivity.
Defined.

(** ** What an accepted request has been checked for *)

(** An accepted request: every field passed, and the validated data are
    the values of the fields. *)
Lemma is_valid_accepts (w : World) (now user : Z) (partial : bool) (data : NoteData)
    (vd : ValidatedData) (w1 : World) :
  is_valid w now user partial data = (inr vd, w1) ->
  let f_title := run_validation partial true (CharField (Some 255) false) (d_title data) in
  let f_category := fst (category_field w user partial data) in
  let f_tags :=
    run_validation partial true (ListField (CharField (Some 50) false)) (d_tags data) in
  let f_content := run_validation partial true (CharField None false) (d_content data) in
  let f_summary := run_validation partial false (CharField None true) (d_summary data) in
  let f_reminder_date := reminder_date_field now partial data in
  let f_is_favorite := run_validation partial false (@Valid bool) (d_is_favorite data) in
  w1 = snd (category_field w user partial data) /\
  vd = mkValidated (value f_title) (value f_category) (value f_tags) (value f_content)
                   (value f_summary) (value f_reminder_date) (value f_is_favorite) /\
  error "title" f_title = [] /\ error "category" f_category = [] /\
  error "tags" f_tags = [] /\ error "content" f_content = [] /\
  error "reminder_date" f_reminder_date = [].
Proof.
  unfold is_valid, category_field, reminder_date_field.
  destruct (match run_validation partial true (CategorySerializer partial) (d_category data)
            with
            | Valid v => validate_category w user v
            | Invalid m => (Invalid m, w)
            | Skip => (Skip, w)
            end) as [fc w1'].
  destruct (error "title" _ ++ _) as [|e l] eqn:E; [|discriminate].
  intros H. injection H as <- <-. simpl.
  apply app_eq_nil in E. destruct E as [E1 E].
  apply app_eq_nil in E. destruct E as [E2 E].
  apply app_eq_nil in E. destruct E as [E3 E].
  apply app_eq_nil in E. destruct E as [E4 E].
  apply app_eq_nil in E. destruct E as [_ E].
  apply app_eq_nil in E. destruct E as [E6 _].
  auto 10.
Qed.

(** A text field that passed: absent in a partial update, or present, and
    then its value is the trimmed text, which is not empty and within the
    bound. *)
Lemma CharField_passed (name : string) (partial : bool) (max_length : option Z)
    (d : option string) :
  error name (run_validation partial true (CharField max_length false) d) = [] ->
  (d = None /\ partial = true /\
   value (run_validation partial true (CharField max_length false) d) = None) \/
  (exists t, d = Some t /\
     value (run_validation partial true (CharField max_length false) d) = Some (Py.strip t) /\
     Py.strip t <> "" /\
     forall m, max_length = Some m -> Py.len (Py.strip t) <= m).
Proof.
  destruct d as [t|]; simpl.
  - unfold CharField. destruct (Py.strip t) as [|a s] eqn:S; simpl; [discriminate|].
    destruct max_length as [m|].
    + destruct (m <? Py.len (String a s)) eqn:L; simpl; [discriminate|].
      intros _. right. exists t. rewrite S. repeat split; try discriminate.
      intros m' E. injection E as <-. now apply Z.ltb_ge.
    + intros _. right. exists t. rewrite S. repeat split; discriminate.
  - destruct partial; simpl; [auto | discriminate].
Qed.

Lemma CharField_50 (t : string) :
  (CharField (Some 50) false t = Valid (Py.strip t) /\ clean_text 50 (Py.strip t)) \/
  exists m, CharField (Some 50) false t = Invalid m.
Proof.
  unfold CharField. destruct (Py.strip t) as [|a s] eqn:S; simpl; [eauto|].
  destruct (50 <? Py.len (String a s)) eqn:L; simpl; [eauto|].
  left. split; trivial. split; [discriminate | now apply Z.ltb_ge].
Qed.

Lemma ListField_result (l : list string) :
  (ListField (CharField (Some 50) false) l = Valid (map Py.strip l) /\
   Forall (clean_text 50) (map Py.strip l)) \/
  exists m, ListField (CharField (Some 50) false) l = Invalid m.
Proof.
  induction l as [|t l IH]; simpl.
  - left. split; [reflexivity | constructor].
  - destruct (CharField_50 t) as [[-> C]|[m ->]]; [|eauto].
    destruct IH as [[-> F]|[m ->]]; [left | eauto].
    split; trivial. now constructor.
Qed.

Lemma tags_passed (partial : bool) (d : option (list string)) :
  error "tags" (run_validation partial true (ListField (CharField (Some 50) false)) d) = [] ->
  (d = None /\ partial = true /\
   value (run_validation partial true (ListField (CharField (Some 50) false)) d) = None) \/
  (exists l, d = Some l /\
     value (run_validation partial true (ListField (CharField (Some 50) false)) d)
       = Some (map Py.strip l) /\
     Forall (clean_text 50) (map Py.strip l)).
Proof.
  destruct d as [l|]; simpl.
  - destruct (ListField_result l) as [[-> F]|[m ->]]; simpl; [|discriminate].
    intros _. right. eauto.
  - destruct partial; simpl; [auto | discriminate].
Qed.

(** A category field that passed: absent in a partial update, or a
    dictionary with a name, for which the category of the user under the
    normalised name is in the store afterwards. *)
Lemma category_passed (w : World) (user : Z) (partial : bool) (data : NoteData) :
  error "category" (fst (category_field w user partial data)) = [] ->
  (d_category data = None /\ partial = true /\
   category_field w user partial data = (Skip, w)) \/
  (exists name c,
     d_category data = Some (CategoryDict (Some name)) /\
     fst (category_field w user partial data) = Valid c /\
     In c (categories (snd (category_field w user partial data))) /\
     Category.name c = normalised_name name /\ Category.owner c = user /\
     clean_text 50 (Py.strip name)).
Proof.
  unfold category_field.
  destruct (d_category data) as [[[name|]|]|]; simpl.
  - unfold CategorySerializer, CharField.
    destruct (Py.strip name) as [|a s] eqn:S; simpl; [discriminate|].
    destruct (50 <? Py.len (String a s)) eqn:L; simpl; [discriminate|].
    intros _. right.
    pose proof (get_or_create_frame w (Py.lower (Py.strip (String a s))) user) as F.
    destruct (ORM.Category_get_or_create w (Py.lower (Py.strip (String a s))) user)
      as [c w1].
    destruct F as (_ & _ & _ & _ & _ & Hn & Ho & Hin & _).
    exists name, c. simpl. repeat split; trivial.
    + unfold normalised_name. now rewrite S.
    + rewrite S. discriminate.
    + rewrite S. now apply Z.ltb_ge.
  - destruct partial; simpl; discriminate.
  - discriminate.
  - destruct partial; simpl; [auto | discriminate].
Qed.

(** A reminder date that passed is the one of the request, and is null or
    not before the day of the request. *)
Lemma reminder_date_passed (now : Z) (partial : bool) (data : NoteData) :
  error "reminder_date" (reminder_date_field now partial data) = [] ->
  value (reminder_date_field now partial data) = d_reminder_date data /\
  forall d, d_reminder_date data = Some (Some d) -> date_of now <= d.
Proof.
  unfold reminder_date_field.
  destruct (d_reminder_date data) as [[d|]|]; simpl.
  - destruct (d <? date_of now) eqn:L; simpl; [discriminate|].
    intros _. split; trivial. intros d' E. injection E as <-. now apply Z.ltb_ge.
  - intros _. split; trivial. discriminate.
  - destruct partial; simpl; intros _; split; trivial; discriminate.
Qed.

Lemma absent_field_value {A : Type} (partial : bool) (d : option A) :
  value (run_validation partial false (@Valid A) d) = d.
Proof. destruct d; simpl; trivial. now destruct partial. Qed.

(** The helper's answer does not depend on the store, and is never the
    empty string. *)
Lemma summary_text (env : Env) (w w' : World) (content : string) :
  fst (_get_openrouter_summary env w content) =
  fst (_get_openrouter_summary env w' content) /\
  fst (_get_openrouter_summary env w content) <> "".
Proof.
  unfold _get_openrouter_summary.
  destruct (OPENROUTER_API_KEY env) as [k|]; simpl; [|split; [trivial | discriminate]].
  destruct (negb (Py.truthy k)); simpl; [split; [trivial | discriminate]|].
  destruct (openrouter env content) as [e|e|e|t]; simpl;
    try (split; [trivial | discriminate]).
  split; trivial. destruct (Py.strip t); simpl; discriminate.
Qed.

Lemma truthy_nonempty (s : string) : s <> "" -> Py.truthy s = true.
Proof. destruct s; [now intros H; elim H | reflexivity]. Qed.

(** X10. A create that is answered 201 has stored a note of the caller
    under the next key whose title, content and tags are the trimmed
    texts of the request, none of them empty, the title of at most 255 and
    each tag of at most 50 characters; whose category is the caller's
    category of the normalised name, present in the store; whose reminder
    date is the one of the request and is null or not before the day of
    the request; and whose summary is the helper's answer for the content,
    never empty, whatever summary the request carried. *)
Theorem created_note_is_validated (env : Env) (w : World) (now user : Z)
    (data : NoteData) (n : Note.t) (w' : World) :
  CreateNoteView_post env w now user data = (mkResponse 201 (NoteBody n), w') ->
  exists title content tags name c,
    d_title data = Some title /\ d_content data = Some content /\
    d_tags data = Some tags /\ d_category data = Some (CategoryDict (Some name)) /\
    Note.title n = Py.strip title /\ clean_text 255 (Note.title n) /\
    Note.content n = Py.strip content /\ Note.content n <> "" /\
    Note.tags n = map Py.strip tags /\ Forall (clean_text 50) (Note.tags n) /\
    Note.category n = Some (Category.id c) /\ In c (categories w') /\
    Category.owner c = user /\ Category.name c = normalised_name name /\
    Note.reminder_date n = Py.get (d_reminder_date data) None /\
    (forall d, Note.reminder_date n = Some d -> date_of now <= d) /\
    Note.is_favorite n = Py.get (d_is_favorite data) false /\
    Note.summary n = fst (_get_openrouter_summary env w (Py.strip content)) /\
    Note.summary n <> "" /\
    summary_calls w' = summary_calls w ++ [Py.strip content] /\
    Note.owner n = user /\ Note.id n = next_note_id w /\
    Note.created_at n = now /\ Note.updated_at n = now /\
    notes w' = notes w ++ [n] /\ versions w' = versions w.
Proof.
  intros H. unfold CreateNoteView_post in H.
  destruct (is_valid w now user false data) as [[errs|vd] w1] eqn:V; [discriminate H|].
  destruct (is_valid_accepts _ _ _ _ _ _ _ V) as (Ew1 & Evd & Et & Ec & Etg & Ecn & Er).
  pose proof (is_valid_frame w now user false data) as F. rewrite V in F. simpl in F.
  destruct F as (F1 & F2 & F3 & _ & F5 & _).
  destruct (CharField_passed "title" false (Some 255) (d_title data) Et)
    as [(_ & X & _)|(title & Dt & Vt & Nt & Lt)]; [discriminate X|].
  destruct (CharField_passed "content" false None (d_content data) Ecn)
    as [(_ & X & _)|(content & Dc & Vc & Nc & _)]; [discriminate X|].
  destruct (tags_passed false (d_tags data) Etg)
    as [(_ & X & _)|(tags & Dtg & Vtg & Ftg)]; [discriminate X|].
  destruct (category_passed w user false data Ec)
    as [(_ & X & _)|(name & c & Dcat & Vcat & Hin & Hname & Hown & _)]; [discriminate X|].
  destruct (reminder_date_passed now false data Er) as [Vr Hr].
  rewrite <- Ew1 in Hin.
  unfold NoteSerializer_create in H. rewrite Evd in H.
  cbn [vd_title vd_category vd_tags vd_content vd_summary vd_reminder_date
       vd_is_favorite] in H.
  rewrite Vt, Vc, Vtg, Vcat, Vr, absent_field_value in H.
  cbn [Py.get option_map] in H. rewrite (truthy_nonempty _ Nc) in H.
  pose proof (summary_frame env w1 (Py.strip content)) as S.
  destruct (summary_text env w1 w (Py.strip content)) as [T1 T2].
  destruct (_get_openrouter_summary env w1 (Py.strip content)) as [s w2].
  simpl in S, T1, T2. destruct S as (S1 & S2 & S3 & S4 & _ & _ & S7).
  unfold ORM.Note_create in H. injection H as <- <-. simpl.
  exists title, content, tags, name, c.
  rewrite S1, S2, S3, S4, S7, F1, F2, F3, F5.
  repeat split; trivial; try (now apply Lt); try congruence.
  destruct (d_reminder_date data) as [[d'|]|]; simpl; intros d E; try discriminate E.
  injection E as <-. now apply Hr.
Qed.

(** The sample create. *)
Lemma created_note_witness :
  exists n w',
    CreateNoteView_post Sample.env_up empty_world Sample.noon Sample.alice Sample.groceries
    = (mkResponse 201 (NoteBody n), w') /\
    Note.title n = "Groceries" /\ Note.summary n <> "" /\
    exists c, In c (categories w') /\ Note.category n = Some (Category.id c) /\
              Category.name c = "home".
Proof.
  eexists. eexists. split; [vm_compute; reflexivity|].
  edestruct (created_note_is_validated Sample.env_up empty_world Sample.noon Sample.alice
               Sample.groceries)
    as (title & content & tags & name & c & Dt & _ & _ & Dn & Et & _ & _ & _ & _ & _
        & Ec & Hin & _ & En & _ & _ & _ & _ & Hs & _);
    [vm_compute; reflexivity|].
  split; [reflexivity|]. split; [exact Hs|].
  exists c. split; [exact Hin|]. split; [exact Ec|].
  rewrite En. injection Dn as <-. reflexivity.
Defined.

Lemma CharField_value (name : string) (partial : bool) (max_length : option Z)
    (d : option string) :
  error name (run_validation partial true (CharField max_length false) d) = [] ->
  value (run_validation partial true (CharField max_length false) d) =
  option_map Py.strip d.
Proof.
  intros E. destruct (CharField_passed name partial max_length d E)
    as [(-> & _ & V)|(t & -> & V & _)]; exact V.
Qed.

Lemma tags_value (partial : bool) (d : option (list string)) :
  error "tags" (run_validation partial true (ListField (CharField (Some 50) false)) d) = [] ->
  value (run_validation partial true (ListField (CharField (Some 50) false)) d) =
  option_map (map Py.strip) d.
Proof.
  intros E. destruct (tags_passed partial d E) as [(-> & _ & V)|(l & -> & V & _)]; exact V.
Qed.

Lemma summary_value (partial : bool) (d : option string) :
  value (run_validation partial false (CharField None true) d) = option_map Py.strip d.
Proof.
  destruct d as [s|]; simpl; [|now destruct partial].
  unfold CharField. now destruct (Py.strip s).
Qed.

(** X11. An update that is answered 200 has stored, under the same key,
    owner and creation time, the note in which each field that the request
    carries has the validated (trimmed) value of the request and every
    other field its old value; the summary is the helper's answer when the
    content differs from the stored one and otherwise the summary of the
    request or, without one, the old summary.  The other notes and all
    versions are as before. *)
Theorem partial_update_effect (env : Env) (w : World) (now user pk : Z)
    (data : NoteData) (note n : Note.t) (w' : World) :
  ORM.Note_get w pk user = Some note ->
  NoteDetailView_put env w now user pk data = (mkResponse 200 (NoteBody n), w') ->
  ORM.Note_get w' pk user = Some n /\
  Note.id n = pk /\ Note.owner n = user /\
  Note.created_at n = Note.created_at note /\ Note.updated_at n = now /\
  Note.title n = Py.get (option_map Py.strip (d_title data)) (Note.title note) /\
  Note.content n = Py.get (option_map Py.strip (d_content data)) (Note.content note) /\
  Note.tags n = Py.get (option_map (map Py.strip) (d_tags data)) (Note.tags note) /\
  Note.reminder_date n = Py.get (d_reminder_date data) (Note.reminder_date note) /\
  Note.is_favorite n = Py.get (d_is_favorite data) (Note.is_favorite note) /\
  Note.summary n =
    (if negb (String.eqb (Note.content n) (Note.content note))
     then fst (_get_openrouter_summary env w (Note.content n))
     else Py.get (option_map Py.strip (d_summary data)) (Note.summary note)) /\
  (d_category data = None -> Note.category n = Note.category note) /\
  (forall name, d_category data = Some (CategoryDict (Some name)) ->
     exists c, In c (categories w') /\ Note.category n = Some (Category.id c) /\
               Category.name c = normalised_name name /\ Category.owner c = user) /\
  (forall m, In m (notes w) -> Note.id m <> pk -> In m (notes w')) /\
  versions w' = versions w.
Proof.
  intros G H. unfold NoteDetailView_put in H. rewrite G in H.
  destruct (is_valid w now user true data) as [[errs|vd] w1] eqn:V; [discriminate H|].
  destruct (is_valid_accepts _ _ _ _ _ _ _ V) as (Ew1 & Evd & Et & Ec & Etg & Ecn & Er).
  pose proof (is_valid_frame w now user true data) as F. rewrite V in F. simpl in F.
  destruct F as (F1 & F2 & _).
  apply CharField_value in Et, Ecn. apply tags_value in Etg.
  destruct (reminder_date_passed now true data Er) as [Vr _].
  destruct (Note_get_Some _ _ _ _ G) as (Hin & Hid & Ho).
  assert (Hcat :
    (d_category data = None -> vd_category vd = None) /\
    (forall name, d_category data = Some (CategoryDict (Some name)) ->
       exists c, vd_category vd = Some c /\ In c (categories w1) /\
                 Category.name c = normalised_name name /\ Category.owner c = user)).
  { rewrite Evd. cbn [vd_category].
    destruct (category_passed w user true data Ec)
      as [(D & _ & X)|(name & c & D & Vc & Hc & Hn & Hown & _)].
    - rewrite X, D. split; [reflexivity | discriminate].
    - rewrite D, Vc, Ew1. split; [discriminate|].
      intros name' E. injection E as <-. exists c. simpl. auto. }
  destruct Hcat as [Hcat1 Hcat2].
  assert (Hfields :
    vd_title vd = option_map Py.strip (d_title data) /\
    vd_content vd = option_map Py.strip (d_content data) /\
    vd_tags vd = option_map (map Py.strip) (d_tags data) /\
    vd_summary vd = option_map Py.strip (d_summary data) /\
    vd_reminder_date vd = d_reminder_date data /\
    vd_is_favorite vd = d_is_favorite data).
  { rewrite Evd. cbn [vd_title vd_content vd_tags vd_summary vd_reminder_date
                      vd_is_favorite].
    rewrite Et, Ecn, Etg, Vr, summary_value, absent_field_value. auto 10. }
  destruct Hfields as (Ht & Hc & Htg & Hs & Hr & Hf).
  assert (Hsave : forall w2 m, notes w2 = notes w -> Note.id m = Note.id note ->
            Note.owner m = Note.owner note ->
            ORM.Note_get (ORM.Note_save w2 now m) pk user = Some (ORM.touch now m) /\
            forall x, In x (notes w) -> Note.id x <> pk ->
                      In x (notes (ORM.Note_save w2 now m))).
  { intros w2 m E Em Eo. split.
    - apply (Note_get_after_save w2 now pk user note m); trivial.
      rewrite <- G. now apply Note_get_notes.
    - intros x Hx Hne. unfold ORM.Note_save. simpl. rewrite E.
      apply in_map_iff. exists x. split; trivial.
      destruct (Note.id x =? Note.id m) eqn:X; trivial.
      apply Z.eqb_eq in X. congruence. }
  unfold NoteSerializer_update in H.
  rewrite <- Ht, <- Hc, <- Htg, <- Hs, <- Hr, <- Hf.
  assert (Hcat1' : d_category data = None ->
            match vd_category vd with
            | Some c => Some (Category.id c)
            | None => Note.category note
            end = Note.category note).
  { intros D. now rewrite (Hcat1 D). }
  assert (Hcat2' : forall w2, categories w2 = categories w1 ->
            forall name, d_category data = Some (CategoryDict (Some name)) ->
            exists c, In c (categories w2) /\
              match vd_category vd with
              | Some c => Some (Category.id c)
              | None => Note.category note
              end = Some (Category.id c) /\
              Category.name c = normalised_name name /\ Category.owner c = user).
  { intros w2 E name D. destruct (Hcat2 name D) as (c & -> & Hc1 & Hc2 & Hc3).
    exists c. rewrite E. auto. }
  destruct (vd_content vd) as [cnt|]; cbn [Py.get] in *.
  - destruct (String.eqb_spec cnt (Note.content note)) as [Eq|Ne];
      cbn [negb] in H.
    + injection H as <- <-. cbn [Note.id Note.owner Note.created_at Note.updated_at
        Note.title Note.content Note.tags Note.reminder_date Note.is_favorite
        Note.summary Note.category].
      rewrite Eq, String.eqb_refl. cbn [negb].
      destruct (Hsave w1 (Note.mk (Note.id note)
                  (Py.get (vd_title vd) (Note.title note))
                  (match vd_category vd with
                   | Some c => Some (Category.id c)
                   | None => Note.category note
                   end)
                  (Py.get (vd_tags vd) (Note.tags note)) (Note.content note)
                  (Py.get (vd_summary vd) (Note.summary note))
                  (Py.get (vd_reminder_date vd) (Note.reminder_date note))
                  (Note.created_at note) now (Note.owner note)
                  (Py.get (vd_is_favorite vd) (Note.is_favorite note)))
                 F1 eq_refl eq_refl) as [S1 S2].
      repeat split; trivial; try exact S1.
      now apply Hcat2'.
    + pose proof (summary_frame env w1 cnt) as SF.
      destruct (summary_text env w1 w cnt) as [T _].
      destruct (_get_openrouter_summary env w1 cnt) as [s w2]. simpl in SF, T.
      destruct SF as (SF1 & SF2 & SF3 & _).
      injection H as <- <-. cbn [Note.id Note.owner Note.created_at Note.updated_at
        Note.title Note.content Note.tags Note.reminder_date Note.is_favorite
        Note.summary Note.category Py.get].
      apply String.eqb_neq in Ne. rewrite Ne. cbn [negb].
      destruct (Hsave w2 (Note.mk (Note.id note)
                  (Py.get (vd_title vd) (Note.title note))
                  (match vd_category vd with
                   | Some c => Some (Category.id c)
                   | None => Note.category note
                   end)
                  (Py.get (vd_tags vd) (Note.tags note)) cnt s
                  (Py.get (vd_reminder_date vd) (Note.reminder_date note))
                  (Note.created_at note) now (Note.owner note)
                  (Py.get (vd_is_favorite vd) (Note.is_favorite note))))
        as [S1 S2]; [congruence | reflexivity | reflexivity |].
      repeat split; trivial; try exact S1; try congruence;
        try (simpl; congruence).
      apply Hcat2'. exact SF3.
  - injection H as <- <-. cbn [Note.id Note.owner Note.created_at Note.updated_at
      Note.title Note.content Note.tags Note.reminder_date Note.is_favorite
      Note.summary Note.category].
    rewrite String.eqb_refl. cbn [negb].
    destruct (Hsave w1 (Note.mk (Note.id note)
                (Py.get (vd_title vd) (Note.title note))
                (match vd_category vd with
                 | Some c => Some (Category.id c)
                 | None => Note.category note
                 end)
                (Py.get (vd_tags vd) (Note.tags note)) (Note.content note)
                (Py.get (vd_summary vd) (Note.summary note))
                (Py.get (vd_reminder_date vd) (Note.reminder_date note))
                (Note.created_at note) now (Note.owner note)
                (Py.get (vd_is_favorite vd) (Note.is_favorite note)))
               F1 eq_refl eq_refl) as [S1 S2].
    repeat split; trivial; try exact S1.
    now apply Hcat2'.
Qed.

(** The sample edit changes the content and the summary; the title, the
    tags and the category stay. *)
Lemma partial_update_witness :
  let w := run empty_world [Sample.create] in
  exists n w',
    NoteDetailView_put Sample.env_up w (Sample.noon + 60) Sample.alice 1
      (Sample.only_content "milk, eggs") = (mkResponse 200 (NoteBody n), w') /\
    Note.title n = "Groceries" /\ Note.content n = "milk, eggs" /\
    Note.category n = Some 1 /\ Note.updated_at n = Sample.noon + 60.
Proof.
  intros w. eexists. eexists. split; [vm_compute; reflexivity|].
  edestruct (partial_update_effect Sample.env_up w (Sample.noon + 60) Sample.alice 1
               (Sample.only_content "milk, eggs") Sample.stored_note)
    as (_ & _ & _ & _ & Hu & Ht & Hc & _ & _ & _ & _ & Hcat & _);
    [vm_compute; reflexivity | vm_compute; reflexivity |].
  split; [exact Ht|]. split; [exact Hc|]. split; [exact (Hcat eq_refl) | exact Hu].
Defined.

(** ** Reading back what was written *)





(** ** A draft, then its restore *)



(** ** Searching and listing *)

Lemma existsb_eqb_In (t : string) (l : list string) :
  existsb (String.eqb t) l = true <-> In t l.
Proof.
  rewrite existsb_exists. split.
  - intros (x & Hx & E). apply String.eqb_eq in E. now subst.
  - intros H. exists t. split; trivial. apply String.eqb_refl.
Qed.

Lemma recently_updated_total (a b : Note.t) :
  ReadViews.recently_updated a b = false -> ReadViews.recently_updated b a = true.
Proof. unfold ReadViews.recently_updated. rewrite Z.leb_gt, Z.leb_le. lia. Qed.

Lemma recently_updated_trans (a b c : Note.t) :
  ReadViews.recently_updated a b = true -> ReadViews.recently_updated b c = true ->
  ReadViews.recently_updated a c = true.
Proof. unfold ReadViews.recently_updated. rewrite !Z.leb_le. lia. Qed.

Lemma StronglySorted_impl {A : Type} (R R' : A -> A -> Prop) (l : list A) :
  (forall a b, R a b -> R' a b) -> StronglySorted R l -> StronglySorted R' l.
Proof.
  intros H S. induction S as [|a l Hl IH Ha]; constructor; trivial.
  rewrite Forall_forall in *. auto.
Qed.

(** X14. The search by tag answers 200 with the caller's notes that have
    the lower-cased search text among their tags, most recently updated
    first, each as often as the table holds it.  The stored tags are
    compared as they are: a note is found only through a tag that is
    itself in lower case, so a tag stored with a capital letter is never
    matched, not even by its own spelling. *)
Theorem search_by_tag_effect (w : World) (user : Z) (tag_name : string) :
  exists l,
    ReadViews.SearchByTagView_get w user tag_name = (200, ReadViews.NoteList l) /\
    Permutation l (filter (has_tag user (Py.lower tag_name)) (notes w)) /\
    (forall n, In n l <->
       In n (notes w) /\ Note.owner n = user /\ In (Py.lower tag_name) (Note.tags n)) /\
    StronglySorted updated_later_or_equal l /\
    (forall n t, In n l -> In t (Note.tags n) -> Py.lower t <> t -> t <> Py.lower tag_name) /\
    (forall n, In n (notes w) -> (forall t, In t (Note.tags n) -> Py.lower t <> t) ->
               ~ In n l).
Proof.
  eexists. split; [reflexivity|].
  assert (Hin : forall n,
    In n (ORM.order_by ReadViews.recently_updated
            (filter (has_tag user (Py.lower tag_name)) (notes w))) <->
    In n (notes w) /\ Note.owner n = user /\ In (Py.lower tag_name) (Note.tags n)).
  { intros n. rewrite order_by_In, filter_In. unfold has_tag.
    rewrite andb_true_iff, existsb_eqb_In, Z.eqb_eq. tauto. }
  split; [apply order_by_perm|]. split; [exact Hin|]. split; [|split].
  - apply (StronglySorted_impl (fun a b => ReadViews.recently_updated a b = true)).
    + intros a b. unfold updated_later_or_equal, ReadViews.recently_updated.
      apply Z.leb_le.
    + apply order_by_sorted; [apply recently_updated_total | apply recently_updated_trans].
  - intros n t _ _ Hne E. apply Hne. rewrite E. apply lower_idem.
  - intros n Hn Hall Hl. apply Hin in Hl. destruct Hl as (_ & _ & Ht).
    apply (Hall _ Ht). apply lower_idem.
Qed.

(** The sample note is found under "FOOD"; a note tagged "Food" is not
    found under "Food". *)
Lemma search_by_tag_witness :
  let capital := mkNoteData (Some "Bread") (Some (CategoryDict (Some "Home")))
                            (Some ["Food"]) (Some "rye") None None None in
  let w := run empty_world
             [Sample.create;
              mkCall Sample.alice Sample.noon Sample.env_up (POST_notes capital)] in
  ReadViews.SearchByTagView_get w Sample.alice "FOOD"
    = (200, ReadViews.NoteList [Sample.stored_note]) /\
  forall n, In n (notes w) -> Note.tags n = ["Food"] ->
            forall l, ReadViews.SearchByTagView_get w Sample.alice "Food"
                        = (200, ReadViews.NoteList l) -> ~ In n l.
Proof.
  intros capital w. split; [vm_compute; reflexivity|].
  intros n Hn Ht l E.
  destruct (search_by_tag_effect w Sample.alice "Food") as (l' & E' & _ & _ & _ & _ & H).
  rewrite E in E'. injection E' as <-.
  apply H; trivial. rewrite Ht. intros t [<-|[]]. discriminate.
Defined.

(** X15. In every reachable store the category list of a user answers
    204 exactly when the user has no category, and otherwise 200 with the
    names of the user's categories, each name once. *)
Theorem category_list_effect (calls : list Call) (user : Z) :
  let w := run empty_world calls in
  let own := filter (fun c => Category.owner c =? user) (categories w) in
  (own = [] ->
   ReadViews.CategoryView_get w user = (204, ReadViews.Message "empty" "No categories found.")) /\
  (own <> [] ->
   ReadViews.CategoryView_get w user = (200, ReadViews.CategoryNames (map Category.name own)) /\
   NoDup (map Category.name own) /\
   forall name, In name (map Category.name own) <->
                exists c, In c (categories w) /\ Category.owner c = user /\
                          Category.name c = name).
Proof.
  intros w own.
  assert (Hw : categories_ok w) by (apply categories_ok_run, categories_ok_empty).
  unfold ReadViews.CategoryView_get. fold own. split.
  - intros ->. reflexivity.
  - intros Hne. destruct own as [|c0 l] eqn:E; [now elim Hne|]. rewrite <- E.
    split; [rewrite E; reflexivity|]. split.
    + assert (K : NoDup (map category_key own)).
      { unfold own. apply NoDup_map_filter. apply (cat_keys w Hw). }
      assert (O : forall c, In c own -> Category.owner c = user).
      { intros c Hc. unfold own in Hc. apply filter_In in Hc.
        destruct Hc as [_ Hc]. now apply Z.eqb_eq. }
      clear E. induction own as [|c l' IH]; simpl; constructor.
      * inversion K as [|? ? Hnot _]; subst. intros Hin. apply Hnot.
        apply in_map_iff in Hin. destruct Hin as (c' & En & Hc').
        apply in_map_iff. exists c'. split; trivial.
        unfold category_key. rewrite En, (O c' (or_intror Hc')), (O c (or_introl eq_refl)).
        reflexivity.
      * apply IH; [now inversion K | intros c' Hc'; apply O; now right].
    + intros name. rewrite in_map_iff. unfold own. split.
      * intros (c & En & Hc). apply filter_In in Hc. destruct Hc as [Hc Ho].
        apply Z.eqb_eq in Ho. eauto.
      * intros (c & Hc & Ho & En). exists c. split; trivial.
        apply filter_In. split; trivial. now apply Z.eqb_eq.
Qed.

(** Alice has the category "home"; Bob has none. *)
Lemma category_list_witness :
  let w := run empty_world [Sample.create] in
  ReadViews.CategoryView_get w Sample.alice = (200, ReadViews.CategoryNames ["home"]) /\
  ReadViews.CategoryView_get w Sample.bob
    = (204, ReadViews.Message "empty" "No categories found.").
Proof.
  intros w.
  destruct (category_list_effect [Sample.create] Sample.alice) as [_ H].
  destruct (category_list_effect [Sample.create] Sample.bob) as [H' _].
  split.
  - destruct H as [E _]; [vm_compute; discriminate | exact E].
  - apply H'. reflexivity.
Defined.

(** ** The reminder mails *)



(** ** Authentication *)

Lemma option_eqb_eq (a b : option string) :
  Authentication.option_eqb a b = true <-> a = b.
Proof.
  destruct a as [x|], b as [y|]; simpl; split; intros H; try discriminate; trivial.
  - apply String.eqb_eq in H. now subst.
  - injection H as ->. apply String.eqb_refl.
Qed.

Lemma get_some (us : Authentication.Users) (fuid : string) (u : Authentication.User) :
  Authentication.get us fuid = Some u ->
  In u (Authentication.rows us) /\ Authentication.firebase_uid u = Some fuid.
Proof.
  unfold Authentication.get. intros H. apply find_some in H as [Hin E].
  split; trivial. now apply option_eqb_eq.
Qed.

Lemma In_taken (f : Authentication.User -> option string)
    (l : list Authentication.User) (x : string) :
  In x (taken f l) <-> exists u, In u l /\ f u = Some x.
Proof.
  unfold taken. rewrite in_flat_map. split.
  - intros (u & Hu & Hx). exists u. split; trivial.
    destruct (f u) as [y|]; simpl in Hx; [|contradiction].
    destruct Hx as [->|[]]. reflexivity.
  - intros (u & Hu & E). exists u. split; trivial. rewrite E. now left.
Qed.

Lemma taken_app (f : Authentication.User -> option string)
    (l1 l2 : list Authentication.User) :
  taken f (l1 ++ l2) = taken f l1 ++ taken f l2.
Proof. unfold taken. apply flat_map_app. Qed.

Lemma existsb_option_false (f : Authentication.User -> option string)
    (l : list Authentication.User) (x : string) :
  existsb (fun u => Authentication.option_eqb (f u) (Some x)) l = false ->
  ~ In x (taken f l).
Proof.
  intros H Hin. apply In_taken in Hin as (u & Hu & E).
  assert (X : existsb (fun u => Authentication.option_eqb (f u) (Some x)) l = true).
  { apply existsb_exists. exists u. split; trivial. now apply option_eqb_eq. }
  congruence.
Qed.

Lemma create_ok (us : Authentication.Users) (fuid e name : string)
    (u : Authentication.User) (us1 : Authentication.Users) :
  users_ok us ->
  Authentication.create us fuid e name = Some (u, us1) ->
  users_ok us1 /\
  u = Authentication.mkUser (Authentication.next_id us) (Some name) e (Some fuid) /\
  Authentication.rows us1 = Authentication.rows us ++ [u] /\
  ~ In fuid (taken Authentication.firebase_uid (Authentication.rows us)).
Proof.
  intros [I1 I2 I3 I4 I5]. unfold Authentication.create.
  destruct (existsb _ _) eqn:E1; simpl; [discriminate|].
  destruct (existsb _ _) eqn:E2 in |- *; simpl; [discriminate|].
  destruct (existsb _ _) eqn:E3 in |- *; simpl; [discriminate|].
  intros H. injection H as <- <-. simpl.
  apply existsb_option_false in E2, E3.
  assert (E1' : ~ In e (map Authentication.email (Authentication.rows us))).
  { intros Hin. apply in_map_iff in Hin as (r & Hr & Hin).
    assert (X : existsb (fun u => String.eqb (Authentication.email u) e)
                  (Authentication.rows us) = true).
    { apply existsb_exists. exists r. split; trivial. now apply String.eqb_eq. }
    congruence. }
  split; [|repeat split; trivial].
  constructor; simpl.
  - rewrite map_app. simpl. apply NoDup_snoc; trivial.
    intros Hin. apply in_map_iff in Hin as (r & Hr & Hin).
    apply I2 in Hin. lia.
  - intros r Hin. apply in_app_iff in Hin as [Hin|[<-|[]]]; simpl; [|lia].
    apply I2 in Hin. lia.
  - rewrite map_app. simpl. now apply NoDup_snoc.
  - rewrite taken_app. simpl. now apply NoDup_snoc.
  - rewrite taken_app. simpl. now apply NoDup_snoc.
Qed.

Section SaveEmail.

Variable i : Z.
Variable a : string.

Let upd (u : Authentication.User) : Authentication.User :=
  if Authentication.id u =? i then Authentication.set_email u a else u.

Lemma upd_ids (l : list Authentication.User) :
  map Authentication.id (map upd l) = map Authentication.id l.
Proof.
  rewrite map_map. apply map_ext. intros u. unfold upd.
  now destruct (Authentication.id u =? i).
Qed.

Lemma upd_taken (f : Authentication.User -> option string) (l : list Authentication.User) :
  (forall u, f (Authentication.set_email u a) = f u) ->
  taken f (map upd l) = taken f l.
Proof.
  intros Hf. induction l as [|u l IH]; simpl; trivial.
  rewrite IH. f_equal. unfold upd.
  destruct (Authentication.id u =? i); [now rewrite Hf | reflexivity].
Qed.

Lemma upd_other (l : list Authentication.User) :
  (forall u, In u l -> Authentication.id u <> i) -> map upd l = l.
Proof.
  intros H. induction l as [|u l IH]; simpl; trivial.
  rewrite IH by (intros r Hr; apply H; now right). f_equal.
  unfold upd. destruct (Authentication.id u =? i) eqn:E; trivial.
  apply Z.eqb_eq in E. exfalso. apply (H u); [now left | trivial].
Qed.

Lemma upd_emails_in (l : list Authentication.User) (x : string) :
  In x (map Authentication.email (map upd l)) ->
  x = a \/ In x (map Authentication.email l).
Proof.
  intros Hin. apply in_map_iff in Hin as (r' & <- & Hin).
  apply in_map_iff in Hin as (r & <- & Hin). unfold upd.
  destruct (Authentication.id r =? i); simpl; [now left|].
  right. now apply in_map.
Qed.

Lemma upd_emails (l : list Authentication.User) :
  NoDup (map Authentication.id l) ->
  NoDup (map Authentication.email l) ->
  (forall u, In u l -> Authentication.id u <> i -> Authentication.email u <> a) ->
  NoDup (map Authentication.email (map upd l)).
Proof.
  induction l as [|u l IH]; simpl; intros Hid Hem Hfree; [constructor|].
  inversion Hid as [|? ? Hu Hid']; subst. inversion Hem as [|? ? Hu' Hem']; subst.
  unfold upd at 1. destruct (Authentication.id u =? i) eqn:E.
  - apply Z.eqb_eq in E.
    assert (Hl : forall r, In r l -> Authentication.id r <> i).
    { intros r Hr Hri. apply Hu. rewrite E, <- Hri. now apply in_map. }
    rewrite upd_other by exact Hl. constructor; trivial. simpl.
    intros Hin. apply in_map_iff in Hin as (r & Hr & Hin).
    apply (Hfree r); [now right | now apply Hl | trivial].
  - apply Z.eqb_neq in E. constructor.
    + intros Hin. apply upd_emails_in in Hin as [Hin|Hin]; [|contradiction].
      apply (Hfree u); [now left | trivial | trivial].
    + apply IH; trivial. intros r Hr. apply Hfree. now right.
Qed.

End SaveEmail.

Lemma same_id_same_row (l : list Authentication.User) (u r : Authentication.User) :
  NoDup (map Authentication.id l) -> In u l -> In r l ->
  Authentication.id r = Authentication.id u -> r = u.
Proof.
  induction l as [|x l IH]; simpl; intros Hnd Hu Hr E; [contradiction|].
  inversion Hnd as [|? ? Hx Hnd']; subst.
  destruct Hu as [->|Hu], Hr as [->|Hr]; trivial.
  - exfalso. apply Hx. rewrite <- E. now apply in_map.
  - exfalso. apply Hx. rewrite E. now apply in_map.
  - now apply IH.
Qed.

Lemma save_email_ok (us us2 : Authentication.Users) (user : Authentication.User)
    (a : string) :
  users_ok us -> In user (Authentication.rows us) ->
  Authentication.save_email us user a = Some us2 ->
  users_ok us2 /\
  In (Authentication.set_email user a) (Authentication.rows us2) /\
  map Authentication.id (Authentication.rows us2) = map Authentication.id (Authentication.rows us) /\
  (forall r, Authentication.firebase_uid r <> Authentication.firebase_uid user ->
     In r (Authentication.rows us2) <-> In r (Authentication.rows us)).
Proof.
  intros [I1 I2 I3 I4 I5] Hin. unfold Authentication.save_email.
  destruct (existsb _ _) eqn:E; [discriminate|]. intros H. injection H as <-. simpl.
  assert (Hfree : forall u, In u (Authentication.rows us) ->
            Authentication.id u <> Authentication.id user -> Authentication.email u <> a).
  { intros u Hu Hne He.
    assert (X : existsb (fun u => String.eqb (Authentication.email u) a
                           && negb (Authentication.id u =? Authentication.id user))
                  (Authentication.rows us) = true).
    { apply existsb_exists. exists u. split; trivial.
      apply andb_true_iff. split; [now apply String.eqb_eq|].
      apply negb_true_iff. now apply Z.eqb_neq. }
    congruence. }
  split; [|split; [|split]].
  - constructor; simpl.
    + now rewrite upd_ids.
    + intros u Hu. apply in_map_iff in Hu as (r & <- & Hr).
      destruct (Authentication.id r =? Authentication.id user); simpl; now apply I2.
    + now apply upd_emails.
    + rewrite upd_taken; trivial.
    + rewrite upd_taken; trivial.
  - apply in_map_iff. exists user. split; trivial. now rewrite Z.eqb_refl.
  - apply upd_ids.
  - intros r Hr. rewrite in_map_iff. split.
    + intros (x & Hx & Hxin). destruct (Authentication.id x =? Authentication.id user) eqn:Ex.
      * apply Z.eqb_eq in Ex.
        assert (X : x = user) by (apply (same_id_same_row (Authentication.rows us)); trivial).
        subst x r. simpl in Hr. now elim Hr.
      * now subst.
    + intros Hrin. exists r. split; trivial.
      destruct (Authentication.id r =? Authentication.id user) eqn:Er; trivial.
      apply Z.eqb_eq in Er.
      assert (X : r = user) by (apply (same_id_same_row (Authentication.rows us)); trivial).
      subst r. now elim Hr.
Qed.

Lemma created_email_in_sync (e : option string) (fuid name : string) (i : Z) :
  Authentication.email_changed e
    (Authentication.mkUser i (Some name) (Authentication.default_email e fuid) (Some fuid))
  = None.
Proof.
  unfold Authentication.email_changed, Authentication.default_email.
  destruct e as [a|]; trivial. destruct (Py.truthy a); simpl; trivial.
  now rewrite String.eqb_refl.
Qed.

Lemma get_after_save (us us2 : Authentication.Users) (user : Authentication.User)
    (fuid a : string) :
  Authentication.get us fuid = Some user ->
  Authentication.save_email us user a = Some us2 ->
  Authentication.get us2 fuid = Some (Authentication.set_email user a).
Proof.
  unfold Authentication.get, Authentication.save_email.
  destruct (existsb _ _); [discriminate|]. intros G H. injection H as <-. simpl.
  induction (Authentication.rows us) as [|r l IH]; simpl in *; [discriminate|].
  assert (E : Authentication.firebase_uid
                (if Authentication.id r =? Authentication.id user
                 then Authentication.set_email r a else r)
              = Authentication.firebase_uid r).
  { now destruct (Authentication.id r =? Authentication.id user). }
  rewrite E.
  destruct (Authentication.option_eqb (Authentication.firebase_uid r) (Some fuid)).
  - injection G as ->. now rewrite Z.eqb_refl.
  - now apply IH.
Qed.

Lemma get_after_create (us us1 : Authentication.Users) (u : Authentication.User)
    (fuid e name : string) :
  Authentication.get us fuid = None ->
  Authentication.create us fuid e name = Some (u, us1) ->
  Authentication.get us1 fuid = Some u.
Proof.
  unfold Authentication.get, Authentication.create. intros G.
  destruct (_ || _); [discriminate|]. intros H. injection H as <- <-. simpl.
  rewrite find_app, G. simpl. now rewrite String.eqb_refl.
Qed.

Lemma create_email_in_sync (us us1 : Authentication.Users) (u : Authentication.User)
    (fuid name : string) (e : option string) :
  Authentication.create us fuid (Authentication.default_email e fuid) name = Some (u, us1) ->
  Authentication.email_changed e u = None.
Proof.
  unfold Authentication.create. destruct (_ || _); [discriminate|].
  intros H. injection H as <- _. apply created_email_in_sync.
Qed.

Lemma email_changed_some (e : option string) (user : Authentication.User) (a : string) :
  Authentication.email_changed e user = Some a ->
  e = Some a /\ Py.truthy a = true /\ Authentication.email user <> a.
Proof.
  unfold Authentication.email_changed. destruct e as [b|]; [|discriminate].
  destruct (Py.truthy b) eqn:T; simpl; [|discriminate].
  destruct (String.eqb (Authentication.email user) b) eqn:E; simpl; [discriminate|].
  intros H. injection H as ->. apply String.eqb_neq in E. auto.
Qed.

Lemma email_changed_none (e : option string) (user : Authentication.User) (a : string) :
  Authentication.email_changed e user = None ->
  e = Some a -> Py.truthy a = true -> Authentication.email user = a.
Proof.
  unfold Authentication.email_changed. intros H ->  T. rewrite T in H. simpl in H.
  destruct (String.eqb (Authentication.email user) a) eqn:E; simpl in H; [|discriminate].
  now apply String.eqb_eq.
Qed.

Lemma email_in_sync_after_save (user : Authentication.User) (a : string) :
  Py.truthy a = true ->
  Authentication.email_changed (Some a) (Authentication.set_email user a) = None.
Proof.
  intros T. unfold Authentication.email_changed. rewrite T. simpl.
  now rewrite String.eqb_refl.
Qed.

Lemma until_space_token (t rest : string) :
  space_free t = true ->
  Authentication.until_space (t ++ String " " rest)%string = t /\
  Authentication.until_space t = t.
Proof.
  induction t as [|c t IH]; simpl; intros H; [auto|].
  apply andb_true_iff in H as [Hc Ht]. apply negb_true_iff in Hc. rewrite Hc.
  destruct (IH Ht) as [-> ->]. auto.
Qed.

(** X17. Authenticating is idempotent: when a request is authenticated as
    a user, the same header (answered the same way by Firebase)
    authenticates the next request as the very same user row and writes
    nothing more: no second user is created and the e-mail address is
    not saved again. *)
Theorem authenticate_is_idempotent
    (verify : string -> option Authentication.DecodedToken)
    (us us1 : Authentication.Users) (h : option string) (u : Authentication.User) :
  Authentication.authenticate verify us h = (Authentication.Authenticated u, us1) ->
  Authentication.authenticate verify us1 h = (Authentication.Authenticated u, us1).
Proof.
  unfold Authentication.authenticate. destruct h as [h|]; [|discriminate].
  destruct (_ || _); [discriminate|].
  destruct (verify _) as [d|]; [|discriminate].
  destruct (Authentication.uid d) as [fuid|]; [|discriminate].
  unfold Authentication.get_or_create.
  destruct (Authentication.get us fuid) as [user|] eqn:G.
  - destruct (Authentication.email_changed _ user) as [a|] eqn:C.
    + destruct (Authentication.save_email us user a) as [us2|] eqn:S; [|discriminate].
      intros H. injection H as <- <-.
      rewrite (get_after_save _ _ _ _ _ G S).
      apply email_changed_some in C as (C & T & _). rewrite C.
      now rewrite (email_in_sync_after_save _ _ T).
    + intros H. injection H as <- <-. now rewrite G, C.
  - destruct (Authentication.create _ _ _ _) as [[user us']|] eqn:Cr; [|discriminate].
    rewrite (create_email_in_sync _ _ _ _ _ _ Cr).
    intros H. injection H as <- <-.
    rewrite (get_after_create _ _ _ _ _ _ G Cr).
    now rewrite (create_email_in_sync _ _ _ _ _ _ Cr).
Qed.

(** Alice's second request finds the row her first one left. *)
Lemma authenticate_witness :
  Authentication.authenticate AuthSample.firebase AuthSample.users_after
    AuthSample.alice_header
  = (Authentication.Authenticated AuthSample.alice_user, AuthSample.users_after).
Proof.
  apply (authenticate_is_idempotent AuthSample.firebase AuthSample.users_before).
  vm_compute. reflexivity.
Defined.

(** X18. What a successful authentication leaves behind.  On a user table
    that satisfies its unique constraints, an authenticated request gets
    the one row whose [firebase_uid] is the uid Firebase verified for the
    token, carrying the token's e-mail address when it has one; the table
    still satisfies its constraints, the rows of every other uid are
    exactly the ones there were, and the earlier primary keys are
    kept in place. *)
Theorem authenticated_user_effect
    (verify : string -> option Authentication.DecodedToken)
    (us us1 : Authentication.Users) (h : string) (u : Authentication.User) :
  users_ok us ->
  Authentication.authenticate verify us (Some h) = (Authentication.Authenticated u, us1) ->
  exists d fuid,
    verify (Authentication.bearer_token h) = Some d /\
    Authentication.uid d = Some fuid /\
    Authentication.firebase_uid u = Some fuid /\
    In u (Authentication.rows us1) /\
    (forall a, Authentication.token_email d = Some a -> Py.truthy a = true ->
       Authentication.email u = a) /\
    users_ok us1 /\
    (forall r, Authentication.firebase_uid r <> Some fuid ->
       (In r (Authentication.rows us1) <-> In r (Authentication.rows us))) /\
    (exists new, map Authentication.id (Authentication.rows us1)
                 = map Authentication.id (Authentication.rows us) ++ new).
Proof.
  intros Hok. unfold Authentication.authenticate.
  destruct (_ || _); [discriminate|].
  destruct (verify _) as [d|] eqn:V; [|discriminate].
  destruct (Authentication.uid d) as [fuid|] eqn:U; [|discriminate].
  unfold Authentication.get_or_create.
  destruct (Authentication.get us fuid) as [user|] eqn:G.
  - destruct (get_some _ _ _ G) as [Hin Huid].
    destruct (Authentication.email_changed _ user) as [a|] eqn:C.
    + destruct (Authentication.save_email us user a) as [us2|] eqn:S; [|discriminate].
      intros H. injection H as <- <-.
      destruct (save_email_ok _ _ _ _ Hok Hin S) as (Hok2 & Hin2 & Hids & Hfr).
      apply email_changed_some in C as (C & T & _).
      exists d, fuid. split; [first [exact V | reflexivity]|]. split; [first [exact U | reflexivity]|].
      split; [exact Huid|]. split; [exact Hin2|].
      split; [intros b Hb _; simpl; congruence|]. split; [exact Hok2|].
      split.
      * intros r Hr. apply Hfr. now rewrite Huid.
      * exists []. now rewrite app_nil_r.
    + intros H. injection H as <- <-.
      exists d, fuid. split; [first [exact V | reflexivity]|]. split; [first [exact U | reflexivity]|].
      split; [exact Huid|]. split; [exact Hin|].
      split; [intros b Hb T; now apply (email_changed_none _ _ _ C)|].
      split; [exact Hok|]. split; [tauto|].
      exists []. now rewrite app_nil_r.
  - destruct (Authentication.create _ _ _ _) as [[user us']|] eqn:Cr; [|discriminate].
    rewrite (create_email_in_sync _ _ _ _ _ _ Cr).
    intros H. injection H as <- <-.
    destruct (create_ok _ _ _ _ _ _ Hok Cr) as (Hok1 & Hu & Hrows & Hnew).
    exists d, fuid. split; [first [exact V | reflexivity]|]. split; [first [exact U | reflexivity]|].
    split; [now rewrite Hu|].
    split; [rewrite Hrows; apply in_app_iff; right; now left|].
    split.
    { intros b Hb T. rewrite Hu. simpl. unfold Authentication.default_email.
      now rewrite Hb, T. }
    split; [exact Hok1|]. split.
    + intros r Hr. rewrite Hrows, in_app_iff. split; [|now left].
      intros [Hin|[<-|[]]]; trivial. rewrite Hu in Hr. simpl in Hr. now elim Hr.
    + exists [Authentication.id user]. rewrite Hrows, map_app. reflexivity.
Qed.

Lemma users_before_ok : users_ok AuthSample.users_before.
Proof.
  constructor; simpl.
  - repeat constructor; simpl; intuition discriminate.
  - intros u [<-|[<-|[]]]; simpl; lia.
  - repeat constructor; simpl; intuition discriminate.
  - repeat constructor; simpl; intuition discriminate.
  - repeat constructor; simpl; intuition discriminate.
Qed.

(** Alice's address changed in Firebase: her row is updated, the
    registered user's row is kept. *)
Lemma authenticated_user_witness :
  Authentication.email AuthSample.alice_user = "alice@example.org" /\
  In AuthSample.registered (Authentication.rows AuthSample.users_after).
Proof.
  destruct (authenticated_user_effect AuthSample.firebase AuthSample.users_before
              AuthSample.users_after "Bearer tok-alice" AuthSample.alice_user
              users_before_ok eq_refl)
    as (d & fuid & V & U & _ & _ & He & _ & Hfr & _).
  vm_compute in V. injection V as <-. simpl in U. injection U as <-.
  split.
  - apply He; reflexivity.
  - apply Hfr; [discriminate|]. simpl. right. now left.
Defined.



(** X20. Only the text between 'Bearer ' and the next space is the token:
    for a token without a space, that token is what Firebase is asked to
    verify, and whatever follows it after a space changes nothing of the
    outcome. *)
Theorem text_after_token_is_ignored
    (verify : string -> option Authentication.DecodedToken)
    (us : Authentication.Users) (t rest : string) :
  space_free t = true ->
  Authentication.bearer_token ("Bearer " ++ t)%string = t /\
  Authentication.authenticate verify us (Some ("Bearer " ++ t ++ String " " rest)%string)
  = Authentication.authenticate verify us (Some ("Bearer " ++ t)%string).
Proof.
  intros H. destruct (until_space_token t rest H) as [E1 E2].
  split; [exact E2|].
  unfold Authentication.authenticate, Authentication.starts_with_Bearer,
    Authentication.bearer_token.
  rewrite !prefix_append. simpl. now rewrite E1, E2.
Qed.

Lemma text_after_token_witness :
  Authentication.authenticate AuthSample.firebase AuthSample.users_before
    (Some "Bearer tok-alice and more")
  = Authentication.authenticate AuthSample.firebase AuthSample.users_before
      AuthSample.alice_header.
Proof.
  exact (proj2 (text_after_token_is_ignored AuthSample.firebase AuthSample.users_before
                  "tok-alice" "and more" eq_refl)).
Defined.
